(** * Provider registry and step generator of the deployment engine

    A shallow embedding of the Go package [deploy]: the provider loader,
    the meta-provider and the shim provider on one side, the step generator
    ([GenerateSteps], [GenerateDeletes], [diff]) on the other, followed by
    the properties established about them.  Calls of [logging] have no
    effect on what the functions return or store and are left out. *)

From Stdlib Require Import ZArith Ascii String.
From stdpp Require Import base option list strings gmap pretty.

Set Warnings "-register-all".
Local Open Scope string_scope.
Local Open Scope list_scope.

(** ** Outcomes of fallible code

    A Go function of this package either returns a value, returns a non-nil
    [error], or panics (a failed [contract.Assert], a [contract.Fail], a call
    through a nil interface).  An [error] is represented by its message. *)

Abbreviation error := string (only parsing).

Inductive result (A : Type) : Type :=
| Ok (a : A)
| Err (e : error)
| Panic (why : string).
Arguments Ok {A} a.
Arguments Err {A} e.
Arguments Panic {A} why.

(** State threaded through the calls, with early exit on error and panic.
    What was written to the state before the exit stays written, as in Go. *)
Section StateError.
Context {S : Type}.

Definition M (A : Type) : Type := S → result A * S.

Definition ret {A} (a : A) : M A := λ s, (Ok a, s).

Definition bind {A B} (m : M A) (k : A → M B) : M B :=
  λ s, match m s with
       | (Ok a, s') => k a s'
       | (Err e, s') => (Err e, s')
       | (Panic w, s') => (Panic w, s')
       end.

Definition fail {A} (e : error) : M A := λ s, (Err e, s).
Definition panic {A} (why : string) : M A := λ s, (Panic why, s).
Definition gets {A} (f : S → A) : M A := λ s, (Ok (f s), s).
Definition modify (f : S → S) : M unit := λ s, (Ok tt, f s).

(** [v, err := f(...)] followed by a test of [err]: the error becomes a
    value again. *)
Definition attempt {A} (m : M A) : M (error + A) :=
  λ s, match m s with
       | (Ok a, s') => (Ok (inr a), s')
       | (Err e, s') => (Ok (inl e), s')
       | (Panic w, s') => (Panic w, s')
       end.

Definition when (b : bool) (m : M unit) : M unit := if b then m else ret tt.
End StateError.
Arguments M : clear implicits.

Notation "'let!' x ':=' m 'in' k" := (bind m (λ x, k))
  (at level 10, x name, m at level 100, k at level 200,
   format "'[v' 'let!'  x  ':='  m  'in' '/' k ']'").
Notation "'let!' ' p ':=' m 'in' k" := (bind m (λ x, match x with p => k end))
  (at level 10, p pattern, m at level 100, k at level 200,
   format "'[v' 'let!'  ' p  ':='  m  'in' '/' k ']'").
Notation "m ';;!' k" := (bind m (λ _, k))
  (at level 100, k at level 200, right associativity).

(** Modelled from the spec: the package [contract] is not part of the
    fragment.  Its assertions are the "defensive assertions" of the design:
    a failed [contract.Assert] and every [contract.Fail] are fatal. *)
Definition contract_Assert {S} (cond : bool) : M S unit :=
  if cond then ret tt else panic "An assertion has failed".
Definition contract_Fail {S} : M S unit := panic "A failure has occurred".

(** ** Data model (packages [resource], [tokens], [plugin], [semver]) *)

Abbreviation URN := string (only parsing).
Abbreviation ID := string (only parsing).
Abbreviation Package := string (only parsing).
Abbreviation PropertyKey := string (only parsing).

(** A property value is a tagged value.  The payload of a number, an asset
    or an archive is never inspected by this package. *)
Inductive PropertyValue : Type :=
| PVNull
| PVBool (b : bool)
| PVNumber (n : Z)
| PVString (s : string)
| PVArray (vs : list PropertyValue)
| PVObject (kvs : list (PropertyKey * PropertyValue))
| PVAsset (ref : string)
| PVArchive (ref : string)
| PVComputed.

Definition IsString (v : PropertyValue) : bool :=
  match v with PVString _ => true | _ => false end.
Definition IsComputed (v : PropertyValue) : bool :=
  match v with PVComputed => true | _ => false end.
Definition StringValue (v : PropertyValue) : string :=
  match v with PVString s => s | _ => "" end.

(** A Go map may be [nil]: [None].  Reading a nil map finds nothing and
    ranging over it visits nothing. *)
Abbreviation PropertyMap := (option (gmap string PropertyValue)) (only parsing).

Definition lookupProperty (m : PropertyMap) (k : PropertyKey) : option PropertyValue :=
  match m with Some kvs => kvs !! k | None => None end.

(** [for k, v := range m]: every entry once, in an order the language does
    not fix. *)
Definition rangeProperties (m : PropertyMap) : list (PropertyKey * PropertyValue) :=
  match m with Some kvs => map_to_list kvs | None => [] end.

Record State : Type := NewState {
  Type_ : string;
  URN_ : URN;
  Custom : bool;
  Delete : bool;
  ID_ : ID;
  Inputs : PropertyMap;
  Outputs : PropertyMap;
  Parent : URN;
  Protect : bool;
  Dependencies : list URN;
  Excluded : list string
}.

Record Goal : Type := {
  gType : string;
  gName : string;
  gCustom : bool;
  gProperties : PropertyMap;
  gParent : URN;
  gProtect : bool;
  gDependencies : list URN
}.

(** URNs and type tokens are built and taken apart by [resource.NewURN] and
    the methods of [resource.URN] and [tokens.Type], which the fragment only
    calls. *)
Record Tokens : Type := {
  NewURN : string → string → string → string → string → URN;
  urnType : URN → string;
  urnName : URN → string;
  urnQualifiedType : URN → string;
  typeName : string → string;
  typePackage : string → Package;
  RootStackType : string
}.

Record Version : Type := {
  Major : N;
  Minor : N;
  Patch : N;
  Pre : list string;
  Build : list string
}.

(** [workspace.PluginInfo]: the metadata a plugin reports about itself. *)
Record PluginInfo : Type := {
  infoName : string;
  infoKind : string;
  infoVersion : option Version
}.

Record CheckFailure : Type := {
  Property : PropertyKey;
  Reason : string
}.

Record AnalyzeFailure : Type := {
  aProperty : PropertyKey;
  aReason : string
}.

(** [plugin.DiffChanges] is an integer type; [%d] prints it. *)
Abbreviation DiffChanges := Z (only parsing).

(** Modelled from the spec: the three named values of the "tri-state change
    indicator (none/some/unknown)" are declared outside the fragment; only
    their being distinct is used. *)
Definition DiffUnknown : DiffChanges := 0.
Definition DiffNone : DiffChanges := 1.
Definition DiffSome : DiffChanges := 2.

Record DiffResult : Type := {
  Changes : DiffChanges;
  ReplaceKeys : list PropertyKey;
  StableKeys : list PropertyKey;
  DeleteBeforeReplace : bool
}.

(** Modelled from the spec: [DiffResult.Replace] is declared outside the
    fragment; it is the "derived replace-required decision": a replacement is
    required when some key forced it. *)
Definition Replace (d : DiffResult) : bool :=
  match ReplaceKeys d with [] => false | _ :: _ => true end.

(** [plugin.DiffResult{Changes: c}]: the other fields are zero. *)
Definition DiffResultOf (c : DiffChanges) : DiffResult :=
  {| Changes := c; ReplaceKeys := []; StableKeys := []; DeleteBeforeReplace := false |}.

Definition setChanges (d : DiffResult) (c : DiffChanges) : DiffResult :=
  {| Changes := c; ReplaceKeys := ReplaceKeys d; StableKeys := StableKeys d;
     DeleteBeforeReplace := DeleteBeforeReplace d |}.

(** A configuration key is the pair (namespace, name). *)
Abbreviation ConfigKey := (string * string)%type (only parsing).

(** Modelled from the spec: [config.MustMakeKey] is declared outside the
    fragment; configuration is "keyed by (resource-type-name,
    property-name)". *)
Definition MustMakeKey (namespace name : string) : ConfigKey := (namespace, name).

(** ** The provider handles

    [plugin.Provider] is an interface with three implementations: the plugin
    the host hands out (a boundary type, known here by the identity of its
    handle), the meta-provider and the shim provider. *)
Inductive Provider : Type :=
| pluginProvider (handle : nat)
| metaProvider
| shimProvider (pkg : Package) (info : PluginInfo).

Inductive Status : Type := StatusOK | StatusPartialFailure | StatusUnknown.

(** ** The plugin host

    The host and the plugins it launches live outside the package.  Every
    call made to them is recorded, and what they answer may depend on the
    calls made before. *)
Inductive HostCall : Type :=
| CallProvider (pkg : Package) (version : option Version)
| CallConfigure (handle : nat) (cfg : gmap (string * string) string)
| CallGetPluginInfo (handle : nat)
| CallCloseProvider (handle : option nat).

Record Host : Type := {
  (** [host.Provider(pkg, version)]: an error, or a handle that may be nil. *)
  hostProvider : list HostCall → Package → option Version → error + option nat;
  (** [provider.Configure(cfg)]: [None] is the nil error. *)
  pluginConfigure : list HostCall → nat → gmap (string * string) string → option error;
  pluginGetPluginInfo : list HostCall → nat → error + PluginInfo;
  hostCloseProvider : list HostCall → option nat → option error
}.

(** One call to the host or to a plugin: the answer is computed from the
    calls made so far, and the call is recorded. *)
Definition callHost {A} (c : HostCall) (answer : list HostCall → A) : M (list HostCall) A :=
  λ log, (Ok (answer log), log ++ [c]).

Definition nilDereference : string := "invalid memory address or nil pointer dereference".

(** ** Loading a provider ([loadProviderRaw], [loadProvider]) *)

Definition ErrMissingProvider : error := "provider not found".

Section Loading.
Variable tok : Tokens.
(** [semver.ParseTolerant], a third-party function: the version it returns
    and the error, nil when the string was accepted. *)
Variable ParseTolerant : string → Version * option error.
Variable host : Host.

Definition loadProviderRaw (pkg : Package) (version : option Version)
    (cfg : gmap (string * string) string) : M (list HostCall) Provider :=
  let! r := callHost (CallProvider pkg version) (λ log, hostProvider host log pkg version) in
  match r with
  | inl err => fail err
  | inr None => panic nilDereference
  | inr (Some h) =>
      (* If configuration fails, discard the loaded plugin. *)
      let! cerr := callHost (CallConfigure h cfg) (λ log, pluginConfigure host log h cfg) in
      match cerr with
      | Some err =>
          (* the error of the close is logged and ignored *)
          let! closeErr := callHost (CallCloseProvider (Some h))
                             (λ log, hostCloseProvider host log (Some h)) in
          fail err
      | None => ret (pluginProvider h)
      end
  end.

(** The requested version, extracted from the properties if present. *)
Definition extractVersion (properties : PropertyMap) : list CheckFailure * option Version :=
  match lookupProperty properties "version" with
  | Some versionProp =>
      if negb (IsString versionProp) then
        ([{| Property := "version"; Reason := "'version' must be a string" |}], None)
      else
        let '(sv, err) := ParseTolerant (StringValue versionProp) in
        (match err with
         | Some e => [{| Property := "version";
                         Reason := "could not parse provider version: " +:+ e |}]
         | None => []
         end, Some sv)
  | None => ([], None)
  end.

(** The body of the loop that converts the property map to a provider
    config map: the failures, [useShim] and [cfg] after one more entry. *)
Definition convertProperty (urn : URN) (allowUnknowns : bool)
    (acc : list CheckFailure * bool * gmap (string * string) string)
    (kv : PropertyKey * PropertyValue)
    : list CheckFailure * bool * gmap (string * string) string :=
  let '(failures, useShim, cfg) := acc in
  let '(k, v) := kv in
  if String.eqb k "version" then acc
  else if IsComputed v then
    if negb allowUnknowns then
      (failures ++ [{| Property := k; Reason := "provider properties must not be unknown" |}],
       useShim, cfg)
    else (failures, true, cfg)
  else if IsString v then
    let key := MustMakeKey (typeName tok (urnType tok urn)) k in
    (failures, useShim, <[key := StringValue v]> cfg)
  else
    (failures ++ [{| Property := k; Reason := "provider property values must be strings" |}],
     useShim, cfg).

(** What [loadProvider] returns: the provider (nil: [None]), the
    validation failures and the hard error (nil: [None]). *)
Definition loadProvider (urn : URN) (properties : PropertyMap) (allowUnknowns : bool)
    : M (list HostCall) (option Provider * list CheckFailure * option error) :=
  (* Extract the requested version from the properties if present. *)
  let '(failures, version) := extractVersion properties in
  (* Convert the property map to a provider config map, removing reserved properties. *)
  let '(failures, useShim, cfg) :=
    fold_left (convertProperty urn allowUnknowns) (rangeProperties properties)
              (failures, false, ∅) in
  (* If there were any validation failures, return them now. *)
  if negb (length failures =? 0)%nat then ret (None, failures, None)
  else
    let pkg : Package := typeName tok (urnType tok urn) in
    if negb useShim then
      (* Load the plugin. *)
      let! r := attempt (loadProviderRaw pkg version cfg) in
      match r with
      | inl err => ret (None, [], Some err)
      | inr provider => ret (Some provider, [], None)
      end
    else
      (* Otherwise, load the provider, get its info, and construct an appropriate shim. *)
      let! r := callHost (CallProvider pkg version) (λ log, hostProvider host log pkg version) in
      match r with
      | inl err => ret (None, [], Some err)
      | inr provider =>
          (* [defer host.CloseProvider(provider)]: runs when the function is left *)
          let close := callHost (CallCloseProvider provider)
                         (λ log, hostCloseProvider host log provider) in
          match provider with
          | None => close ;;! panic nilDereference
          | Some h =>
              let! i := callHost (CallGetPluginInfo h) (λ log, pluginGetPluginInfo host log h) in
              match i with
              | inl err => close ;;! ret (None, [], Some err)
              | inr info => close ;;! ret (Some (shimProvider pkg info), [], None)
              end
          end
      end.

(** ** The serving task ([providerLoader.serve]) *)

Record providerLoadResponse : Type := {
  provider : option Provider;
  failures : list CheckFailure;
  err : option error
}.

(** A request; its reply channel is the value returned for it. *)
Record providerLoadRequest : Type := {
  urn : URN;
  properties : PropertyMap;
  allowUnknowns : bool
}.

Record providerRecord : Type := {
  recProperties : PropertyMap;
  recProvider : option Provider
}.

(** The loader: the handle table, and the calls its host has received. *)
Record providerLoader : Type := {
  providers : gmap string providerRecord;
  hostCalls : list HostCall
}.

Definition withHost {A} (m : M (list HostCall) A) : M providerLoader A :=
  λ p, let '(r, log) := m (hostCalls p) in
       (r, {| providers := providers p; hostCalls := log |}).

Definition storeProvider (u : URN) (r : providerRecord) (p : providerLoader) : providerLoader :=
  {| providers := <[u := r]> (providers p); hostCalls := hostCalls p |}.

(** The body of the loop of [serve]: one request, one reply. *)
Definition serveRequest (req : providerLoadRequest) : M providerLoader providerLoadResponse :=
  let! found := gets (λ p, providers p !! urn req) in
  match properties req with
  | None =>
      match found with
      | None => ret {| provider := None; failures := []; err := Some ErrMissingProvider |}
      | Some record => ret {| provider := recProvider record; failures := []; err := None |}
      end
  | Some _ =>
      contract_Assert (negb (bool_decide (is_Some found))) ;;!
      let! '(prov, fails, e) := withHost (loadProvider (urn req) (properties req)
                                                       (allowUnknowns req)) in
      when ((length fails =? 0)%nat && bool_decide (e = None))
           (modify (storeProvider (urn req)
                      {| recProperties := properties req; recProvider := prov |})) ;;!
      ret {| provider := prov; failures := fails; err := e |}
  end.

(** [for req := range requests]: the requests are served one at a time, in
    the order in which the channel delivers them. *)
Fixpoint serve (requests : list providerLoadRequest)
    : M providerLoader (list providerLoadResponse) :=
  match requests with
  | [] => ret []
  | req :: rest =>
      let! resp := serveRequest req in
      let! resps := serve rest in
      ret (resp :: resps)
  end.

(** [newMetaProvider]: an empty handle table. *)
Definition newProviderLoader : providerLoader := {| providers := ∅; hostCalls := [] |}.

(** ** The meta-provider

    A call is a round trip through the request channel to the serving
    task. *)
Definition metaProvider_loadProvider (u : URN) (props : PropertyMap) (allow : bool)
    : M providerLoader (option Provider * list CheckFailure * option error) :=
  let! response := serveRequest {| urn := u; properties := props; allowUnknowns := allow |} in
  ret (provider response, failures response, err response).

Definition metaProvider_getProvider (u : URN) : M providerLoader (option Provider * option error) :=
  let! '(prov, _, e) := metaProvider_loadProvider u None false in
  ret (prov, e).

Definition metaProvider_Check (u : URN) (olds news : PropertyMap) (allow : bool)
    : M providerLoader (PropertyMap * list CheckFailure * option error) :=
  let! '(_, fails, e) := metaProvider_loadProvider u news allow in
  ret (news, fails, e).

Definition metaProvider_Diff (u : URN) (id : ID) (olds news : PropertyMap) (allow : bool)
    : M providerLoader DiffResult :=
  (* never require replacement *)
  ret (DiffResultOf DiffUnknown).

Definition metaProvider_Create (u : URN) (news : PropertyMap)
    : M providerLoader (ID * PropertyMap * Status) :=
  let! '(_, e) := metaProvider_getProvider u in
  match e with
  | Some e => fail e
  | None => ret ("0", Some ∅, StatusOK)
  end.

Definition metaProvider_Update (u : URN) (id : ID) (olds news : PropertyMap)
    : M providerLoader (PropertyMap * Status) :=
  let! '(_, e) := metaProvider_getProvider u in
  match e with
  | Some e => fail e
  | None => ret (Some ∅, StatusOK)
  end.

Definition metaProvider_Delete (u : URN) (id : ID) (props : PropertyMap)
    : M providerLoader Status :=
  ret StatusOK.

Definition metaProvider_Close : M providerLoader unit := ret tt.

Definition metaProvider_Pkg : Package := "pulumi-providers".

Definition metaProvider_Configure (props : gmap (string * string) string)
    : M providerLoader unit :=
  contract_Fail ;;! fail "the metaProvider is not configurable".

Definition metaProvider_Read (u : URN) (id : ID) (props : PropertyMap)
    : M providerLoader PropertyMap :=
  contract_Fail ;;! fail "providers may not be read".

Definition metaProvider_Invoke (member : string) (args : PropertyMap)
    : M providerLoader (PropertyMap * list CheckFailure) :=
  contract_Fail ;;! fail "the metaProvider is not invokeable".

Definition metaProvider_GetPluginInfo : M providerLoader PluginInfo :=
  (* return an error: this should not be called for the metaProvider *)
  contract_Fail ;;! fail "the metaProvider does not report plugin info".

Definition metaProvider_SignalCancellation : M providerLoader unit := ret tt.
End Loading.

(** ** The shim provider

    Each method takes its receiver first: the package and the plugin
    information the shim was built with. *)
Section Shim.
Context {S : Type}.

Definition shimProvider_Close (pkg : Package) (info : PluginInfo) : M S unit := ret tt.

Definition shimProvider_Pkg (pkg : Package) (info : PluginInfo) : Package := pkg.

Definition shimProvider_Configure (pkg : Package) (info : PluginInfo)
    (props : gmap (string * string) string) : M S unit :=
  contract_Fail ;;! fail "the shimProvider is not configurable".

Definition shimProvider_Check (pkg : Package) (info : PluginInfo)
    (u : URN) (olds news : PropertyMap) (allow : bool) : M S (PropertyMap * list CheckFailure) :=
  ret (news, []).


Definition shimProvider_Create (pkg : Package) (info : PluginInfo)
    (u : URN) (news : PropertyMap) : M S (ID * PropertyMap * Status) :=
  contract_Fail ;;! fail "the shimProvider cannot perform CRUD operations".

Definition shimProvider_Read (pkg : Package) (info : PluginInfo)
    (u : URN) (id : ID) (props : PropertyMap) : M S PropertyMap :=
  ret (Some ∅).

Definition shimProvider_Update (pkg : Package) (info : PluginInfo)
    (u : URN) (id : ID) (olds news : PropertyMap) : M S (PropertyMap * Status) :=
  contract_Fail ;;! fail "the shimProvider cannot perform CRUD operations".

Definition shimProvider_Delete (pkg : Package) (info : PluginInfo)
    (u : URN) (id : ID) (props : PropertyMap) : M S Status :=
  contract_Fail ;;! fail "the shimProvider cannot perform CRUD operations".

Definition shimProvider_Invoke (pkg : Package) (info : PluginInfo)
    (tok : string) (args : PropertyMap) : M S (PropertyMap * list CheckFailure) :=
  ret (Some ∅, []).

Definition shimProvider_GetPluginInfo (pkg : Package) (info : PluginInfo) : M S PluginInfo :=
  ret info.

Definition shimProvider_SignalCancellation (pkg : Package) (info : PluginInfo) : M S unit :=
  ret tt.
End Shim.

(** ** Steps, diagnostics and the plan (package [deploy]) *)

Record RegisterResourceEvent : Type := {
  eventGoal : Goal
}.

(** The steps, named after the functions that build them; a step keeps the
    arguments it was built from. *)
Inductive Step : Type :=
| NewSameStep (event : RegisterResourceEvent) (old new : State)
| NewCreateStep (event : RegisterResourceEvent) (new : State)
| NewUpdateStep (event : RegisterResourceEvent) (old new : State) (stables : list PropertyKey)
| NewReplaceStep (old new : State) (keys : list PropertyKey) (pendingDelete : bool)
| NewCreateReplacementStep (event : RegisterResourceEvent) (old new : State)
    (keys : list PropertyKey) (pendingDelete : bool)
| NewDeleteStep (old : State)
| NewDeleteReplacementStep (old : State) (pendingDelete : bool).

(** What [plan.Diag().Errorf] receives: the message template of package
    [diag] and its arguments. *)
Inductive Diag : Type :=
| DuplicateResourceURNError (urn : URN)
| ResourcePropertyInvalidValueError (urn : URN) (type name : string)
    (property : PropertyKey) (value : PropertyValue) (reason : string)
| ResourceInvalidError (urn : URN) (type name : string) (reason : string)
| AnalyzeResourceFailureError (urn : URN) (analyzer : string)
    (property : PropertyKey) (reason : string).

(** ** The errors of a failed check ([getErrorForCheckFailure],
    [getErrorForCheckFailures])

    An error built by [errors.Errorf] from a message template of package
    [diag] is the template with its arguments; a [multierror] is the list of
    the errors appended to it. *)
Definition getErrorForCheckFailure (tok : Tokens) (res : State) (failure : CheckFailure) : Diag :=
  let urn := URN_ res in
  if negb (String.eqb (Property failure) "") then
    ResourcePropertyInvalidValueError urn (Type_ res) (urnName tok urn) (Property failure)
      (default PVNull (lookupProperty (Inputs res) (Property failure))) (Reason failure)
  else
    ResourceInvalidError urn (Type_ res) (urnName tok urn) (Reason failure).

Definition getErrorForCheckFailures {S} (tok : Tokens) (res : State)
    (failures : list CheckFailure) : M S (list Diag) :=
  contract_Assert (0 <? length failures)%nat ;;!
  ret (fold_left (λ err f, err ++ [getErrorForCheckFailure tok res f]) failures []).

(** The calls the step generator makes to the plan's collaborators. *)
Inductive PlanCall : Type :=
| CallPlanProvider (pkg : Package)
| CallCheck (prov : Provider) (urn : URN) (olds news : PropertyMap) (allowUnknowns : bool)
| CallDiff (prov : Provider) (urn : URN) (id : ID) (olds news : PropertyMap)
    (allowUnknowns : bool)
| CallHostAnalyzer (name : string)
| CallAnalyze (analyzer : nat) (type : string) (props : PropertyMap).

(** The plan: the data the step generator reads, and the collaborators it
    calls (providers, analyzers, dependency graph), whose answers may depend
    on the calls made before. *)
Record Plan : Type := {
  prev : option (list State);
  Olds : gmap string State;
  preview : bool;
  IsRefresh : bool;
  analyzers : list string;
  depGraph : option (State → list State);
  targetName : string;
  sourceProject : string;
  planProvider : list PlanCall → Package → error + option Provider;
  providerCheck : list PlanCall → Provider → URN → PropertyMap → PropertyMap → bool →
                  error + (PropertyMap * list CheckFailure);
  providerDiff : list PlanCall → Provider → URN → ID → PropertyMap → PropertyMap → bool →
                 error + DiffResult;
  hostAnalyzer : list PlanCall → string → error + option nat;
  analyzerAnalyze : list PlanCall → nat → string → PropertyMap → error + list AnalyzeFailure
}.

(** ** The step generator

    Each [map[resource.URN]bool] of the generator only ever receives [true],
    and loses a key by [delete]: it is the set of its keys, and reading it
    with or without the comma-ok form is a membership test. *)

Record stepGenerator : Type := {
  urns : gset string;      (* set of URNs discovered for this plan *)
  deletes : gset string;   (* set of URNs deleted in this plan *)
  replaces : gset string;  (* set of URNs replaced in this plan *)
  updates : gset string;   (* set of URNs updated in this plan *)
  creates : gset string;   (* set of URNs created in this plan *)
  sames : gset string      (* set of URNs that were not changed in this plan *)
}.

Definition newStepGenerator : stepGenerator :=
  {| urns := ∅; deletes := ∅; replaces := ∅; updates := ∅; creates := ∅; sames := ∅ |}.

(** The generator together with what it writes outside itself: the
    diagnostics sink and the record of the calls it made. *)
Record Planner : Type := {
  sg : stepGenerator;
  sink : list Diag;
  calls : list PlanCall
}.

Definition newPlanner : Planner := {| sg := newStepGenerator; sink := []; calls := [] |}.

Definition onGenerator (f : stepGenerator → stepGenerator) (w : Planner) : Planner :=
  {| sg := f (sg w); sink := sink w; calls := calls w |}.

(** [sg.deletes[u] = true], [delete(sg.deletes, u)], [sg.replaces[u] = true], ... *)
Definition setDeleted (u : URN) (g : stepGenerator) : stepGenerator :=
  {| urns := urns g; deletes := {[u]} ∪ deletes g; replaces := replaces g;
     updates := updates g; creates := creates g; sames := sames g |}.
Definition unsetDeleted (u : URN) (g : stepGenerator) : stepGenerator :=
  {| urns := urns g; deletes := deletes g ∖ {[u]}; replaces := replaces g;
     updates := updates g; creates := creates g; sames := sames g |}.
Definition setReplaced (u : URN) (g : stepGenerator) : stepGenerator :=
  {| urns := urns g; deletes := deletes g; replaces := {[u]} ∪ replaces g;
     updates := updates g; creates := creates g; sames := sames g |}.
Definition setUpdated (u : URN) (g : stepGenerator) : stepGenerator :=
  {| urns := urns g; deletes := deletes g; replaces := replaces g;
     updates := {[u]} ∪ updates g; creates := creates g; sames := sames g |}.
Definition setCreated (u : URN) (g : stepGenerator) : stepGenerator :=
  {| urns := urns g; deletes := deletes g; replaces := replaces g;
     updates := updates g; creates := {[u]} ∪ creates g; sames := sames g |}.
Definition setSame (u : URN) (g : stepGenerator) : stepGenerator :=
  {| urns := urns g; deletes := deletes g; replaces := replaces g;
     updates := updates g; creates := creates g; sames := {[u]} ∪ sames g |}.

Definition Errorf (d : Diag) : M Planner unit :=
  modify (λ w, {| sg := sg w; sink := sink w ++ [d]; calls := calls w |}).

Definition callPlan {A} (c : PlanCall) (answer : list PlanCall → A) : M Planner A :=
  λ w, (Ok (answer (calls w)), {| sg := sg w; sink := sink w; calls := calls w ++ [c] |}).

Definition setInputs (s : State) (inputs : PropertyMap) : State :=
  NewState (Type_ s) (URN_ s) (Custom s) (Delete s) (ID_ s) inputs (Outputs s)
           (Parent s) (Protect s) (Dependencies s) (Excluded s).

Definition validationErrors : error :=
  "One or more resource validation errors occurred; refusing to proceed".

Section StepGenerator.
Variable tok : Tokens.
(** [resource.PropertyMap.DeepEquals], declared outside the fragment. *)
Variable DeepEquals : PropertyMap → PropertyMap → bool.
Variable plan : Plan.

Definition generateURN (e : RegisterResourceEvent) : URN :=
  (* Use the resource goal state name to produce a globally unique URN. *)
  let goal := eventGoal e in
  let p := gParent goal in
  let parentType :=
    if negb (String.eqb p "") && negb (String.eqb (urnType tok p) (RootStackType tok))
    then urnQualifiedType tok p   (* otherwise, use the full qualified type *)
    else "" in
  NewURN tok (targetName plan) (sourceProject plan) parentType (gType goal) (gName goal).

Definition getResourcePropertyStates (urn : URN) (goal : Goal)
    : PropertyMap * PropertyMap * PropertyMap * State :=
  let props := gProperties goal in
  let '(inputs, outputs) :=
    if IsRefresh plan then
      (* In the case of a refresh, we will preserve the old inputs. *)
      (match Olds plan !! urn with Some old => Inputs old | None => None end, props)
    else
      (* In the case of non-refreshes, outputs remain empty, but inputs are present. *)
      (props, None) in
  (props, inputs, outputs,
   NewState (gType goal) urn (gCustom goal) false "" inputs outputs
            (gParent goal) (gProtect goal) (gDependencies goal) []).

(** [issueCheckErrors] prints any check errors to the diagnostics sink. *)
Definition issueCheckError (new : State) (urn : URN) (failure : CheckFailure) : M Planner unit :=
  if negb (String.eqb (Property failure) "") then
    Errorf (ResourcePropertyInvalidValueError urn (Type_ new) (urnName tok urn)
              (Property failure)
              (default PVNull (lookupProperty (Inputs new) (Property failure)))
              (Reason failure))
  else
    Errorf (ResourceInvalidError urn (Type_ new) (urnName tok urn) (Reason failure)).

Fixpoint issueEach (new : State) (urn : URN) (failures : list CheckFailure) : M Planner unit :=
  match failures with
  | [] => ret tt
  | failure :: rest => issueCheckError new urn failure ;;! issueEach new urn rest
  end.

Definition issueCheckErrors (new : State) (urn : URN) (failures : list CheckFailure)
    : M Planner bool :=
  if (length failures =? 0)%nat then ret false
  else issueEach new urn failures ;;! ret true.

(** [provider] fetches the provider for a given resource type. *)
Definition provider_ (t : string) : M Planner Provider :=
  let pkg := typePackage tok t in
  let! r := callPlan (CallPlanProvider pkg) (λ log, planProvider plan log pkg) in
  match r with
  | inl err => fail err
  | inr None =>
      fail ("could not load resource provider for package '" +:+ pkg +:+ "' from $PATH")
  | inr (Some prov) => ret prov
  end.

(** [prov.Check(urn, olds, news, allowUnknowns)] with the test of its error. *)
Definition Check_ (prov : Provider) (urn : URN) (olds news : PropertyMap) (allowUnknowns : bool)
    : M Planner (PropertyMap * list CheckFailure) :=
  let! r := callPlan (CallCheck prov urn olds news allowUnknowns)
              (λ log, providerCheck plan log prov urn olds news allowUnknowns) in
  match r with
  | inl err => fail err
  | inr checked => ret checked
  end.

(** [diff] returns a DiffResult for the given resource. *)
Definition diff (urn : URN) (id : ID)
    (oldInputs oldOutputs newInputs newOutputs newProps : PropertyMap)
    (prov : option Provider) (refresh allowUnknowns : bool) : M Planner DiffResult :=
  (* For now, simply apply the legacy diffing behavior before deferring to the provider. *)
  let hasChanges :=
    if refresh then negb (DeepEquals oldOutputs newOutputs)
    else negb (DeepEquals oldInputs newInputs) in
  if negb hasChanges then ret (DiffResultOf DiffNone)
  else
    match prov with
    | None =>
        (* If there is no provider for this resource, simply return a "diffs exist" result. *)
        ret (DiffResultOf DiffSome)
    | Some p =>
        (* Grab the diff from the provider. *)
        let! r := callPlan (CallDiff p urn id oldOutputs newProps allowUnknowns)
                    (λ log, providerDiff plan log p urn id oldOutputs newProps allowUnknowns) in
        match r with
        | inl err => fail err
        | inr d =>
            if (Changes d =? DiffUnknown)%Z then ret (setChanges d DiffSome) else ret d
        end
    end.

(** The analyzers' turn to inspect the resource: the loop over
    [sg.plan.analyzers]. *)
Fixpoint issueAnalyzeFailures (urn : URN) (a : string) (failures : list AnalyzeFailure)
    : M Planner unit :=
  match failures with
  | [] => ret tt
  | failure :: rest =>
      Errorf (AnalyzeResourceFailureError urn a (aProperty failure) (aReason failure)) ;;!
      issueAnalyzeFailures urn a rest
  end.

Fixpoint runAnalyzers (urn : URN) (new : State) (props : PropertyMap)
    (names : list string) (invalid : bool) : M Planner bool :=
  match names with
  | [] => ret invalid
  | a :: rest =>
      let! r := callPlan (CallHostAnalyzer a) (λ log, hostAnalyzer plan log a) in
      match r with
      | inl err => fail err
      | inr None => fail ("analyzer '" +:+ a +:+ "' could not be loaded from your $PATH")
      | inr (Some analyzer) =>
          let! r := callPlan (CallAnalyze analyzer (Type_ new) props)
                      (λ log, analyzerAnalyze plan log analyzer (Type_ new) props) in
          match r with
          | inl err => fail err
          | inr failures =>
              issueAnalyzeFailures urn a failures ;;!
              runAnalyzers urn new props rest
                (invalid || negb (length failures =? 0)%nat)
          end
      end
  end.

(** The local variables of [GenerateSteps] that its second half reads. *)
Record Locals : Type := {
  prov : option Provider;
  recreating : bool;
  props : PropertyMap;
  inputs : PropertyMap;
  outputs : PropertyMap;
  new : State
}.

Definition oldInputsOf (old : option State) : PropertyMap :=
  match old with Some o => Inputs o | None => None end.
Definition oldOutputsOf (old : option State) : PropertyMap :=
  match old with Some o => Outputs o | None => None end.

(** [GenerateSteps], first half: from the entry of the function to the
    test of [invalid] ("If the resource isn't valid, don't proceed any
    further"). *)
Definition validate (event : RegisterResourceEvent) : M Planner Locals :=
  let goal := eventGoal event in
  (* generate an URN for this new resource. *)
  let urn := generateURN event in
  let! invalid := gets (λ w, bool_decide (urn ∈ urns (sg w))) in
  when invalid (Errorf (DuplicateResourceURNError urn)) ;;!
  (* Check for an old resource. *)
  let old := Olds plan !! urn in
  let oldInputs := oldInputsOf old in
  (* Produce a new state object that we'll build up as operations are performed. *)
  let '(props, inputs, outputs, new) := getResourcePropertyStates urn goal in
  (* Fetch the provider for this resource type, assuming it isn't just a logical one. *)
  let! prov := (if gCustom goal
                then let! p := provider_ (gType goal) in ret (Some p)
                else ret None) in
  let refresh := IsRefresh plan in
  let allowUnknowns := preview plan && negb refresh in
  (* We may be re-creating this resource if it got deleted earlier in the plan. *)
  let! recreating := gets (λ w, bool_decide (urn ∈ deletes (sg w))) in
  let! '(invalid, props, inputs, new) :=
    match prov with
    | Some p =>
        if negb refresh then
          let! '(inputs, failures) :=
            (if recreating
             then Check_ p urn None (gProperties goal) allowUnknowns
             else Check_ p urn oldInputs inputs allowUnknowns) in
          let! bad := issueCheckErrors new urn failures in
          ret (invalid || bad, inputs, inputs, setInputs new inputs)
        else ret (invalid, props, inputs, new)
    | None => ret (invalid, props, inputs, new)
    end in
  (* Next, give each analyzer -- if any -- a chance to inspect the resource too. *)
  let! invalid := runAnalyzers urn new props (analyzers plan) invalid in
  (* If the resource isn't valid, don't proceed any further. *)
  if invalid then fail validationErrors
  else ret {| prov := prov; recreating := recreating; props := props;
              inputs := inputs; outputs := outputs; new := new |}.

(** The loop of the delete-before-replace case over the dependents, from
    the last to the first. *)
Fixpoint deleteDependents (urn : URN) (dependents : list State) : M Planner (list Step) :=
  match dependents with
  | [] => ret []
  | dependentResource :: rest =>
      (* If we already deleted this resource due to some other DBR, don't do it again. *)
      let! skip := gets (λ w, bool_decide (urn ∈ deletes (sg w))) in
      if skip then deleteDependents urn rest
      else
        (* Mark the condemned resource as deleted. *)
        modify (onGenerator (setDeleted (URN_ dependentResource))) ;;!
        let! steps := deleteDependents urn rest in
        ret (NewDeleteReplacementStep dependentResource false :: steps)
  end.

(** "If we are going to perform a replacement, we need to recompute the
    default values": the second call of [Check], against no old inputs, which
    gives the new state its inputs. *)
Definition recomputeDefaults (event : RegisterResourceEvent) (urn : URN) (l : Locals)
    : M Planner State :=
  let goal := eventGoal event in
  let refresh := IsRefresh plan in
  let allowUnknowns := preview plan && negb refresh in
  match prov l with
  | Some p =>
      if negb refresh then
        let! '(inputs, failures) := Check_ p urn None (gProperties goal) allowUnknowns in
        let! bad := issueCheckErrors (new l) urn failures in
        if bad then fail validationErrors
        else ret (setInputs (new l) inputs)
      else ret (new l)
  | None => ret (new l)
  end.

(** Case 2 of [GenerateSteps]: the resource exists in the old snapshot. *)
Definition updateOrReplace (event : RegisterResourceEvent) (urn : URN) (old : State)
    (l : Locals) : M Planner (list Step) :=
  let goal := eventGoal event in
  let refresh := IsRefresh plan in
  let allowUnknowns := preview plan && negb refresh in
  contract_Assert (String.eqb (Type_ old) (Type_ (new l))) ;;!
  (* Determine whether the change resulted in a diff. *)
  let! d := diff urn (ID_ old) (Inputs old) (Outputs old) (inputs l) (outputs l) (props l)
              (prov l) refresh allowUnknowns in
  (* Ensure that we received a sensible response. *)
  if negb (Changes d =? DiffNone)%Z && negb (Changes d =? DiffSome)%Z then
    fail ("unrecognized diff state for " +:+ urn +:+ ": " +:+ pretty (Changes d))
  else if (Changes d =? DiffSome)%Z then
    (* If there were changes, check for a replacement vs. an in-place update. *)
    if Replace d then
      modify (onGenerator (setReplaced urn)) ;;!
      let! new := recomputeDefaults event urn l in
      if DeleteBeforeReplace d then
        contract_Assert (bool_decide (is_Some (depGraph plan))) ;;!
        let dependents :=
          match depGraph plan with Some DependingOn => DependingOn old | None => [] end in
        (* Deletions must occur in reverse dependency order. *)
        let! steps := deleteDependents urn (reverse dependents) in
        ret (steps ++ [NewDeleteReplacementStep old false;
                       NewReplaceStep old new (ReplaceKeys d) false;
                       NewCreateReplacementStep event old new (ReplaceKeys d) false])
      else
        ret [NewCreateReplacementStep event old new (ReplaceKeys d) true;
             NewReplaceStep old new (ReplaceKeys d) true]
             (* the delete step is generated later on, after all creates/updates finish. *)
    else
      (* If we fell through, it's an update. *)
      modify (onGenerator (setUpdated urn)) ;;!
      ret [NewUpdateStep event old (new l) (StableKeys d)]
  else
    (* No need to update anything, the properties didn't change. *)
    modify (onGenerator (setSame urn)) ;;!
    ret [NewSameStep event old (new l)].

(** [GenerateSteps], second half: the three cases. *)
Definition dispatch (event : RegisterResourceEvent) (l : Locals) : M Planner (list Step) :=
  let urn := generateURN event in
  let old := Olds plan !! urn in
  let refresh := IsRefresh plan in
  (* Logically, recreating implies hasOld. *)
  contract_Assert (negb (recreating l) || bool_decide (is_Some old)) ;;!
  if recreating l then
    (* Case 1: recreating *)
    match old with
    | Some old =>
        contract_Assert (negb refresh) ;;!
        (* Unmark this resource as deleted, we now know it's being replaced instead. *)
        modify (onGenerator (unsetDeleted urn)) ;;!
        modify (onGenerator (setReplaced urn)) ;;!
        ret [NewReplaceStep old (new l) [] false;
             NewCreateReplacementStep event old (new l) [] false]
    | None => panic "An assertion has failed"   (* left by the assertion above *)
    end
  else
    match old with
    | Some old =>
        (* Case 2: hasOld *)
        updateOrReplace event urn old l
    | None =>
        (* Case 3: Not Case 1 or Case 2 *)
        modify (onGenerator (setCreated urn)) ;;!
        ret [NewCreateStep event (new l)]
    end.

(** [GenerateSteps] produces one or more steps required to achieve the goal
    state specified by the incoming RegisterResourceEvent. *)
Definition GenerateSteps (event : RegisterResourceEvent) : M Planner (list Step) :=
  let! l := validate event in
  dispatch event l.

(** The body of the loop of [GenerateDeletes], for the old resources from
    the last to the first. *)
Fixpoint deleteOlds (resources : list State) : M Planner (list Step) :=
  match resources with
  | [] => ret []
  | res :: rest =>
      let! g := gets sg in
      (* If this resource is explicitly marked for deletion or wasn't seen at all, delete it. *)
      if Delete res then
        modify (onGenerator (setDeleted (URN_ res))) ;;!
        let! dels := deleteOlds rest in
        ret (NewDeleteReplacementStep res true :: dels)
      else if negb (bool_decide (URN_ res ∈ sames g)) && negb (bool_decide (URN_ res ∈ updates g))
              && negb (bool_decide (URN_ res ∈ replaces g))
              && negb (bool_decide (URN_ res ∈ deletes g)) then
        modify (onGenerator (setDeleted (URN_ res))) ;;!
        let! dels := deleteOlds rest in
        ret (NewDeleteStep res :: dels)
      else deleteOlds rest
  end.

Definition GenerateDeletes : M Planner (list Step) :=
  (* To compute the deletion list, we must walk the list of old resources backwards. *)
  match prev plan with
  | Some resources => deleteOlds (reverse resources)
  | None => ret []
  end.

Definition Creates (g : stepGenerator) : gset string := creates g.
Definition Sames (g : stepGenerator) : gset string := sames g.
Definition Updates (g : stepGenerator) : gset string := updates g.
Definition Replaces (g : stepGenerator) : gset string := replaces g.
Definition Deletes (g : stepGenerator) : gset string := deletes g.
End StepGenerator.

(** ** Concrete collaborators

    Instances of what the package takes from outside, used to run the
    definitions on concrete registrations. *)

(** The fields of [s] between the occurrences of the character [c]. *)
Fixpoint splitAt (c : Ascii.ascii) (s : string) : list string :=
  match s with
  | EmptyString => [EmptyString]
  | String a rest =>
      if Ascii.eqb a c then EmptyString :: splitAt c rest
      else match splitAt c rest with
           | f :: fs => String a f :: fs
           | [] => [String a EmptyString]
           end
  end.

(** The groups of fields between empty fields: ["a:b::c"] has the groups
    [["a"; "b"]] and [["c"]]. *)
Fixpoint groups (fields : list string) : list (list string) :=
  match fields with
  | [] => [[]]
  | f :: fs =>
      if String.eqb f "" then [] :: groups fs
      else match groups fs with
           | g :: gs => (f :: g) :: gs
           | [] => [[f]]
           end
  end.

Definition joinColon (fields : list string) : string := String.concat ":" fields.

(** A URN reads [urn:pulumi:<stack>::<project>::<qualified type>::<name>],
    a qualified type [<parent type>$<type>] and a type
    [<package>:<module>:<name>]. *)
Definition exampleTokens : Tokens :=
  {| NewURN := λ stack proj parentType type name,
       "urn:pulumi:" +:+ stack +:+ "::" +:+ proj +:+ "::" +:+
       (if String.eqb parentType "" then type else parentType +:+ "$" +:+ type) +:+
       "::" +:+ name;
     urnQualifiedType := λ u, joinColon (nth 2 (groups (splitAt ":"%char u)) []);
     urnType := λ u,
       List.last (splitAt "$"%char (joinColon (nth 2 (groups (splitAt ":"%char u)) []))) "";
     urnName := λ u, joinColon (nth 3 (groups (splitAt ":"%char u)) []);
     typeName := λ t, List.last (splitAt ":"%char t) "";
     typePackage := λ t, hd "" (splitAt ":"%char t);
     RootStackType := "pulumi:pulumi:Stack" |}.

(** Structural equality of property values and of property maps, a nil map
    being equal to an empty one. *)
Fixpoint PropertyValue_eqb (a b : PropertyValue) : bool :=
  match a, b with
  | PVNull, PVNull => true
  | PVBool x, PVBool y => Bool.eqb x y
  | PVNumber x, PVNumber y => (x =? y)%Z
  | PVString x, PVString y => String.eqb x y
  | PVArray xs, PVArray ys =>
      (fix all2 (xs ys : list PropertyValue) : bool :=
         match xs, ys with
         | [], [] => true
         | x :: xs', y :: ys' => PropertyValue_eqb x y && all2 xs' ys'
         | _, _ => false
         end) xs ys
  | PVObject xs, PVObject ys =>
      (fix all2 (xs ys : list (PropertyKey * PropertyValue)) : bool :=
         match xs, ys with
         | [], [] => true
         | (k, x) :: xs', (k', y) :: ys' =>
             String.eqb k k' && PropertyValue_eqb x y && all2 xs' ys'
         | _, _ => false
         end) xs ys
  | PVAsset x, PVAsset y => String.eqb x y
  | PVArchive x, PVArchive y => String.eqb x y
  | PVComputed, PVComputed => true
  | _, _ => false
  end.

Fixpoint entries_eqb (xs ys : list (PropertyKey * PropertyValue)) : bool :=
  match xs, ys with
  | [], [] => true
  | (k, x) :: xs', (k', y) :: ys' =>
      String.eqb k k' && PropertyValue_eqb x y && entries_eqb xs' ys'
  | _, _ => false
  end.

Definition structuralEquals (a b : PropertyMap) : bool :=
  entries_eqb (rangeProperties a) (rangeProperties b).

(** Modelled from the spec: the dependency graph is a boundary collaborator
    that, "given a resource, returns resources depending on it, in dependency
    order, over the previous snapshot".  The snapshot stores dependents after
    their dependencies, so one pass collects the transitive dependents. *)
Fixpoint dependingOnFrom (resources : list State) (seen : gset string) : list State :=
  match resources with
  | [] => []
  | candidate :: rest =>
      if existsb (λ d, bool_decide (d ∈ seen)) (Dependencies candidate)
      then candidate :: dependingOnFrom rest ({[URN_ candidate]} ∪ seen)
      else dependingOnFrom rest seen
  end.

Definition dependingOn (resources : list State) (res : State) : list State :=
  dependingOnFrom resources {[URN_ res]}.

(** The live resources of a snapshot by URN, those pending deletion left out. *)
Definition oldsOf (resources : list State) : gmap string State :=
  foldr (λ s m, if Delete s then m else <[URN_ s := s]> m) ∅ resources.

(** A stack of storage buckets, each with one input property. *)
Definition bucketType : string := "aws:s3/bucket:Bucket".

Definition urnOf (name : string) : URN :=
  NewURN exampleTokens "dev" "shop" "" bucketType name.

Definition named (v : string) : PropertyMap := Some {[ "name" := PVString v ]}.

Definition bucket (name v : string) (deps : list URN) (pending : bool) : State :=
  NewState bucketType (urnOf name) true pending ("id-" +:+ name) (named v) (named v)
           "" false deps [].

Definition register (name v : string) (deps : list URN) : RegisterResourceEvent :=
  {| eventGoal := {| gType := bucketType; gName := name; gCustom := true;
                     gProperties := named v; gParent := ""; gProtect := false;
                     gDependencies := deps |} |}.

Definition replaceOnName (dbr : bool) : DiffResult :=
  {| Changes := DiffSome; ReplaceKeys := ["name"]; StableKeys := [];
     DeleteBeforeReplace := dbr |}.

(** A plan over a previous snapshot whose one provider accepts every input
    and answers every diff with a replacement forced by ["name"]. *)
Definition planOver (resources : list State) (dbr : bool) : Plan :=
  {| prev := Some resources; Olds := oldsOf resources; preview := false; IsRefresh := false;
     analyzers := []; depGraph := Some (dependingOn resources);
     targetName := "dev"; sourceProject := "shop";
     planProvider := λ _ _, inr (Some (pluginProvider 0));
     providerCheck := λ _ _ _ _ news _, inr (news, []);
     providerDiff := λ _ _ _ _ _ _ _, inr (replaceOnName dbr);
     hostAnalyzer := λ _ _, inr None;
     analyzerAnalyze := λ _ _ _ _, inr [] |}.

(** Buckets [a] and [b], and a bucket [c] that depends on both. *)
Definition snapshotABC : list State :=
  [bucket "a" "old" [] false; bucket "b" "old" [] false;
   bucket "c" "old" [urnOf "a"; urnOf "b"] false].

(** A live bucket [x], a live bucket [y], and a copy of [y] left pending
    deletion by an earlier replacement. *)
Definition snapshotXY : list State :=
  [bucket "x" "old" [] false; bucket "y" "old" [] false; bucket "y" "older" [] true].

(** The new state a registration of a bucket produces. *)
Definition newBucket (name v : string) (deps : list URN) : State :=
  NewState bucketType (urnOf name) true false "" (named v) None "" false deps [].

(** A plan over the one bucket [a] whose provider can check the bucket's
    inputs against old inputs only: without old inputs, it reports a
    failure. *)
Definition planNeedingOlds : Plan :=
  {| prev := Some [bucket "a" "old" [] false];
     Olds := oldsOf [bucket "a" "old" [] false];
     preview := false; IsRefresh := false;
     analyzers := []; depGraph := Some (dependingOn [bucket "a" "old" [] false]);
     targetName := "dev"; sourceProject := "shop";
     planProvider := λ _ _, inr (Some (pluginProvider 0));
     providerCheck := λ _ _ _ olds news _,
       match olds with
       | Some _ => inr (news, [])
       | None => inr (news, [{| Property := "name";
                                Reason := "a new bucket needs a name that is free" |}])
       end;
     providerDiff := λ _ _ _ _ _ _ _, inr (replaceOnName false);
     hostAnalyzer := λ _ _, inr None;
     analyzerAnalyze := λ _ _ _ _, inr [] |}.

(** A plan over the one bucket [a] whose provider answers a diff with a
    change indicator that is none of the three named values. *)
Definition planWithOddDiff : Plan :=
  {| prev := Some [bucket "a" "old" [] false];
     Olds := oldsOf [bucket "a" "old" [] false];
     preview := false; IsRefresh := false;
     analyzers := []; depGraph := None;
     targetName := "dev"; sourceProject := "shop";
     planProvider := λ _ _, inr (Some (pluginProvider 0));
     providerCheck := λ _ _ _ _ news _, inr (news, []);
     providerDiff := λ _ _ _ _ _ _ _, inr (DiffResultOf 7);
     hostAnalyzer := λ _ _, inr None;
     analyzerAnalyze := λ _ _ _ _, inr [] |}.

(** A tolerant reading of versions: an optional leading [v], then one to
    three numbers separated by dots, the missing ones being zero. *)
Definition digit (c : Ascii.ascii) : option N :=
  let n := N_of_ascii c in
  if ((48 <=? n) && (n <=? 57))%N then Some (n - 48)%N else None.

Fixpoint numberFrom (acc : N) (s : string) : option N :=
  match s with
  | EmptyString => Some acc
  | String c rest =>
      match digit c with
      | Some d => numberFrom (10 * acc + d)%N rest
      | None => None
      end
  end.

Definition number (s : string) : option N :=
  match s with EmptyString => None | _ => numberFrom 0%N s end.

Definition versionOf (major minor patch : N) : Version :=
  {| Major := major; Minor := minor; Patch := patch; Pre := []; Build := [] |}.

Definition tolerantParse (s : string) : Version * option error :=
  let s := match s with String "v" rest => rest | _ => s end in
  match map number (splitAt "."%char s) with
  | [Some major] => (versionOf major 0 0, None)
  | [Some major; Some minor] => (versionOf major minor 0, None)
  | [Some major; Some minor; Some patch] => (versionOf major minor patch, None)
  | _ => (versionOf 0 0 0, Some "No Major.Minor.Patch elements found")
  end.

(** A host that knows the one package [aws]: each launch gets a fresh
    handle, and the plugin insists on a region. *)
Definition awsInfo : PluginInfo :=
  {| infoName := "aws"; infoKind := "resource"; infoVersion := Some (versionOf 1 2 3) |}.

Definition exampleHost : Host :=
  {| hostProvider := λ log pkg version,
       if String.eqb pkg "aws" then inr (Some (length log))
       else inl ("no resource plugin '" +:+ pkg +:+ "' found in the workspace or on your $PATH");
     pluginConfigure := λ log h cfg,
       match cfg !! ("aws", "region") with
       | Some _ => None
       | None => Some "missing required configuration key 'aws:region'"
       end;
     pluginGetPluginInfo := λ log h, inr awsInfo;
     hostCloseProvider := λ log h, None |}.

Definition providerURN (pkg : Package) : URN :=
  NewURN exampleTokens "dev" "shop" "" ("pulumi:providers:" +:+ pkg) "default".

Definition loadRequest (u : URN) (props : gmap string PropertyValue) (allow : bool)
    : providerLoadRequest :=
  {| urn := u; properties := Some props; allowUnknowns := allow |}.




(** A component resource, which no provider manages: the front end [web],
    with one property. *)
Definition frontendType : string := "shop:web:Frontend".

Definition frontend (v : string) : State :=
  NewState frontendType (NewURN exampleTokens "dev" "shop" "" frontendType "web")
           false false "" (named v) None "" false [] [].

Definition registerFrontend (v : string) : RegisterResourceEvent :=
  {| eventGoal := {| gType := frontendType; gName := "web"; gCustom := false;
                     gProperties := named v; gParent := ""; gProtect := false;
                     gDependencies := [] |} |}.

Definition snapshotWeb : list State := [frontend "v1"; bucket "a" "old" [] false].

(** A plan over [snapshotWeb] with one analyzer, which finds nothing to
    report. *)
Definition planAnalysed : Plan :=
  {| prev := Some snapshotWeb; Olds := oldsOf snapshotWeb; preview := false; IsRefresh := false;
     analyzers := ["policy"]; depGraph := Some (dependingOn snapshotWeb);
     targetName := "dev"; sourceProject := "shop";
     planProvider := λ _ _, inr (Some (pluginProvider 0));
     providerCheck := λ _ _ _ _ news _, inr (news, []);
     providerDiff := λ _ _ _ _ _ _ _, inr (replaceOnName false);
     hostAnalyzer := λ _ _, inr (Some 0%nat);
     analyzerAnalyze := λ _ _ _ _, inr [] |}.

(** A plan over [snapshotABC] for whose buckets no provider is found. *)
Definition planWithoutProvider : Plan :=
  {| prev := Some snapshotABC; Olds := oldsOf snapshotABC; preview := false; IsRefresh := false;
     analyzers := []; depGraph := Some (dependingOn snapshotABC);
     targetName := "dev"; sourceProject := "shop";
     planProvider := λ _ _, inr None;
     providerCheck := λ _ _ _ _ news _, inr (news, []);
     providerDiff := λ _ _ _ _ _ _ _, inr (replaceOnName false);
     hostAnalyzer := λ _ _, inr None;
     analyzerAnalyze := λ _ _ _ _, inr [] |}.

(** ** Vocabulary of the properties *)

(** A relation to an earlier state that a computation keeps, however it
    ends. *)
Definition preserves {S A} (R : S → S → Prop) (m : M S A) : Prop :=
  ∀ s0 s, R s0 s → R s0 (m s).2.

Definition isDiffCall (c : PlanCall) : bool :=
  match c with CallDiff _ _ _ _ _ _ => true | _ => false end.

(** The generator's sets are as before, and the calls made since are not
    calls of [Diff]. *)
Definition quiet (w w' : Planner) : Prop :=
  sg w' = sg w ∧ ∃ made, calls w' = calls w ++ made ∧ Forall (λ c, isDiffCall c = false) made.

(** The URN set of the generator is as before. *)
Definition sameUrns (w w' : Planner) : Prop := urns (sg w') = urns (sg w).

(** The step [GenerateDeletes] has for an old resource, when it has one. *)
Definition deleteStepFor (res : State) : Step :=
  if Delete res then NewDeleteReplacementStep res true else NewDeleteStep res.

Definition markDeleted (g : stepGenerator) (resources : list State) : stepGenerator :=
  foldl (λ g res, setDeleted (URN_ res) g) g resources.

Definition unknownFailure (k : PropertyKey) : CheckFailure :=
  {| Property := k; Reason := "provider properties must not be unknown" |}.

(** The ["version"] property is absent, or a string the parser accepts. *)
Definition versionAccepted (ParseTolerant : string → Version * option error)
    (props : PropertyMap) : Prop :=
  match lookupProperty props "version" with
  | None => True
  | Some (PVString s) => (ParseTolerant s).2 = None
  | Some _ => False
  end.

Definition version123 : Version := versionOf 1 2 3.

Definition lookupRequest (u : URN) : providerLoadRequest :=
  {| urn := u; properties := None; allowUnknowns := false |}.

(** A load of [u] that succeeded: a request with configuration properties,
    answered with no validation failure and no error. *)
Definition loadSucceeded (u : URN) (req : providerLoadRequest) (resp : providerLoadResponse)
    : Prop :=
  urn req = u ∧ properties req ≠ None ∧ failures resp = [] ∧ err resp = None.

(** The diagnostic [issueCheckErrors] writes for one failure. *)
Definition checkDiagnostic (tok : Tokens) (new : State) (urn : URN) (failure : CheckFailure)
    : Diag :=
  if negb (String.eqb (Property failure) "") then
    ResourcePropertyInvalidValueError urn (Type_ new) (urnName tok urn) (Property failure)
      (default PVNull (lookupProperty (Inputs new) (Property failure))) (Reason failure)
  else ResourceInvalidError urn (Type_ new) (urnName tok urn) (Reason failure).

(** The planner after the diagnostics [ds] were written. *)
Definition report (ds : list Diag) (w : Planner) : Planner :=
  {| sg := sg w; sink := sink w ++ ds; calls := calls w |}.

(** The generator's sets are as before, no call of [Diff] was made, and the
    diagnostics written before are still there. *)
Definition reportsOnly (w w' : Planner) : Prop :=
  quiet w w' ∧ ∃ more, sink w' = sink w ++ more.

(** The calls made to the plan's collaborators since an earlier state all
    satisfy [P]. *)
Definition callsMade (P : PlanCall → Prop) (w w' : Planner) : Prop :=
  ∃ made, calls w' = calls w ++ made ∧ Forall P made.

Definition isAnalyzerCall (c : PlanCall) : bool :=
  match c with CallHostAnalyzer _ | CallAnalyze _ _ _ => true | _ => false end.

(** What the mode of the plan allows: [Check] outside a refresh only, and
    unknown values exactly in a preview that is not a refresh. *)
Definition followsMode (plan : Plan) (c : PlanCall) : Prop :=
  match c with
  | CallCheck _ _ _ _ allow => IsRefresh plan = false ∧ allow = preview plan
  | CallDiff _ _ _ _ _ allow => allow = (preview plan && negb (IsRefresh plan))
  | _ => True
  end.

(** No URN leaves creates, sames, updates or replaces. *)
Definition dispositionsGrow (w w' : Planner) : Prop :=
  creates (sg w) ⊆ creates (sg w') ∧ sames (sg w) ⊆ sames (sg w') ∧
  updates (sg w) ⊆ updates (sg w') ∧ replaces (sg w) ⊆ replaces (sg w').

(** The URN is under creates, sames, updates or replaces. *)
Definition recorded (u : URN) (g : stepGenerator) : Prop :=
  u ∈ creates g ∨ u ∈ sames g ∨ u ∈ updates g ∨ u ∈ replaces g.

(** The URN is under sames, updates or replaces. *)
Definition kept (u : URN) (g : stepGenerator) : Prop :=
  u ∈ sames g ∨ u ∈ updates g ∨ u ∈ replaces g.

(** The diagnostics sink is as before. *)
Definition sameSink (w w' : Planner) : Prop := sink w' = sink w.


Definition stringsFailure (k : PropertyKey) : CheckFailure :=
  {| Property := k; Reason := "provider property values must be strings" |}.

(** The failure that the entry [k], [v] of a configuration leaves, when it
    leaves one. *)
Definition rejected (allowUnknowns : bool) (k : PropertyKey) (v : PropertyValue)
    (f : CheckFailure) : Prop :=
  k ≠ "version" ∧
  ((IsComputed v = true ∧ allowUnknowns = false ∧ f = unknownFailure k) ∨
   (IsComputed v = false ∧ IsString v = false ∧ f = stringsFailure k)).

Definition isConfigureCall (c : HostCall) : bool :=
  match c with CallConfigure _ _ => true | _ => false end.

(** * Properties *)

(** ** Facts about the state and error monad *)
Section MonadFacts.
Context {S : Type}.

Lemma bind_Ok {A B} (m : M S A) (k : A → M S B) s a s' :
  m s = (Ok a, s') → bind m k s = k a s'.
Proof. intros H. unfold bind. by rewrite H. Qed.

Lemma bind_Ok_inv {A B} (m : M S A) (k : A → M S B) s b s2 :
  bind m k s = (Ok b, s2) → ∃ a s1, m s = (Ok a, s1) ∧ k a s1 = (Ok b, s2).
Proof.
  unfold bind. destruct (m s) as [[a|e|w] s1]; intros H; try discriminate.
  by exists a, s1.
Qed.

Context (R : S → S → Prop).

Lemma preserves_ret {A} (a : A) : preserves R (ret a).
Proof. by intros s0 s H. Qed.

Lemma preserves_fail {A} e : preserves R (fail (A:=A) e).
Proof. by intros s0 s H. Qed.

Lemma preserves_panic {A} e : preserves R (panic (A:=A) e).
Proof. by intros s0 s H. Qed.

Lemma preserves_gets {A} (f : S → A) : preserves R (gets f).
Proof. by intros s0 s H. Qed.

Lemma preserves_bind {A B} (m : M S A) (k : A → M S B) :
  preserves R m → (∀ a, preserves R (k a)) → preserves R (bind m k).
Proof.
  intros Hm Hk s0 s Hs. unfold bind. specialize (Hm s0 s Hs).
  destruct (m s) as [[a|e|w] s1]; simpl in *; try done.
  by apply Hk.
Qed.

Lemma preserves_when b (m : M S unit) : preserves R m → preserves R (when b m).
Proof. intros Hm. destruct b; [done | apply preserves_ret]. Qed.

Lemma preserves_Assert b : preserves R (contract_Assert b).
Proof. destruct b; [apply preserves_ret | apply preserves_panic]. Qed.

Lemma preserves_result {A} (m : M S A) s r s' :
  preserves R m → R s s → m s = (r, s') → R s s'.
Proof. intros Hm Hs E. specialize (Hm s s Hs). by rewrite E in Hm. Qed.
End MonadFacts.

Ltac preserving :=
  repeat first
    [ apply preserves_ret | apply preserves_fail | apply preserves_panic
    | apply preserves_gets | apply preserves_Assert | apply preserves_when
    | apply preserves_bind; [| intros ?]
    | match goal with
      | |- preserves _ (match ?x with _ => _ end) => destruct x
      end
    | assumption ].

(** ** What a registration leaves untouched *)

(** The first half of [GenerateSteps] writes diagnostics and calls the
    plan's collaborators, never [Diff]: it keeps every relation that these
    two effects keep. *)
Section Frame.
Variable tok : Tokens.
Variable plan : Plan.
Variable R : Planner → Planner → Prop.
Hypothesis R_Errorf : ∀ d, preserves R (Errorf d).
Hypothesis R_callPlan : ∀ A c (answer : list PlanCall → A),
  isDiffCall c = false → preserves R (callPlan c answer).

Lemma frame_issueCheckErrors new urn failures :
  preserves R (issueCheckErrors tok new urn failures).
Proof.
  unfold issueCheckErrors. destruct (length failures =? 0)%nat; [apply preserves_ret|].
  apply preserves_bind; [| intros; apply preserves_ret].
  induction failures as [|f fs IH]; simpl; [apply preserves_ret|].
  apply preserves_bind; [| by intros].
  unfold issueCheckError. destruct (negb _); apply R_Errorf.
Qed.

Lemma frame_Check p urn olds news allow :
  preserves R (Check_ plan p urn olds news allow).
Proof. unfold Check_. preserving. by apply R_callPlan. Qed.

Lemma frame_provider t : preserves R (provider_ tok plan t).
Proof. unfold provider_. preserving. by apply R_callPlan. Qed.

Lemma frame_runAnalyzers urn new props names invalid :
  preserves R (runAnalyzers plan urn new props names invalid).
Proof.
  revert invalid. induction names as [|a rest IH]; intros invalid; simpl; [apply preserves_ret|].
  apply preserves_bind; [by apply R_callPlan|].
  intros [e|[analyzer|]]; [apply preserves_fail | | apply preserves_fail].
  apply preserves_bind; [by apply R_callPlan|].
  intros [e|failures]; [apply preserves_fail|].
  apply preserves_bind; [| intros; apply IH].
  induction failures as [|f fs IHf]; simpl; [apply preserves_ret|].
  apply preserves_bind; [apply R_Errorf | by intros].
Qed.

Lemma frame_validate event : preserves R (validate tok plan event).
Proof.
  unfold validate.
  apply preserves_bind; [apply preserves_gets|]. intros invalid.
  apply preserves_bind; [apply preserves_when, R_Errorf|]. intros _.
  destruct (getResourcePropertyStates _ _ _) as [[[props inputs] outputs] new].
  apply preserves_bind.
  { destruct (gCustom _); [|apply preserves_ret].
    apply preserves_bind; [apply frame_provider | intros; apply preserves_ret]. }
  intros prov. apply preserves_bind; [apply preserves_gets|]. intros recreating.
  apply preserves_bind.
  { destruct prov as [p|]; [|apply preserves_ret].
    destruct (negb _); [|apply preserves_ret].
    apply preserves_bind.
    { destruct recreating; apply frame_Check. }
    intros [inputs' failures]. apply preserves_bind; [apply frame_issueCheckErrors|].
    intros; apply preserves_ret. }
  intros [[[invalid' props'] inputs'] new'].
  apply preserves_bind; [apply frame_runAnalyzers|].
  intros [|]; [apply preserves_fail | apply preserves_ret].
Qed.

Lemma frame_recomputeDefaults event urn l :
  preserves R (recomputeDefaults tok plan event urn l).
Proof.
  unfold recomputeDefaults. destruct (prov l) as [p|]; [|apply preserves_ret].
  destruct (negb _); [|apply preserves_ret].
  apply preserves_bind; [apply frame_Check|]. intros [i fs].
  apply preserves_bind; [apply frame_issueCheckErrors|].
  intros [|]; [apply preserves_fail | apply preserves_ret].
Qed.

(** With the calls of [Diff] and the updates of the generator's sets kept
    too, the relation is kept by [GenerateSteps] and [GenerateDeletes]. *)
Variable DeepEquals : PropertyMap → PropertyMap → bool.
Hypothesis R_Diff : ∀ A p urn id olds news allow (answer : list PlanCall → A),
  preserves R (callPlan (CallDiff p urn id olds news allow) answer).
Hypothesis R_setDeleted : ∀ u, preserves R (modify (onGenerator (setDeleted u))).
Hypothesis R_unsetDeleted : ∀ u, preserves R (modify (onGenerator (unsetDeleted u))).
Hypothesis R_setReplaced : ∀ u, preserves R (modify (onGenerator (setReplaced u))).
Hypothesis R_setUpdated : ∀ u, preserves R (modify (onGenerator (setUpdated u))).
Hypothesis R_setCreated : ∀ u, preserves R (modify (onGenerator (setCreated u))).
Hypothesis R_setSame : ∀ u, preserves R (modify (onGenerator (setSame u))).

Lemma frame_diff urn id oi oo ni no np prov refresh allow :
  preserves R (diff DeepEquals plan urn id oi oo ni no np prov refresh allow).
Proof.
  unfold diff. destruct (negb _); [apply preserves_ret|].
  destruct prov as [p|]; [|apply preserves_ret].
  apply preserves_bind; [apply R_Diff|].
  intros [e|d]; [apply preserves_fail|]. destruct (_ =? _)%Z; apply preserves_ret.
Qed.

Lemma frame_deleteDependents urn dependents :
  preserves R (deleteDependents urn dependents).
Proof.
  induction dependents as [|x rest IH]; simpl; [apply preserves_ret|].
  apply preserves_bind; [apply preserves_gets|]. intros [|]; [done|].
  apply preserves_bind; [apply R_setDeleted|]. intros _.
  apply preserves_bind; [done | intros; apply preserves_ret].
Qed.

Lemma frame_dispatch event l : preserves R (dispatch tok DeepEquals plan event l).
Proof.
  unfold dispatch. apply preserves_bind; [apply preserves_Assert|]. intros _.
  destruct (recreating l).
  { destruct (Olds plan !! _) as [old|]; [|apply preserves_panic].
    apply preserves_bind; [apply preserves_Assert|]. intros _.
    apply preserves_bind; [apply R_unsetDeleted|]. intros _.
    apply preserves_bind; [apply R_setReplaced | intros; apply preserves_ret]. }
  destruct (Olds plan !! _) as [old|].
  2: { apply preserves_bind; [apply R_setCreated | intros; apply preserves_ret]. }
  unfold updateOrReplace.
  apply preserves_bind; [apply preserves_Assert|]. intros _.
  apply preserves_bind; [apply frame_diff|]. intros d.
  destruct (negb _ && negb _); [apply preserves_fail|].
  destruct (_ =? _)%Z.
  2: { apply preserves_bind; [apply R_setSame | intros; apply preserves_ret]. }
  destruct (Replace d).
  2: { apply preserves_bind; [apply R_setUpdated | intros; apply preserves_ret]. }
  apply preserves_bind; [apply R_setReplaced|]. intros _.
  apply preserves_bind; [apply frame_recomputeDefaults|]. intros new'.
  destruct (DeleteBeforeReplace d); [|apply preserves_ret].
  apply preserves_bind; [apply preserves_Assert|]. intros _.
  apply preserves_bind; [apply frame_deleteDependents | intros; apply preserves_ret].
Qed.

Lemma frame_GenerateSteps event : preserves R (GenerateSteps tok DeepEquals plan event).
Proof.
  unfold GenerateSteps. apply preserves_bind; [apply frame_validate|].
  intros l. apply frame_dispatch.
Qed.

Lemma frame_GenerateDeletes : preserves R (GenerateDeletes plan).
Proof.
  unfold GenerateDeletes. destruct (prev plan) as [resources|]; [|apply preserves_ret].
  induction (reverse resources) as [|res rest IH]; simpl; [apply preserves_ret|].
  apply preserves_bind; [apply preserves_gets|]. intros g.
  destruct (Delete res).
  { apply preserves_bind; [apply R_setDeleted|]. intros _.
    apply preserves_bind; [done | intros; apply preserves_ret]. }
  destruct (_ && _); [|done].
  apply preserves_bind; [apply R_setDeleted|]. intros _.
  apply preserves_bind; [done | intros; apply preserves_ret].
Qed.
End Frame.

Lemma quiet_refl w : quiet w w.
Proof. split; [done|]. exists []. by rewrite app_nil_r. Qed.

Lemma quiet_Errorf d : preserves quiet (Errorf d).
Proof. by intros w0 w H. Qed.

Lemma quiet_callPlan A c (answer : list PlanCall → A) :
  isDiffCall c = false → preserves quiet (callPlan c answer).
Proof.
  intros Hc w0 w [E (made & C & F)]. split; [done|]. exists (made ++ [c]). simpl.
  rewrite C, <- app_assoc. split; [done|]. apply Forall_app. split; [done|]. by constructor.
Qed.

Lemma quiet_validate tok plan event : preserves quiet (validate tok plan event).
Proof. apply frame_validate; [apply quiet_Errorf | apply quiet_callPlan]. Qed.

Lemma quiet_recomputeDefaults tok plan event urn l :
  preserves quiet (recomputeDefaults tok plan event urn l).
Proof. apply frame_recomputeDefaults; [apply quiet_Errorf | apply quiet_callPlan]. Qed.

(** ** The URN set of the generator *)

(** No operation of the generator writes to its URN set: [sg.urns] is read
    at the entry of [GenerateSteps] and never assigned. *)
Lemma urns_never_written tok DeepEquals plan :
  (∀ event, preserves sameUrns (GenerateSteps tok DeepEquals plan event)) ∧
  preserves sameUrns (GenerateDeletes plan).
Proof.
  split; [intros event; apply frame_GenerateSteps | apply frame_GenerateDeletes].
  all: intros; intros w0 w Hw; exact Hw.
Qed.

(** X14: from a new generator on, whatever is registered, the URN set is empty:
    the test for a duplicate URN finds nothing. *)
Lemma urns_stay_empty tok DeepEquals plan events :
  urns (sg (foldl (λ w event, (GenerateSteps tok DeepEquals plan event w).2)
                  newPlanner events)) = ∅.
Proof.
  induction events as [|event events IH] using rev_ind; [done|].
  rewrite foldl_app. simpl.
  destruct (urns_never_written tok DeepEquals plan) as [H _].
  destruct (GenerateSteps tok DeepEquals plan event _) as [r w'] eqn:E. simpl.
  assert (sameUrns (foldl (λ w event, (GenerateSteps tok DeepEquals plan event w).2)
                          newPlanner events) w') as Hw.
  { eapply preserves_result; [apply H | done | exact E]. }
  unfold sameUrns in Hw. by rewrite Hw.
Qed.

(** C1 (evaluation at the failing input): bucket [c], unchanged, is
    registered twice in one plan over [snapshotABC].  The second registration
    resolves to the same URN as the first, and yet it is accepted like the
    first: it returns a Same step, no diagnostic is recorded, and the URN set
    of the generator is still empty. *)
Theorem duplicate_registration_is_accepted :
  let plan := planOver snapshotABC false in
  let event := register "c" "old" [urnOf "a"; urnOf "b"] in
  let old := bucket "c" "old" [urnOf "a"; urnOf "b"] false in
  let first := GenerateSteps exampleTokens structuralEquals plan event newPlanner in
  let second := GenerateSteps exampleTokens structuralEquals plan event first.2 in
  first.1 = Ok [NewSameStep event old (newBucket "c" "old" [urnOf "a"; urnOf "b"])] ∧
  second.1 = first.1 ∧
  sink second.2 = [] ∧
  urns (sg first.2) = ∅ ∧ urns (sg second.2) = ∅.
Proof. vm_compute. repeat split; reflexivity. Qed.

(** ** The diagnostics of a failed check *)

Lemma issueEach_spec tok new urn fs w :
  issueEach tok new urn fs w = (Ok tt, report (map (checkDiagnostic tok new urn) fs) w).
Proof.
  revert w. induction fs as [|f fs IH]; intros w; simpl.
  { unfold report. rewrite app_nil_r. by destruct w. }
  unfold bind at 1.
  assert (issueCheckError tok new urn f w = (Ok tt, report [checkDiagnostic tok new urn f] w)) as ->.
  { unfold issueCheckError, checkDiagnostic. by destruct (negb _). }
  rewrite IH. unfold report. simpl. by rewrite <- app_assoc.
Qed.

(** [issueCheckErrors] writes one diagnostic for each failure, in order, and
    tells whether there was one. *)
Lemma issueCheckErrors_spec tok new urn fs w :
  issueCheckErrors tok new urn fs w =
    (Ok (negb (length fs =? 0)%nat), report (map (checkDiagnostic tok new urn) fs) w).
Proof.
  unfold issueCheckErrors. destruct fs as [|f fs].
  { simpl. unfold report. rewrite app_nil_r. by destruct w. }
  change (length (f :: fs) =? 0)%nat with false. cbv iota.
  unfold bind. by rewrite issueEach_spec.
Qed.

(** ** The dispatch of a valid registration *)

Section Registration.
Variable tok : Tokens.
Variable DeepEquals : PropertyMap → PropertyMap → bool.
Variable plan : Plan.

(** What the first half of [GenerateSteps] establishes when it lets the
    registration through. *)
Lemma validate_Ok event w l w1 :
  validate tok plan event w = (Ok l, w1) →
  recreating l = bool_decide (generateURN tok plan event ∈ deletes (sg w)) ∧
  Type_ (new l) = gType (eventGoal event) ∧
  outputs l = (if IsRefresh plan then gProperties (eventGoal event) else None) ∧
  quiet w w1.
Proof.
  intros H.
  assert (Hq : quiet w w1).
  { eapply preserves_result; [apply quiet_validate | apply quiet_refl | exact H]. }
  revert H. unfold validate. intros H.
  apply bind_Ok_inv in H as (dup & w2 & Hdup & H). injection Hdup as _ <-.
  apply bind_Ok_inv in H as (u & w3 & Hw & H).
  assert (quiet w w3) as [Hw3 _].
  { eapply preserves_result; [| apply quiet_refl | exact Hw].
    apply preserves_when, quiet_Errorf. }
  unfold getResourcePropertyStates in H.
  set (io := if IsRefresh plan then _ else _) in H.
  assert (io.2 = if IsRefresh plan then gProperties (eventGoal event) else None) as Hio.
  { subst io. by destruct (IsRefresh plan). }
  destruct io as [inputs0 outputs0]. simpl in Hio.
  apply bind_Ok_inv in H as (p & w4 & Hp & H).
  assert (quiet w3 w4) as [Hw4 _].
  { eapply preserves_result; [| apply quiet_refl | exact Hp].
    destruct (gCustom _); [|apply preserves_ret].
    apply preserves_bind; [|intros; apply preserves_ret].
    unfold provider_. preserving. by apply quiet_callPlan. }
  apply bind_Ok_inv in H as (rc & w5 & Hrc & H). injection Hrc as <- <-.
  apply bind_Ok_inv in H as ([[[inv' props'] inputs'] new'] & w6 & Hc & H).
  apply bind_Ok_inv in H as (inv'' & w7 & Ha & H).
  destruct inv''; try discriminate. injection H as <- <-. simpl.
  split_and!; try done.
  - by rewrite Hw4, Hw3.
  - destruct p as [p|]; [|by injection Hc as _ _ _ <- _].
    destruct (negb (IsRefresh plan)); [|by injection Hc as _ _ _ <- _].
    apply bind_Ok_inv in Hc as ([i fs] & w8 & _ & Hc).
    apply bind_Ok_inv in Hc as (bad & w9 & _ & Hc).
    by injection Hc as _ _ _ <- _.
Qed.

Lemma validate_sg event w r w1 :
  validate tok plan event w = (r, w1) → sg w1 = sg w.
Proof.
  intros H.
  by eapply (preserves_result quiet); [apply quiet_validate | apply quiet_refl | exact H].
Qed.

Lemma GenerateSteps_valid event w l w1 :
  validate tok plan event w = (Ok l, w1) →
  GenerateSteps tok DeepEquals plan event w = dispatch tok DeepEquals plan event l w1.
Proof. intros H. unfold GenerateSteps. by apply bind_Ok. Qed.

(** The dispatch reaches Case 2 when the resource has an old state and its
    URN was not marked deleted. *)
Lemma dispatch_hasOld event l w old :
  recreating l = false →
  Olds plan !! generateURN tok plan event = Some old →
  Type_ old = Type_ (new l) →
  dispatch tok DeepEquals plan event l w =
  (let! d := diff DeepEquals plan (generateURN tok plan event) (ID_ old) (Inputs old) (Outputs old)
               (inputs l) (outputs l) (props l) (prov l) (IsRefresh plan)
               (preview plan && negb (IsRefresh plan)) in
   if negb (Changes d =? DiffNone)%Z && negb (Changes d =? DiffSome)%Z then
     fail ("unrecognized diff state for " +:+ generateURN tok plan event +:+ ": " +:+
           pretty (Changes d))
   else if (Changes d =? DiffSome)%Z then
     if Replace d then
       modify (onGenerator (setReplaced (generateURN tok plan event))) ;;!
       let! new := recomputeDefaults tok plan event (generateURN tok plan event) l in
       if DeleteBeforeReplace d then
         contract_Assert (bool_decide (is_Some (depGraph plan))) ;;!
         let! steps := deleteDependents (generateURN tok plan event)
                         (reverse (match depGraph plan with
                               | Some DependingOn => DependingOn old
                               | None => []
                               end)) in
         ret (steps ++ [NewDeleteReplacementStep old false;
                        NewReplaceStep old new (ReplaceKeys d) false;
                        NewCreateReplacementStep event old new (ReplaceKeys d) false])
       else
         ret [NewCreateReplacementStep event old new (ReplaceKeys d) true;
              NewReplaceStep old new (ReplaceKeys d) true]
     else
       modify (onGenerator (setUpdated (generateURN tok plan event))) ;;!
       ret [NewUpdateStep event old (new l) (StableKeys d)]
   else
     modify (onGenerator (setSame (generateURN tok plan event))) ;;!
     ret [NewSameStep event old (new l)]) w.
Proof.
  intros Hrc Hold Hty. unfold dispatch, updateOrReplace. rewrite Hrc, Hold. simpl.
  rewrite Hty, String.eqb_refl. reflexivity.
Qed.

(** ** The change indicator *)

(** [diff] never calls the provider when the legacy comparison finds no
    change. *)
Lemma diff_unchanged urn id oldInputs oldOutputs newInputs newOutputs newProps prov
    (refresh allowUnknowns : bool) w :
  (if refresh then DeepEquals oldOutputs newOutputs else DeepEquals oldInputs newInputs) = true →
  diff DeepEquals plan urn id oldInputs oldOutputs newInputs newOutputs newProps prov refresh
       allowUnknowns w = (Ok (DiffResultOf DiffNone), w).
Proof. intros H. unfold diff. by destruct refresh; rewrite H. Qed.

(** C4: the change indicator that [GenerateSteps] acts on is None or Some.
    Whatever [diff] returns is not Unknown, and an Unknown answer of the
    provider comes out of [diff] as Some; and when the result of [diff] for a
    registration with old state is neither None nor Some, [GenerateSteps]
    returns the error "unrecognized diff state" and no steps. *)
Theorem change_indicator_is_none_or_some :
  (∀ urn id oldInputs oldOutputs newInputs newOutputs newProps prov refresh allowUnknowns w d w',
     diff DeepEquals plan urn id oldInputs oldOutputs newInputs newOutputs newProps prov refresh
          allowUnknowns w = (Ok d, w') →
     Changes d ≠ DiffUnknown) ∧
  (∀ urn id oldInputs oldOutputs newInputs newOutputs newProps p (refresh allowUnknowns : bool)
     w d0,
     (if refresh then DeepEquals oldOutputs newOutputs else DeepEquals oldInputs newInputs)
       = false →
     providerDiff plan (calls w) p urn id oldOutputs newProps allowUnknowns = inr d0 →
     Changes d0 = DiffUnknown →
     (diff DeepEquals plan urn id oldInputs oldOutputs newInputs newOutputs newProps (Some p)
           refresh allowUnknowns w).1 = Ok (setChanges d0 DiffSome)) ∧
  (∀ event w l w1 old d w2,
     validate tok plan event w = (Ok l, w1) →
     generateURN tok plan event ∉ deletes (sg w) →
     Olds plan !! generateURN tok plan event = Some old →
     Type_ old = gType (eventGoal event) →
     diff DeepEquals plan (generateURN tok plan event) (ID_ old) (Inputs old) (Outputs old)
          (inputs l) (outputs l) (props l) (prov l) (IsRefresh plan)
          (preview plan && negb (IsRefresh plan)) w1 = (Ok d, w2) →
     Changes d ≠ DiffNone → Changes d ≠ DiffSome →
     GenerateSteps tok DeepEquals plan event w =
       (Err ("unrecognized diff state for " +:+ generateURN tok plan event +:+ ": " +:+
             pretty (Changes d)), w2)) ∧
  (∀ event w l w1 old d w2 steps w3,
     validate tok plan event w = (Ok l, w1) →
     generateURN tok plan event ∉ deletes (sg w) →
     Olds plan !! generateURN tok plan event = Some old →
     diff DeepEquals plan (generateURN tok plan event) (ID_ old) (Inputs old) (Outputs old)
          (inputs l) (outputs l) (props l) (prov l) (IsRefresh plan)
          (preview plan && negb (IsRefresh plan)) w1 = (Ok d, w2) →
     GenerateSteps tok DeepEquals plan event w = (Ok steps, w3) →
     Changes d = DiffNone ∨ Changes d = DiffSome).
Proof.
  split_and!.
  - intros u id oi oo ni no np pv refresh allow w d w' H. unfold diff in H.
    destruct (negb _); [by injection H as <- _|].
    destruct pv as [p|]; [|by injection H as <- _].
    apply bind_Ok_inv in H as ([e|d0] & w1 & _ & H); [discriminate|].
    destruct (Changes d0 =? DiffUnknown)%Z eqn:E; injection H as <- _; [done|].
    by apply Z.eqb_neq.
  - intros u id oi oo ni no np p refresh allow w d0 Hch Hp Hd0.
    unfold diff. destruct refresh; rewrite Hch; simpl.
    all: unfold bind, callPlan; rewrite Hp, Hd0; reflexivity.
  - intros event w l w1 old d w2 Hv Hdel Hold Hty Hd Hn Hs.
    destruct (validate_Ok _ _ _ _ Hv) as (Hrc & Hnew & _ & _).
    rewrite (GenerateSteps_valid _ _ _ _ Hv).
    rewrite (dispatch_hasOld event l w1 old); [| by rewrite Hrc, bool_decide_eq_false | done | congruence].
    rewrite (bind_Ok _ _ _ _ _ Hd).
    apply Z.eqb_neq in Hn, Hs. by rewrite Hn, Hs.
  - intros event w l w1 old d w2 steps w3 Hv Hdel Hold Hd Hg.
    destruct (validate_Ok _ _ _ _ Hv) as (Hrc & Hnew & _ & _).
    rewrite (GenerateSteps_valid _ _ _ _ Hv) in Hg.
    unfold dispatch in Hg. rewrite Hold in Hg.
    assert (recreating l = false) as Hrc' by (by rewrite Hrc, bool_decide_eq_false).
    rewrite Hrc' in Hg. simpl in Hg. unfold updateOrReplace in Hg.
    apply bind_Ok_inv in Hg as (u & w4 & Ha & Hg). injection Ha as _ <-.
    apply bind_Ok_inv in Hg as (u' & w4 & Ha & Hg).
    unfold contract_Assert in Ha.
    destruct (String.eqb _ _); [injection Ha as _ <- | discriminate].
    rewrite (bind_Ok _ _ _ _ _ Hd) in Hg.
    destruct (Changes d =? DiffNone)%Z eqn:E1; [left; by apply Z.eqb_eq|].
    destruct (Changes d =? DiffSome)%Z eqn:E2; [right; by apply Z.eqb_eq|].
    discriminate.
Qed.

(** ** Unchanged inputs *)

(** C8, amended: a valid non-refresh registration with old state whose URN
    was not marked deleted earlier in the plan and whose checked inputs are
    deeply equal to the previous inputs yields exactly one Same step, adds
    the URN to sames and changes no other set, and makes no call of [Diff]. *)
Theorem unchanged_inputs_yield_same event w l w1 old :
  IsRefresh plan = false →
  validate tok plan event w = (Ok l, w1) →
  generateURN tok plan event ∉ deletes (sg w) →
  Olds plan !! generateURN tok plan event = Some old →
  Type_ old = gType (eventGoal event) →
  DeepEquals (Inputs old) (inputs l) = true →
  ∃ w2, GenerateSteps tok DeepEquals plan event w = (Ok [NewSameStep event old (new l)], w2) ∧
        sg w2 = setSame (generateURN tok plan event) (sg w) ∧
        ∃ made, calls w2 = calls w ++ made ∧ Forall (λ c, isDiffCall c = false) made.
Proof.
  intros Href Hv Hdel Hold Hty Heq.
  destruct (validate_Ok _ _ _ _ Hv) as (Hrc & Hnew & _ & Hsg & Hcalls).
  exists (onGenerator (setSame (generateURN tok plan event)) w1).
  rewrite (GenerateSteps_valid _ _ _ _ Hv).
  rewrite (dispatch_hasOld event l w1 old); [| by rewrite Hrc, bool_decide_eq_false | done | congruence].
  erewrite bind_Ok; [| apply diff_unchanged; by rewrite Href].
  simpl. split_and!; [done | by rewrite Hsg | done].
Qed.

(** ** Replacement, created before the old resource is deleted *)

(** C9, amended: for a valid registration with old state whose URN was not
    marked deleted and whose diff requires replacement without
    delete-before-replace.  When the recomputation of the default values (the
    second [Check], made for a provider-backed non-refresh registration)
    reports no error and no failure, [GenerateSteps] returns exactly
    [CreateReplacement, Replace], adds the URN to replaces and changes no
    other set: nothing is marked deleted and no delete step is emitted.  When
    the recomputation ends in an error, [GenerateSteps] returns that error
    and no steps: the error of the second [Check] when it returns one, the
    validation error when it reports a failure. *)
Theorem replacement_creates_before_deleting event w l w1 old d w2 :
  validate tok plan event w = (Ok l, w1) →
  generateURN tok plan event ∉ deletes (sg w) →
  Olds plan !! generateURN tok plan event = Some old →
  Type_ old = gType (eventGoal event) →
  diff DeepEquals plan (generateURN tok plan event) (ID_ old) (Inputs old) (Outputs old)
       (inputs l) (outputs l) (props l) (prov l) (IsRefresh plan)
       (preview plan && negb (IsRefresh plan)) w1 = (Ok d, w2) →
  Changes d = DiffSome → Replace d = true → DeleteBeforeReplace d = false →
  (∀ new' w3,
     recomputeDefaults tok plan event (generateURN tok plan event) l
       (onGenerator (setReplaced (generateURN tok plan event)) w2) = (Ok new', w3) →
     GenerateSteps tok DeepEquals plan event w =
       (Ok [NewCreateReplacementStep event old new' (ReplaceKeys d) true;
            NewReplaceStep old new' (ReplaceKeys d) true], w3) ∧
     sg w3 = setReplaced (generateURN tok plan event) (sg w) ∧
     deletes (sg w3) = deletes (sg w)) ∧
  (∀ e w3,
     recomputeDefaults tok plan event (generateURN tok plan event) l
       (onGenerator (setReplaced (generateURN tok plan event)) w2) = (Err e, w3) →
     GenerateSteps tok DeepEquals plan event w = (Err e, w3)) ∧
  (∀ p e, prov l = Some p → IsRefresh plan = false →
     providerCheck plan (calls w2) p (generateURN tok plan event) None
                   (gProperties (eventGoal event)) (preview plan) = inl e →
     ∃ w3, GenerateSteps tok DeepEquals plan event w = (Err e, w3)) ∧
  (∀ p checked failures, prov l = Some p → IsRefresh plan = false →
     providerCheck plan (calls w2) p (generateURN tok plan event) None
                   (gProperties (eventGoal event)) (preview plan) = inr (checked, failures) →
     failures ≠ [] →
     ∃ w3, GenerateSteps tok DeepEquals plan event w = (Err validationErrors, w3)).
Proof.
  intros Hv Hdel Hold Hty Hd Hch Hrep Hdbr.
  destruct (validate_Ok _ _ _ _ Hv) as (Hrc & Hnew & _ & Hsg & _).
  assert (∀ r w3,
            recomputeDefaults tok plan event (generateURN tok plan event) l
              (onGenerator (setReplaced (generateURN tok plan event)) w2) = (r, w3) →
            GenerateSteps tok DeepEquals plan event w =
              match r with
              | Ok new' => (Ok [NewCreateReplacementStep event old new' (ReplaceKeys d) true;
                                NewReplaceStep old new' (ReplaceKeys d) true], w3)
              | Err e => (Err e, w3)
              | Panic why => (Panic why, w3)
              end) as Hsteps.
  { intros r w3 Hre.
    rewrite (GenerateSteps_valid _ _ _ _ Hv).
    rewrite (dispatch_hasOld event l w1 old);
      [| by rewrite Hrc, bool_decide_eq_false | done | congruence].
    rewrite (bind_Ok _ _ _ _ _ Hd). rewrite Hch, Hrep. simpl.
    unfold bind at 1. simpl. unfold bind at 1. rewrite Hre.
    destruct r; [by rewrite Hdbr | done | done]. }
  split_and!.
  - intros new' w3 Hre. rewrite (Hsteps _ _ Hre). split; [done|].
    cut (sg w3 = setReplaced (generateURN tok plan event) (sg w)).
    { intros ->. by split. }
    assert (sg w2 = sg w1) as Hw2.
    { eapply (preserves_result (λ a b, sg b = sg a)); [| done | exact Hd].
      apply frame_diff. by intros; intros w0 w' Hw'. }
    assert (quiet (onGenerator (setReplaced (generateURN tok plan event)) w2) w3) as [Hw3 _].
    { eapply preserves_result; [apply quiet_recomputeDefaults | apply quiet_refl | exact Hre]. }
    rewrite Hw3. simpl. by rewrite Hw2, Hsg.
  - intros e w3 Hre. by rewrite (Hsteps _ _ Hre).
  - intros p e Hp Href Hcheck. eexists. apply (Hsteps (Err e)).
    unfold recomputeDefaults. rewrite Hp, Href. simpl.
    unfold bind, Check_, bind, callPlan. simpl. rewrite andb_true_r, Hcheck. reflexivity.
  - intros p checked fs Hp Href Hcheck Hfs. eexists.
    apply (Hsteps (Err validationErrors)).
    unfold recomputeDefaults. rewrite Hp, Href. simpl.
    unfold bind at 1. unfold Check_, bind at 1, callPlan. simpl.
    rewrite andb_true_r, Hcheck. unfold ret at 1. cbv beta iota.
    unfold bind. rewrite issueCheckErrors_spec. destruct fs; [done|]. reflexivity.
Qed.
End Registration.

(** The provider of [planWithOddDiff] answers 7: the registration of the
    changed bucket [a] ends in the error "unrecognized diff state". *)
Lemma change_indicator_witness :
  ∃ d w2,
    GenerateSteps exampleTokens structuralEquals planWithOddDiff (register "a" "new" [])
                  newPlanner =
      (Err ("unrecognized diff state for " +:+
            generateURN exampleTokens planWithOddDiff (register "a" "new" []) +:+ ": " +:+
            pretty (Changes d)), w2) ∧
    pretty (Changes d) = "7".
Proof.
  eexists _, _. split.
  - eapply (proj1 (proj2 (proj2 (change_indicator_is_none_or_some
              exampleTokens structuralEquals planWithOddDiff)))).
    + vm_compute. reflexivity.
    + apply not_elem_of_empty.
    + vm_compute. reflexivity.
    + reflexivity.
    + vm_compute. reflexivity.
    + discriminate.
    + discriminate.
  - reflexivity.
Defined.

(** Bucket [a], registered with the inputs it had, is the same. *)
Lemma unchanged_inputs_yield_same_witness :
  ∃ l old w2,
    GenerateSteps exampleTokens structuralEquals (planOver snapshotABC false)
                  (register "a" "old" []) newPlanner =
      (Ok [NewSameStep (register "a" "old" []) old (new l)], w2) ∧
    sg w2 = setSame (generateURN exampleTokens (planOver snapshotABC false)
                                 (register "a" "old" [])) (sg newPlanner) ∧
    ∃ made, calls w2 = calls newPlanner ++ made ∧ Forall (λ c, isDiffCall c = false) made.
Proof.
  eexists _, _.
  eapply (unchanged_inputs_yield_same exampleTokens structuralEquals (planOver snapshotABC false)).
  - reflexivity.
  - vm_compute. reflexivity.
  - apply not_elem_of_empty.
  - vm_compute. reflexivity.
  - reflexivity.
  - vm_compute. reflexivity.
Defined.

(** C8 (counterexample): in a plan over [snapshotABC], bucket [a] is
    replaced, deleted before it is created again, which deletes its
    dependent [c].  Bucket [c] is then registered with the inputs it had: the
    plan is not a refresh, [c] has old state, and its checked inputs are
    deeply equal to the previous ones.  The registration yields a Replace
    and a CreateReplacement step, not a Same step, and the URN is recorded
    under replaces, not under sames. *)
Lemma unchanged_inputs_of_a_deleted_dependent :
  let plan := planOver snapshotABC true in
  let afterA :=
    (GenerateSteps exampleTokens structuralEquals plan (register "a" "new" []) newPlanner).2 in
  let event := register "c" "old" [urnOf "a"; urnOf "b"] in
  let old := bucket "c" "old" [urnOf "a"; urnOf "b"] false in
  let state := newBucket "c" "old" [urnOf "a"; urnOf "b"] in
  IsRefresh plan = false ∧
  Olds plan !! generateURN exampleTokens plan event = Some old ∧
  (validate exampleTokens plan event afterA).1 =
    Ok {| prov := Some (pluginProvider 0); recreating := true; props := named "old";
          inputs := named "old"; outputs := None; new := state |} ∧
  structuralEquals (Inputs old) (named "old") = true ∧
  (GenerateSteps exampleTokens structuralEquals plan event afterA).1 =
    Ok [NewReplaceStep old state [] false;
        NewCreateReplacementStep event old state [] false] ∧
  sames (sg (GenerateSteps exampleTokens structuralEquals plan event afterA).2) = ∅ ∧
  replaces (sg (GenerateSteps exampleTokens structuralEquals plan event afterA).2) =
    {[urnOf "c"]} ∪ ({[urnOf "a"]} ∪ ∅).
Proof. vm_compute. repeat split; reflexivity. Qed.

(** Bucket [a] of [snapshotABC], registered under a new name, is replaced:
    created before the old one is deleted.  In [planNeedingOlds], where the
    second [Check] reports a failure, the same registration is rejected. *)
Lemma replacement_creates_before_deleting_witness :
  (∃ old d new' w3,
     GenerateSteps exampleTokens structuralEquals (planOver snapshotABC false)
                   (register "a" "new" []) newPlanner =
       (Ok [NewCreateReplacementStep (register "a" "new" []) old new' (ReplaceKeys d) true;
            NewReplaceStep old new' (ReplaceKeys d) true], w3) ∧
     sg w3 = setReplaced (generateURN exampleTokens (planOver snapshotABC false)
                                      (register "a" "new" [])) (sg newPlanner) ∧
     deletes (sg w3) = deletes (sg newPlanner)) ∧
  (∃ w3, GenerateSteps exampleTokens structuralEquals planNeedingOlds (register "a" "new" [])
                       newPlanner = (Err validationErrors, w3)).
Proof.
  split.
  - eexists _, _, _, _.
    refine (proj1 (replacement_creates_before_deleting exampleTokens structuralEquals
                     (planOver snapshotABC false) (register "a" "new" []) newPlanner
                     _ _ _ _ _ _ _ _ _ _ _ _ _) _ _ _).
    + vm_compute. reflexivity.
    + apply not_elem_of_empty.
    + vm_compute. reflexivity.
    + reflexivity.
    + vm_compute. reflexivity.
    + reflexivity.
    + reflexivity.
    + reflexivity.
    + vm_compute. reflexivity.
  - refine (proj2 (proj2 (proj2
              (replacement_creates_before_deleting exampleTokens structuralEquals
                 planNeedingOlds (register "a" "new" []) newPlanner
                 _ _ _ _ _ _ _ _ _ _ _ _ _))) (pluginProvider 0) _ _ _ _ _ _).
    + vm_compute. reflexivity.
    + apply not_elem_of_empty.
    + vm_compute. reflexivity.
    + reflexivity.
    + vm_compute. reflexivity.
    + reflexivity.
    + reflexivity.
    + reflexivity.
    + reflexivity.
    + reflexivity.
    + vm_compute. reflexivity.
    + discriminate.
Defined.

(** C9 (counterexample): in [planNeedingOlds], bucket [a] is registered
    under a new name.  The registration has old state, its diff requires
    replacement and does not ask for delete-before-replace; the second
    [Check], made against no old inputs, reports a failure.  [GenerateSteps]
    returns the validation error and no steps, the URN being recorded under
    replaces already. *)
Lemma replacement_rejected_by_the_second_check :
  let plan := planNeedingOlds in
  let event := register "a" "new" [] in
  let old := bucket "a" "old" [] false in
  let checked := (validate exampleTokens plan event newPlanner) in
  Olds plan !! generateURN exampleTokens plan event = Some old ∧
  checked.1 = Ok {| prov := Some (pluginProvider 0); recreating := false;
                    props := named "new"; inputs := named "new"; outputs := None;
                    new := newBucket "a" "new" [] |} ∧
  (diff structuralEquals plan (urnOf "a") (ID_ old) (Inputs old) (Outputs old)
        (named "new") None (named "new") (Some (pluginProvider 0)) false false checked.2).1 =
    Ok (replaceOnName false) ∧
  Changes (replaceOnName false) = DiffSome ∧
  Replace (replaceOnName false) = true ∧
  DeleteBeforeReplace (replaceOnName false) = false ∧
  (GenerateSteps exampleTokens structuralEquals plan event newPlanner).1 =
    Err validationErrors ∧
  replaces (sg (GenerateSteps exampleTokens structuralEquals plan event newPlanner).2) =
    {[urnOf "a"]} ∪ ∅ ∧
  sink (GenerateSteps exampleTokens structuralEquals plan event newPlanner).2 =
    [ResourcePropertyInvalidValueError (urnOf "a") bucketType "a" "name" (PVString "new")
       "a new bucket needs a name that is free"].
Proof. vm_compute. repeat split; reflexivity. Qed.

(** ** The cascade of a delete-before-replace *)

(** The test that should skip a dependent already deleted reads the URN of
    the resource being replaced, which is not marked deleted at that point:
    every dependent gets its step, whatever was deleted before. *)
Lemma cascade_skips_nothing urn dependents w :
  urn ∉ deletes (sg w) → urn ∉ map URN_ dependents →
  deleteDependents urn dependents w =
    (Ok (map (λ res, NewDeleteReplacementStep res false) dependents),
     onGenerator (λ g, markDeleted g dependents) w).
Proof.
  revert w. induction dependents as [|res rest IH]; intros w Hw Hd; simpl.
  { destruct w; reflexivity. }
  apply not_elem_of_cons in Hd as [Hne Hd'].
  unfold bind at 1, gets. rewrite bool_decide_eq_false_2 by done.
  unfold bind at 1, modify. unfold bind at 1.
  rewrite IH; [destruct w; reflexivity | | done].
  simpl. apply not_elem_of_union. split; [by apply not_elem_of_singleton | done].
Qed.

(** X4: the steps of a replacement that deletes before it creates: the delete
    steps of all the dependents of the old resource, from the last to the
    first, then the delete step of the old resource, then Replace, then
    CreateReplacement.  No dependent is left out, whether or not its URN is
    marked deleted already. *)
Lemma delete_before_replace_steps tok DeepEquals plan event w l w1 old d w2 new' w3
    DependingOn :
  validate tok plan event w = (Ok l, w1) →
  generateURN tok plan event ∉ deletes (sg w) →
  Olds plan !! generateURN tok plan event = Some old →
  Type_ old = gType (eventGoal event) →
  diff DeepEquals plan (generateURN tok plan event) (ID_ old) (Inputs old) (Outputs old)
       (inputs l) (outputs l) (props l) (prov l) (IsRefresh plan)
       (preview plan && negb (IsRefresh plan)) w1 = (Ok d, w2) →
  Changes d = DiffSome → Replace d = true → DeleteBeforeReplace d = true →
  recomputeDefaults tok plan event (generateURN tok plan event) l
    (onGenerator (setReplaced (generateURN tok plan event)) w2) = (Ok new', w3) →
  depGraph plan = Some DependingOn →
  generateURN tok plan event ∉ map URN_ (DependingOn old) →
  GenerateSteps tok DeepEquals plan event w =
    (Ok (map (λ res, NewDeleteReplacementStep res false) (reverse (DependingOn old)) ++
         [NewDeleteReplacementStep old false;
          NewReplaceStep old new' (ReplaceKeys d) false;
          NewCreateReplacementStep event old new' (ReplaceKeys d) false]),
     onGenerator (λ g, markDeleted g (reverse (DependingOn old))) w3).
Proof.
  intros Hv Hdel Hold Hty Hd Hch Hrep Hdbr Hre Hgraph Hself.
  destruct (validate_Ok tok plan event w l w1 Hv) as (Hrc & Hnew & _ & Hsg & _).
  rewrite (GenerateSteps_valid tok DeepEquals plan event w l w1 Hv).
  rewrite (dispatch_hasOld tok DeepEquals plan event l w1 old);
    [| by rewrite Hrc, bool_decide_eq_false | done | congruence].
  rewrite (bind_Ok _ _ _ _ _ Hd). rewrite Hch, Hrep. simpl.
  unfold bind at 1. simpl.
  rewrite (bind_Ok _ _ _ _ _ Hre). rewrite Hdbr, Hgraph. simpl.
  unfold bind at 1. simpl.
  assert (sg w2 = sg w1) as Hw2.
  { eapply (preserves_result (λ a b, sg b = sg a)); [| done | exact Hd].
    apply frame_diff. by intros; intros w0 w' Hw'. }
  assert (quiet (onGenerator (setReplaced (generateURN tok plan event)) w2) w3) as [Hw3 _].
  { eapply preserves_result; [apply quiet_recomputeDefaults | apply quiet_refl | exact Hre]. }
  erewrite bind_Ok; [reflexivity|].
  apply cascade_skips_nothing.
  - rewrite Hw3. simpl. by rewrite Hw2, Hsg.
  - intros Hin. apply Hself.
    apply list_elem_of_fmap in Hin as (res & -> & Hin). rewrite elem_of_reverse in Hin.
    apply list_elem_of_In, in_map. by apply list_elem_of_In.
Qed.

(** ** The deletions at the end of the plan *)

Lemma deleteOlds_spec resources w :
  ∃ steps w',
    deleteOlds resources w = (Ok steps, w') ∧
    sublist steps (map deleteStepFor resources) ∧
    sames (sg w') = sames (sg w) ∧ updates (sg w') = updates (sg w) ∧
    replaces (sg w') = replaces (sg w) ∧
    ∀ res, NewDeleteStep res ∈ steps →
      Delete res = false ∧ (URN_ res ∉ sames (sg w)) ∧ (URN_ res ∉ updates (sg w)) ∧
      (URN_ res ∉ replaces (sg w)).
Proof.
  revert w. induction resources as [|res rest IH]; intros w; simpl.
  { exists [], w. split_and!; try done. intros res H. by apply elem_of_nil in H. }
  unfold bind at 1, gets. unfold deleteStepFor at 1. destruct (Delete res) eqn:Hdel.
  - destruct (IH (onGenerator (setDeleted (URN_ res)) w))
      as (steps & w' & E & Hsub & Hs & Hu & Hr & Hin).
    exists (NewDeleteReplacementStep res true :: steps), w'.
    unfold bind at 1, modify. unfold bind at 1. rewrite E. simpl.
    split_and!; [done | by constructor | done | done | done |].
    intros res' [H|H]%elem_of_cons; [discriminate | by apply Hin].
  - destruct (negb (bool_decide (URN_ res ∈ sames (sg w))) &&
              negb (bool_decide (URN_ res ∈ updates (sg w))) &&
              negb (bool_decide (URN_ res ∈ replaces (sg w))) &&
              negb (bool_decide (URN_ res ∈ deletes (sg w)))) eqn:Hc.
    + destruct (IH (onGenerator (setDeleted (URN_ res)) w))
        as (steps & w' & E & Hsub & Hs & Hu & Hr & Hin).
      exists (NewDeleteStep res :: steps), w'.
      unfold bind at 1, modify. unfold bind at 1. rewrite E. simpl.
      split_and!; [done | by constructor | done | done | done |].
      intros res' [H|H]%elem_of_cons; [| by apply Hin].
      injection H as ->.
      repeat (apply andb_true_iff in Hc as [Hc ?]).
      repeat match goal with
             | H : negb (bool_decide _) = true |- _ =>
                 apply negb_true_iff, bool_decide_eq_false in H
             end.
      done.
    + destruct (IH w) as (steps & w' & E & Hsub & Hs & Hu & Hr & Hin).
      exists steps, w'. split_and!; [done | by apply sublist_cons | done ..].
Qed.

(** X11: [GenerateDeletes] always returns; its steps follow the snapshot from the
    last resource to the first; and an ordinary Delete step is only ever
    given to a resource that is not pending deletion and whose URN is not
    under sames, updates or replaces. *)
Lemma GenerateDeletes_spec plan w :
  ∃ steps w',
    GenerateDeletes plan w = (Ok steps, w') ∧
    sublist steps (map deleteStepFor (reverse (default [] (prev plan)))) ∧
    ∀ res, NewDeleteStep res ∈ steps →
      Delete res = false ∧ (URN_ res ∉ sames (sg w)) ∧ (URN_ res ∉ updates (sg w)) ∧
      (URN_ res ∉ replaces (sg w)).
Proof.
  unfold GenerateDeletes. destruct (prev plan) as [resources|]; simpl.
  - destruct (deleteOlds_spec (reverse resources) w) as (steps & w' & E & Hsub & _ & _ & _ & Hin).
    by exists steps, w'.
  - exists [], w. split_and!; [done | done |]. intros res H. by apply elem_of_nil in H.
Qed.

(** The deletions leave sames, updates and replaces as they were and only
    add to deletes. *)
Lemma deleteOlds_sets resources w steps w' :
  deleteOlds resources w = (Ok steps, w') →
  sames (sg w') = sames (sg w) ∧ updates (sg w') = updates (sg w) ∧
  replaces (sg w') = replaces (sg w) ∧ deletes (sg w) ⊆ deletes (sg w').
Proof.
  revert w steps. induction resources as [|res rest IH]; intros w steps H; simpl in H.
  { by injection H as _ <-. }
  apply bind_Ok_inv in H as (g & w1 & Hg & H). injection Hg as <- <-.
  destruct (Delete res).
  - apply bind_Ok_inv in H as (u & w1 & Hm & H). injection Hm as _ <-.
    apply bind_Ok_inv in H as (dels & w2 & Hr & H). injection H as _ <-.
    destruct (IH _ _ Hr) as (Hs & Hu & Hp & Hd). simpl in *.
    split_and!; [done..|]. etrans; [|exact Hd]. apply union_subseteq_r.
  - destruct (_ && _).
    + apply bind_Ok_inv in H as (u & w1 & Hm & H). injection Hm as _ <-.
      apply bind_Ok_inv in H as (dels & w2 & Hr & H). injection H as _ <-.
      destruct (IH _ _ Hr) as (Hs & Hu & Hp & Hd). simpl in *.
      split_and!; [done..|]. etrans; [|exact Hd]. apply union_subseteq_r.
    + by apply IH in H.
Qed.

(** A URN already marked deleted gets no ordinary Delete step. *)
Lemma deleteOlds_marked resources w steps w' u :
  deleteOlds resources w = (Ok steps, w') →
  u ∈ deletes (sg w) →
  ∀ res, NewDeleteStep res ∈ steps → URN_ res ≠ u.
Proof.
  revert w steps w'.
  induction resources as [|r rest IH]; intros w steps w' H Hu res Hin; simpl in H.
  { injection H as <- _. by apply elem_of_nil in Hin. }
  apply bind_Ok_inv in H as (g & w1 & Hg & H). injection Hg as <- <-.
  destruct (Delete r).
  - apply bind_Ok_inv in H as (x & w1 & Hm & H). injection Hm as _ <-.
    apply bind_Ok_inv in H as (dels & w2 & Hr & H). injection H as <- _.
    apply elem_of_cons in Hin as [Hin|Hin]; [discriminate|].
    eapply IH; [exact Hr | | exact Hin]. simpl. apply elem_of_union. by right.
  - destruct (negb (bool_decide (URN_ r ∈ sames (sg w))) &&
              negb (bool_decide (URN_ r ∈ updates (sg w))) &&
              negb (bool_decide (URN_ r ∈ replaces (sg w))) &&
              negb (bool_decide (URN_ r ∈ deletes (sg w)))) eqn:Hc.
    + apply bind_Ok_inv in H as (x & w1 & Hm & H). injection Hm as _ <-.
      apply bind_Ok_inv in H as (dels & w2 & Hr & H). injection H as <- _.
      apply elem_of_cons in Hin as [Hin|Hin].
      * injection Hin as ->. apply andb_true_iff in Hc as [_ Hc].
        apply negb_true_iff, bool_decide_eq_false in Hc. by intros <-.
      * eapply IH; [exact Hr | | exact Hin]. simpl. apply elem_of_union. by right.
    + by eapply IH.
Qed.

(** A live resource whose URN is in none of the four sets, and is not the
    URN of a resource visited before it, gets exactly one Delete step. *)
Lemma deleteOlds_unseen before y after w steps w' :
  deleteOlds (before ++ y :: after) w = (Ok steps, w') →
  Forall (λ res, URN_ res ≠ URN_ y) before →
  Delete y = false →
  (URN_ y ∉ sames (sg w)) → (URN_ y ∉ updates (sg w)) → (URN_ y ∉ replaces (sg w)) →
  (URN_ y ∉ deletes (sg w)) →
  ∃ s1 s2, steps = s1 ++ NewDeleteStep y :: s2 ∧
           ∀ res, NewDeleteStep res ∈ s1 ++ s2 → URN_ res ≠ URN_ y.
Proof.
  revert w steps w'.
  induction before as [|r before IH]; intros w steps w' H Hb Hy Hs Hu Hp Hd; simpl in H.
  - apply bind_Ok_inv in H as (g & w1 & Hg & H). injection Hg as <- <-.
    rewrite Hy in H.
    rewrite !bool_decide_eq_false_2 in H by done. simpl in H.
    apply bind_Ok_inv in H as (x & w1 & Hm & H). injection Hm as _ <-.
    apply bind_Ok_inv in H as (dels & w2 & Hr & H). injection H as <- _.
    exists [], dels. split; [done|]. simpl.
    eapply deleteOlds_marked; [exact Hr|]. simpl. apply elem_of_union. left.
    by apply elem_of_singleton.
  - apply Forall_cons in Hb as [Hr Hb].
    apply bind_Ok_inv in H as (g & w1 & Hg & H). injection Hg as <- <-.
    destruct (Delete r).
    + apply bind_Ok_inv in H as (x & w1 & Hm & H). injection Hm as _ <-.
      apply bind_Ok_inv in H as (dels & w2 & Hrest & H). injection H as <- _.
      destruct (IH _ _ _ Hrest Hb Hy) as (s1 & s2 & -> & Hin); simpl; try done.
      { apply not_elem_of_union. split; [|done]. apply not_elem_of_singleton. congruence. }
      exists (NewDeleteReplacementStep r true :: s1), s2. split; [done|].
      intros res [E|Hres]%elem_of_cons; [discriminate | by apply Hin].
    + destruct (negb (bool_decide (URN_ r ∈ sames (sg w))) &&
                negb (bool_decide (URN_ r ∈ updates (sg w))) &&
                negb (bool_decide (URN_ r ∈ replaces (sg w))) &&
                negb (bool_decide (URN_ r ∈ deletes (sg w)))).
      * apply bind_Ok_inv in H as (x & w1 & Hm & H). injection Hm as _ <-.
        apply bind_Ok_inv in H as (dels & w2 & Hrest & H). injection H as <- _.
        destruct (IH _ _ _ Hrest Hb Hy) as (s1 & s2 & -> & Hin); simpl; try done.
        { apply not_elem_of_union. split; [|done]. apply not_elem_of_singleton. congruence. }
        exists (NewDeleteStep r :: s1), s2. split; [done|].
        intros res [E|Hres]%elem_of_cons; [by injection E as -> | by apply Hin].
      * by eapply IH.
Qed.

(** X12: for [GenerateDeletes], a live resource of the snapshot whose URN is in
    none of the four sets and is not the URN of a resource stored after it
    gets exactly one Delete step. *)
Lemma GenerateDeletes_unseen plan before y after w :
  prev plan = Some (before ++ y :: after) →
  Forall (λ res, URN_ res ≠ URN_ y) after →
  Delete y = false →
  (URN_ y ∉ sames (sg w)) → (URN_ y ∉ updates (sg w)) → (URN_ y ∉ replaces (sg w)) →
  (URN_ y ∉ deletes (sg w)) →
  ∃ s1 s2 w', GenerateDeletes plan w = (Ok (s1 ++ NewDeleteStep y :: s2), w') ∧
              ∀ res, NewDeleteStep res ∈ s1 ++ s2 → URN_ res ≠ URN_ y.
Proof.
  intros Hprev Hafter Hy Hs Hu Hp Hd. unfold GenerateDeletes. rewrite Hprev.
  rewrite reverse_app, reverse_cons, <- app_assoc. simpl.
  destruct (deleteOlds_spec (reverse after ++ y :: reverse before) w) as (steps & w' & E & _).
  destruct (deleteOlds_unseen _ _ _ _ _ _ E) as (s1 & s2 & -> & Hin); try done.
  { by apply Forall_reverse. }
  by exists s1, s2, w'.
Qed.

(** C2 (evaluation at the failing input): in a plan over [snapshotABC],
    where bucket [c] depends on [a] and on [b], both [a] and [b] are
    replaced, deleted before they are created again.  Each registration
    returns the delete step of the dependent [c] before the delete step of
    the replaced bucket, then Replace, then CreateReplacement; and [c],
    marked deleted by the first cascade, gets a second delete step from the
    second. *)
Theorem dependent_is_deleted_by_both_cascades :
  let plan := planOver snapshotABC true in
  let a := bucket "a" "old" [] false in
  let b := bucket "b" "old" [] false in
  let c := bucket "c" "old" [urnOf "a"; urnOf "b"] false in
  let first := GenerateSteps exampleTokens structuralEquals plan (register "a" "new" [])
                             newPlanner in
  let second := GenerateSteps exampleTokens structuralEquals plan (register "b" "new" [])
                              first.2 in
  depGraph plan = Some (dependingOn snapshotABC) ∧
  dependingOn snapshotABC a = [c] ∧ dependingOn snapshotABC b = [c] ∧
  first.1 = Ok [NewDeleteReplacementStep c false;
                NewDeleteReplacementStep a false;
                NewReplaceStep a (newBucket "a" "new" []) ["name"] false;
                NewCreateReplacementStep (register "a" "new" []) a (newBucket "a" "new" [])
                                         ["name"] false] ∧
  deletes (sg first.2) = {[urnOf "c"]} ∪ ∅ ∧
  second.1 = Ok [NewDeleteReplacementStep c false;
                 NewDeleteReplacementStep b false;
                 NewReplaceStep b (newBucket "b" "new" []) ["name"] false;
                 NewCreateReplacementStep (register "b" "new" []) b (newBucket "b" "new" [])
                                          ["name"] false].
Proof. vm_compute. repeat split; reflexivity. Qed.

(** C5 (evaluation at the failing input): the snapshot [snapshotXY] holds
    the live bucket [x], the live bucket [y] and a copy of [y] pending
    deletion.  Only [x] is registered again, and it is the same.  [y] is
    live, not registered and in none of the generator's sets, and yet
    [GenerateDeletes] emits no Delete step for it: its only step deletes the
    pending copy. *)
Theorem live_resource_behind_a_pending_copy_is_kept :
  let plan := planOver snapshotXY false in
  let x := bucket "x" "old" [] false in
  let y := bucket "y" "old" [] false in
  let registered := GenerateSteps exampleTokens structuralEquals plan (register "x" "old" [])
                                  newPlanner in
  prev plan = Some [x; y; bucket "y" "older" [] true] ∧
  registered.1 = Ok [NewSameStep (register "x" "old" []) x (newBucket "x" "old" [])] ∧
  sames (sg registered.2) = {[urnOf "x"]} ∪ ∅ ∧
  updates (sg registered.2) = ∅ ∧ replaces (sg registered.2) = ∅ ∧
  deletes (sg registered.2) = ∅ ∧
  Delete y = false ∧
  (GenerateDeletes plan registered.2).1 =
    Ok [NewDeleteReplacementStep (bucket "y" "older" [] true) true].
Proof. vm_compute. repeat split; reflexivity. Qed.

(** ** Validation of a provider configuration *)

Lemma elem_of_rangeProperties (props : PropertyMap) k v :
  (k, v) ∈ rangeProperties props ↔ lookupProperty props k = Some v.
Proof.
  destruct props as [m|]; simpl; [apply elem_of_map_to_list|].
  split; [by intros ?%elem_of_nil | done].
Qed.

Section Conversion.
Variable tok : Tokens.
Variable urn : string.
Variable allowUnknowns : bool.

Local Abbreviation step := (convertProperty tok urn allowUnknowns).
Local Abbreviation failuresOf acc := (acc.1.1).
Local Abbreviation useShimOf acc := (acc.1.2).

(** One entry adds at most one failure, never on ["version"], and never
    resets [useShim]. *)
Lemma convertProperty_step acc kv :
  (∃ added, failuresOf (step acc kv) = failuresOf acc ++ added ∧
            Forall (λ f, Property f ≠ "version") added) ∧
  (useShimOf acc = true → useShimOf (step acc kv) = true).
Proof.
  destruct acc as [[fs shim] cfg], kv as [k v]. unfold convertProperty.
  destruct (String.eqb k "version") eqn:Ek.
  { split; [exists []; by rewrite app_nil_r | done]. }
  apply String.eqb_neq in Ek.
  destruct (IsComputed v).
  { destruct (negb allowUnknowns); simpl; (split; [|done]).
    - eexists; split; [done|]. by constructor.
    - exists []. by rewrite app_nil_r. }
  destruct (IsString v); simpl; (split; [|done]).
  - exists []. by rewrite app_nil_r.
  - eexists; split; [done|]. by constructor.
Qed.

Lemma convert_failures l acc :
  ∃ added, failuresOf (fold_left step l acc) = failuresOf acc ++ added ∧
           Forall (λ f, Property f ≠ "version") added.
Proof.
  revert acc. induction l as [|kv l IH]; intros acc; simpl.
  { exists []. by rewrite app_nil_r. }
  destruct (IH (step acc kv)) as (a2 & E2 & F2).
  destruct (convertProperty_step acc kv) as [(a1 & E1 & F1) _].
  exists (a1 ++ a2). rewrite E2, E1, <- app_assoc. split; [done|]. by apply Forall_app.
Qed.

Lemma convert_useShim l acc :
  useShimOf acc = true → useShimOf (fold_left step l acc) = true.
Proof.
  revert acc. induction l as [|kv l IH]; intros acc H; simpl; [done|].
  apply IH. by apply convertProperty_step.
Qed.

(** With unknowns disallowed, an unknown value leaves its failure. *)
Lemma convert_unknown_rejected l acc k v :
  allowUnknowns = false → (k, v) ∈ l → k ≠ "version" → IsComputed v = true →
  unknownFailure k ∈ failuresOf (fold_left step l acc).
Proof.
  intros Ha Hin Hk Hv. revert acc. induction l as [|kv l IH]; intros acc; simpl.
  { by apply elem_of_nil in Hin. }
  apply elem_of_cons in Hin as [<- | Hin]; [|by apply IH].
  destruct (convert_failures l (step acc (k, v))) as (added & -> & _).
  apply elem_of_app. left.
  destruct acc as [[fs shim] cfg]. unfold convertProperty.
  apply String.eqb_neq in Hk. rewrite Hk, Hv, Ha. simpl.
  apply elem_of_app. right. by apply list_elem_of_singleton.
Qed.

(** With unknowns allowed, an unknown value asks for the shim. *)
Lemma convert_unknown_shim l acc k v :
  allowUnknowns = true → (k, v) ∈ l → k ≠ "version" → IsComputed v = true →
  useShimOf (fold_left step l acc) = true.
Proof.
  intros Ha Hin Hk Hv. revert acc. induction l as [|kv l IH]; intros acc; simpl.
  { by apply elem_of_nil in Hin. }
  apply elem_of_cons in Hin as [<- | Hin]; [|by apply IH].
  apply convert_useShim.
  destruct acc as [[fs shim] cfg]. unfold convertProperty.
  apply String.eqb_neq in Hk. by rewrite Hk, Hv, Ha.
Qed.

(** Entries that are unknown or strings add no failure when unknowns are
    allowed. *)
Lemma convert_accepted l acc :
  allowUnknowns = true →
  (∀ k v, (k, v) ∈ l → k ≠ "version" → IsComputed v = true ∨ IsString v = true) →
  failuresOf (fold_left step l acc) = failuresOf acc.
Proof.
  intros Ha. revert acc. induction l as [|[k v] l IH]; intros acc Hl; simpl; [done|].
  rewrite IH; [| intros k' v' Hin; apply Hl; by right].
  destruct acc as [[fs shim] cfg]. unfold convertProperty.
  destruct (String.eqb k "version") eqn:Ek; [done|]. apply String.eqb_neq in Ek.
  destruct (Hl k v) as [Hv|Hv]; [by left | done | |].
  - by rewrite Hv, Ha.
  - destruct (IsComputed v); [by rewrite Ha|]. by rewrite Hv.
Qed.
End Conversion.

Section LoadingFacts.
Variable tok : Tokens.
Variable ParseTolerant : string → Version * option error.
Variable host : Host.

Local Abbreviation converted urn props allow :=
  (fold_left (convertProperty tok urn allow) (rangeProperties props)
             ((extractVersion ParseTolerant props).1, false, ∅)).

Lemma extractVersion_accepted props :
  versionAccepted ParseTolerant props → (extractVersion ParseTolerant props).1 = [].
Proof.
  unfold versionAccepted, extractVersion.
  destruct (lookupProperty props "version") as [[]|]; try done.
  simpl. destruct (ParseTolerant s) as [sv [e|]]; simpl; [discriminate|done].
Qed.

(** [loadProvider] in terms of the result of the conversion loop. *)
Lemma loadProvider_unfold urn props allow :
  loadProvider tok ParseTolerant host urn props allow =
  if negb (length (converted urn props allow).1.1 =? 0)%nat
  then ret (None, (converted urn props allow).1.1, None)
  else
    let version := (extractVersion ParseTolerant props).2 in
    let cfg := (converted urn props allow).2 in
    let pkg := typeName tok (urnType tok urn) in
    if negb (converted urn props allow).1.2 then
      let! r := attempt (loadProviderRaw host pkg version cfg) in
      match r with
      | inl err => ret (None, [], Some err)
      | inr provider => ret (Some provider, [], None)
      end
    else
      let! r := callHost (CallProvider pkg version) (λ log, hostProvider host log pkg version) in
      match r with
      | inl err => ret (None, [], Some err)
      | inr provider =>
          let close := callHost (CallCloseProvider provider)
                         (λ log, hostCloseProvider host log provider) in
          match provider with
          | None => close ;;! panic nilDereference
          | Some h =>
              let! i := callHost (CallGetPluginInfo h) (λ log, pluginGetPluginInfo host log h) in
              match i with
              | inl err => close ;;! ret (None, [], Some err)
              | inr info => close ;;! ret (Some (shimProvider pkg info), [], None)
              end
          end
      end.
Proof.
  unfold loadProvider. destruct (extractVersion ParseTolerant props) as [fs0 version]. simpl.
  by destruct (fold_left _ _ _) as [[fs shim] cfg].
Qed.

(** Validation failures stop the load: they are returned with no provider
    and no hard error, and the host is not called. *)
Lemma loadProvider_rejects urn props allow log :
  (converted urn props allow).1.1 ≠ [] →
  loadProvider tok ParseTolerant host urn props allow log =
    (Ok (None, (converted urn props allow).1.1, None), log).
Proof.
  intros H. rewrite loadProvider_unfold.
  destruct ((converted urn props allow).1.1) as [|f fs]; [done|]. reflexivity.
Qed.

Lemma version_failure_rejects urn props allow log f :
  (extractVersion ParseTolerant props).1 = [f] →
  ∃ fs, loadProvider tok ParseTolerant host urn props allow log = (Ok (None, fs, None), log) ∧
        f ∈ fs.
Proof.
  intros Hv. eexists. split.
  - apply loadProvider_rejects.
    destruct (convert_failures tok urn allow (rangeProperties props)
                ((extractVersion ParseTolerant props).1, false, ∅)) as (added & -> & _).
    simpl. by rewrite Hv.
  - destruct (convert_failures tok urn allow (rangeProperties props)
                ((extractVersion ParseTolerant props).1, false, ∅)) as (added & -> & _).
    simpl. rewrite Hv. by left.
Qed.

(** Every load starts by asking the host for the package in the requested
    version, once the configuration is accepted. *)
Lemma loadProvider_asks_host urn props allow log r log' :
  (converted urn props allow).1.1 = [] →
  loadProvider tok ParseTolerant host urn props allow log = (r, log') →
  ∃ rest, log' = log ++ CallProvider (typeName tok (urnType tok urn))
                                     (extractVersion ParseTolerant props).2 :: rest.
Proof.
  intros Hfs. rewrite loadProvider_unfold, Hfs.
  change (negb (length (@nil CheckFailure) =? 0)%nat) with false. cbv iota zeta.
  destruct (negb (converted urn props allow).1.2).
  - unfold bind, attempt, loadProviderRaw, bind, callHost. cbv beta.
    destruct (hostProvider host log _ _) as [e|[h|]]; simpl.
    + intros [= <- <-]. by eexists.
    + destruct (pluginConfigure _ _ _ _); simpl; intros [= <- <-]; rewrite <- ?app_assoc; by eexists.
    + intros [= <- <-]. by eexists.
  - unfold bind, callHost. cbv beta.
    destruct (hostProvider host log _ _) as [e|[h|]]; simpl.
    + intros [= <- <-]. by eexists.
    + destruct (pluginGetPluginInfo _ _ _); simpl; intros [= <- <-]; rewrite <- ?app_assoc; by eexists.
    + intros [= <- <-]. rewrite <- ?app_assoc; by eexists.
Qed.

(** A load that reports success hands out a provider. *)
Lemma loadProvider_success urn props allow log p log' :
  loadProvider tok ParseTolerant host urn props allow log = (Ok (p, [], None), log') →
  is_Some p.
Proof.
  rewrite loadProvider_unfold. destruct (negb (_ =? _)%nat) eqn:E.
  { intros [= <- Hfs]. by destruct ((converted urn props allow).1.1). }
  cbv zeta. destruct (negb (converted urn props allow).1.2).
  - intros H. apply bind_Ok_inv in H as ([e|q] & s1 & _ & H); injection H as <-; done.
  - intros H. apply bind_Ok_inv in H as ([e|[h|]] & s1 & _ & H); [by injection H | |].
    + apply bind_Ok_inv in H as ([e|i] & s2 & _ & H);
        apply bind_Ok_inv in H as (c & s3 & _ & H); injection H as <-; done.
    + apply bind_Ok_inv in H as (c & s3 & _ & H). discriminate.
Qed.
End LoadingFacts.

Section LoadingClaims.
Variable tok : Tokens.
Variable ParseTolerant : string → Version * option error.
Variable host : Host.

Local Abbreviation converted urn props allow :=
  (fold_left (convertProperty tok urn allow) (rangeProperties props)
             ((extractVersion ParseTolerant props).1, false, ∅)).

(** The failures a load returns are those the validation collected. *)
Lemma loadProvider_failures urn props allow log p fs e log' :
  loadProvider tok ParseTolerant host urn props allow log = (Ok (p, fs, e), log') →
  fs = (converted urn props allow).1.1.
Proof.
  rewrite loadProvider_unfold. destruct (negb (_ =? _)%nat) eqn:E.
  { by intros [= _ <- _ _]. }
  assert ((converted urn props allow).1.1 = []) as ->.
  { by destruct ((converted urn props allow).1.1). }
  cbv zeta. destruct (negb (converted urn props allow).1.2).
  - intros H. apply bind_Ok_inv in H as ([e'|q] & s1 & _ & H); by injection H as _ <- _ _.
  - intros H. apply bind_Ok_inv in H as ([e'|[h|]] & s1 & _ & H); [by injection H as _ <- _ _ | |].
    + apply bind_Ok_inv in H as ([e'|i] & s2 & _ & H);
        apply bind_Ok_inv in H as (c & s3 & _ & H); by injection H as _ <- _ _.
    + apply bind_Ok_inv in H as (c & s3 & _ & H). discriminate.
Qed.

(** C7: the ["version"] property.  The string "1.2.3", which the tolerant
    parser reads as version 1.2.3, is accepted: no failure names
    ["version"], and a load that goes on asks the host for version 1.2.3.  A
    value that is not a string, and a string that the parser refuses, each
    leave their failure, and the load returns the failures with no provider
    and no hard error, the host not having been called. *)
Theorem version_property_is_validated urn props allow log :
  (lookupProperty props "version" = Some (PVString "1.2.3") →
   ParseTolerant "1.2.3" = (version123, None) →
   extractVersion ParseTolerant props = ([], Some version123) ∧
   ∀ p fs e log',
     loadProvider tok ParseTolerant host urn props allow log = (Ok (p, fs, e), log') →
     Forall (λ f, Property f ≠ "version") fs ∧
     (fs = [] →
      ∃ rest, log' = log ++ CallProvider (typeName tok (urnType tok urn)) (Some version123)
                            :: rest)) ∧
  (∀ v, lookupProperty props "version" = Some v → IsString v = false →
     ∃ fs, loadProvider tok ParseTolerant host urn props allow log = (Ok (None, fs, None), log) ∧
           {| Property := "version"; Reason := "'version' must be a string" |} ∈ fs) ∧
  (∀ s sv e, lookupProperty props "version" = Some (PVString s) →
     ParseTolerant s = (sv, Some e) →
     ∃ fs, loadProvider tok ParseTolerant host urn props allow log = (Ok (None, fs, None), log) ∧
           {| Property := "version";
              Reason := "could not parse provider version: " +:+ e |} ∈ fs).
Proof.
  split_and!.
  - intros Hv Hp.
    assert (extractVersion ParseTolerant props = ([], Some version123)) as Hx.
    { unfold extractVersion. rewrite Hv. simpl. by rewrite Hp. }
    split; [done|]. intros p fs e log' Hl.
    pose proof (loadProvider_failures _ _ _ _ _ _ _ _ Hl) as Hfs.
    destruct (convert_failures tok urn allow (rangeProperties props)
                ((extractVersion ParseTolerant props).1, false, ∅)) as (added & Ha & Hf).
    split.
    + rewrite Hfs, Ha, Hx. by simpl.
    + intros ->. eapply loadProvider_asks_host in Hl as [rest ->]; [| by symmetry].
      exists rest. by rewrite Hx.
  - intros v Hv Hs. apply version_failure_rejects.
    unfold extractVersion. by rewrite Hv, Hs.
  - intros s sv e Hv Hp. apply version_failure_rejects.
    unfold extractVersion. rewrite Hv. simpl. by rewrite Hp.
Qed.

(** C6, amended: a configuration with an unknown value under a key other
    than ["version"].  With unknowns disallowed the load returns, with no
    provider and no hard error, failures among which is "provider properties
    must not be unknown" for that key.  With unknowns allowed and no
    validation failure, if the host resolves the plugin and the plugin
    reports its information, the load returns a shim that carries the package
    and that information; [GetPluginInfo] of the shim returns exactly that
    information, and [Create], [Update] and [Delete] of the shim are fatal.
    If the host returns an error instead of the plugin, or the plugin an
    error instead of its information, the load returns that error and no
    provider, in the second case after closing the plugin. *)
Theorem unknown_configuration_value urn props k log :
  lookupProperty props k = Some PVComputed → k ≠ "version" →
  (∃ fs, loadProvider tok ParseTolerant host urn props false log = (Ok (None, fs, None), log) ∧
         unknownFailure k ∈ fs) ∧
  (versionAccepted ParseTolerant props →
   (∀ k' v, lookupProperty props k' = Some v → k' ≠ "version" →
            IsComputed v = true ∨ IsString v = true) →
   ∀ h info,
     let pkg := typeName tok (urnType tok urn) in
     let version := (extractVersion ParseTolerant props).2 in
     hostProvider host log pkg version = inr (Some h) →
     pluginGetPluginInfo host (log ++ [CallProvider pkg version]) h = inr info →
     loadProvider tok ParseTolerant host urn props true log =
       (Ok (Some (shimProvider pkg info), [], None),
        log ++ [CallProvider pkg version; CallGetPluginInfo h; CallCloseProvider (Some h)]) ∧
     (∀ (S : Type) (s : S),
        shimProvider_GetPluginInfo pkg info s = (Ok info, s) ∧
        (∀ u news, ∃ why, shimProvider_Create pkg info u news s = (Panic why, s)) ∧
        (∀ u id olds news, ∃ why,
           shimProvider_Update pkg info u id olds news s = (Panic why, s)) ∧
        (∀ u id olds, ∃ why, shimProvider_Delete pkg info u id olds s = (Panic why, s)))) ∧
  (versionAccepted ParseTolerant props →
   (∀ k' v, lookupProperty props k' = Some v → k' ≠ "version" →
            IsComputed v = true ∨ IsString v = true) →
   let pkg := typeName tok (urnType tok urn) in
   let version := (extractVersion ParseTolerant props).2 in
   (∀ e, hostProvider host log pkg version = inl e →
         loadProvider tok ParseTolerant host urn props true log =
           (Ok (None, [], Some e), log ++ [CallProvider pkg version])) ∧
   (∀ h e, hostProvider host log pkg version = inr (Some h) →
           pluginGetPluginInfo host (log ++ [CallProvider pkg version]) h = inl e →
           loadProvider tok ParseTolerant host urn props true log =
             (Ok (None, [], Some e),
              log ++ [CallProvider pkg version; CallGetPluginInfo h;
                      CallCloseProvider (Some h)]))).
Proof.
  intros Hk Hne. apply elem_of_rangeProperties in Hk.
  assert (versionAccepted ParseTolerant props →
          (∀ k' v, lookupProperty props k' = Some v → k' ≠ "version" →
                   IsComputed v = true ∨ IsString v = true) →
          loadProvider tok ParseTolerant host urn props true log =
          (let pkg := typeName tok (urnType tok urn) in
           let version := (extractVersion ParseTolerant props).2 in
           let! r := callHost (CallProvider pkg version)
                       (λ log, hostProvider host log pkg version) in
           match r with
           | inl err => ret (None, [], Some err)
           | inr provider =>
               let close := callHost (CallCloseProvider provider)
                              (λ log, hostCloseProvider host log provider) in
               match provider with
               | None => close ;;! panic nilDereference
               | Some h =>
                   let! i := callHost (CallGetPluginInfo h)
                               (λ log, pluginGetPluginInfo host log h) in
                   match i with
                   | inl err => close ;;! ret (None, [], Some err)
                   | inr info => close ;;! ret (Some (shimProvider pkg info), [], None)
                   end
               end
           end) log) as Hshim.
  { intros Hver Hall. rewrite loadProvider_unfold.
    rewrite (convert_accepted tok urn true); [| done |].
    2: { intros k' v Hin. apply Hall. by apply elem_of_rangeProperties. }
    simpl. rewrite (extractVersion_accepted _ _ Hver). simpl.
    rewrite (convert_unknown_shim tok urn true _ _ k PVComputed); [| done ..]. reflexivity. }
  split_and!.
  - eexists. split.
    + apply loadProvider_rejects. intros Hnil.
      eapply (convert_unknown_rejected tok urn false) in Hk; [| done | done | done].
      rewrite Hnil in Hk. by apply elem_of_nil in Hk.
    + by eapply convert_unknown_rejected.
  - intros Hver Hall h info pkg version Hh Hi.
    split; [| intros S s; split_and!; [done | by eexists ..]].
    rewrite (Hshim Hver Hall). simpl.
    unfold bind, callHost. fold pkg version. rewrite Hh, Hi. simpl.
    by rewrite <- !app_assoc.
  - intros Hver Hall pkg version. split.
    + intros e Hh. rewrite (Hshim Hver Hall). simpl.
      unfold bind, callHost. fold pkg version. by rewrite Hh.
    + intros h e Hh Hi. rewrite (Hshim Hver Hall). simpl.
      unfold bind, callHost. fold pkg version. rewrite Hh, Hi. simpl.
      by rewrite <- !app_assoc.
Qed.
End LoadingClaims.

(** ** The handle table *)

Section Serving.
Variable tok : Tokens.
Variable ParseTolerant : string → Version * option error.
Variable host : Host.

Local Abbreviation serveRequest' := (serveRequest tok ParseTolerant host).
Local Abbreviation serve' := (serve tok ParseTolerant host).

(** A lookup reads the table: it changes nothing and calls nobody. *)
Lemma serveRequest_lookup req s :
  properties req = None →
  serveRequest' req s =
    (Ok match providers s !! urn req with
        | None => {| provider := None; failures := []; err := Some ErrMissingProvider |}
        | Some record => {| provider := recProvider record; failures := []; err := None |}
        end, s).
Proof.
  intros H. unfold serveRequest, bind, gets. rewrite H.
  by destruct (providers s !! urn req).
Qed.

(** A load that is answered found no record for its URN; it stores a record
    exactly when it reports neither failures nor an error. *)
Lemma serveRequest_load req s resp s' :
  properties req ≠ None →
  serveRequest' req s = (Ok resp, s') →
  providers s !! urn req = None ∧
  ((failures resp = [] ∧ err resp = None ∧ is_Some (provider resp) ∧
    providers s' = <[urn req := {| recProperties := properties req;
                                   recProvider := provider resp |}]> (providers s)) ∨
   ((failures resp ≠ [] ∨ err resp ≠ None) ∧ providers s' = providers s)).
Proof.
  intros Hp H. unfold serveRequest in H.
  apply bind_Ok_inv in H as (found & s1 & Hf & H). injection Hf as <- <-.
  destruct (properties req) as [m|] eqn:Hm; [|done].
  apply bind_Ok_inv in H as (u & s1 & Ha & H).
  destruct (providers s !! urn req) as [r|] eqn:Hr.
  { rewrite bool_decide_eq_true_2 in Ha by eauto. discriminate. }
  rewrite bool_decide_eq_false_2 in Ha by (by intros [? ?]). injection Ha as _ <-.
  split; [done|].
  apply bind_Ok_inv in H as ([[p fs] e] & s2 & Hl & H).
  assert (providers s2 = providers s ∧ ((fs = [] ∧ e = None) → is_Some p)) as [Hs2 Hsome].
  { unfold withHost in Hl.
    destruct (loadProvider _ _ _ _ _ _ _) as [r log'] eqn:Hload.
    injection Hl as -> <-. split; [done|]. intros [-> ->].
    by eapply loadProvider_success. }
  apply bind_Ok_inv in H as (u' & s3 & Hw & H). injection H as <- <-. simpl.
  destruct ((length fs =? 0)%nat && bool_decide (e = None)) eqn:Eok;
    unfold when, modify, ret in Hw; injection Hw as _ <-.
  - apply andb_true_iff in Eok as [E1 E2].
    apply Nat.eqb_eq, length_zero_iff_nil in E1. apply bool_decide_eq_true in E2.
    left. split_and!; [done | done | by apply Hsome | by rewrite <- Hs2].
  - right. split; [|done]. apply andb_false_iff in Eok as [E1|E2].
    + left. apply Nat.eqb_neq in E1. intros ->. by apply E1.
    + right. by apply bool_decide_eq_false in E2.
Qed.

(** A record, once in the table, stays as it is. *)
Lemma serveRequest_keeps req s resp s' u r :
  serveRequest' req s = (Ok resp, s') →
  providers s !! u = Some r → providers s' !! u = Some r.
Proof.
  intros H Hu. destruct (properties req) as [m|] eqn:Hm.
  - apply serveRequest_load in H as [Hnone [(_ & _ & _ & ->) | [_ ->]]]; [| done | by rewrite Hm].
    rewrite lookup_insert_ne; [done|]. intros <-. by rewrite Hnone in Hu.
  - rewrite serveRequest_lookup in H by done. by injection H as _ <-.
Qed.

Lemma serve_keeps reqs s resps s' u r :
  serve' reqs s = (Ok resps, s') →
  providers s !! u = Some r → providers s' !! u = Some r.
Proof.
  revert s resps. induction reqs as [|req reqs IH]; intros s resps H Hu; simpl in H.
  { by injection H as _ <-. }
  apply bind_Ok_inv in H as (resp & s1 & H1 & H).
  apply bind_Ok_inv in H as (rest & s2 & H2 & H). injection H as _ <-.
  eapply IH; [exact H2|]. by eapply serveRequest_keeps.
Qed.

(** A URN stays out of the table as long as no load of it succeeds. *)
Lemma serve_absent reqs s resps s' u :
  serve' reqs s = (Ok resps, s') →
  Forall2 (λ req resp, ¬ loadSucceeded u req resp) reqs resps →
  providers s !! u = None → providers s' !! u = None.
Proof.
  revert s resps. induction reqs as [|req reqs IH]; intros s resps H HF Hu; simpl in H.
  { by injection H as _ <-. }
  apply bind_Ok_inv in H as (resp & s1 & H1 & H).
  apply bind_Ok_inv in H as (rest & s2 & H2 & H). injection H as <- <-.
  apply Forall2_cons in HF as [Hreq HF].
  eapply IH; [exact H2 | exact HF |].
  destruct (properties req) as [m|] eqn:Hm.
  - apply serveRequest_load in H1 as [Hnone [(Hfs & He & _ & ->) | [_ ->]]];
      [| done | by rewrite Hm].
    rewrite lookup_insert_ne; [done|]. intros Hurn. apply Hreq.
    split_and!; [done | by rewrite Hm | done | done].
  - rewrite serveRequest_lookup in H1 by done. by injection H1 as _ <-.
Qed.

Lemma getProvider_lookup u s :
  metaProvider_getProvider tok ParseTolerant host u s =
    (Ok match providers s !! u with
        | None => (None, Some ErrMissingProvider)
        | Some record => (recProvider record, None)
        end, s).
Proof.
  unfold metaProvider_getProvider, metaProvider_loadProvider.
  unfold bind at 1 2. rewrite serveRequest_lookup by done. simpl.
  by destruct (providers s !! u).
Qed.

(** C3: once a load of [u] with configuration properties has succeeded,
    every later request for the provider of [u], at whatever point the
    serving task has reached, returns the handle that load returned and
    leaves the loader (its table and the calls its host received) as it
    was; and as long as no load of [u] has succeeded since the loader was
    created, the request fails with the error "provider not found". *)
Theorem lookup_returns_the_loaded_provider u :
  (∀ s props allow resp s1 later resps s2,
     serveRequest' {| urn := u; properties := Some props; allowUnknowns := allow |} s
       = (Ok resp, s1) →
     failures resp = [] → err resp = None →
     serve' later s1 = (Ok resps, s2) →
     is_Some (provider resp) ∧
     metaProvider_getProvider tok ParseTolerant host u s2 = (Ok (provider resp, None), s2) ∧
     serveRequest' (lookupRequest u) s2 =
       (Ok {| provider := provider resp; failures := []; err := None |}, s2)) ∧
  (∀ reqs resps s,
     serve' reqs newProviderLoader = (Ok resps, s) →
     Forall2 (λ req resp, ¬ loadSucceeded u req resp) reqs resps →
     metaProvider_getProvider tok ParseTolerant host u s = (Ok (None, Some "provider not found"), s) ∧
     serveRequest' (lookupRequest u) s =
       (Ok {| provider := None; failures := []; err := Some "provider not found" |}, s)).
Proof.
  split.
  - intros s props allow resp s1 later resps s2 Hload Hfs He Hlater.
    apply serveRequest_load in Hload as [_ [(_ & _ & Hsome & Hs1) | [[?|?] _]]]; try done.
    simpl in Hs1.
    assert (providers s2 !! u = Some {| recProperties := Some props;
                                         recProvider := provider resp |}) as Hrec.
    { eapply serve_keeps; [exact Hlater|]. rewrite Hs1. apply lookup_insert_eq. }
    split_and!; [done | |].
    + by rewrite getProvider_lookup, Hrec.
    + rewrite serveRequest_lookup by done. simpl. by rewrite Hrec.
  - intros reqs resps s Hserve Hnone.
    assert (providers s !! u = None) as Habs.
    { eapply serve_absent; [exact Hserve | exact Hnone | done]. }
    split.
    + by rewrite getProvider_lookup, Habs.
    + rewrite serveRequest_lookup by done. simpl. by rewrite Habs.
Qed.

(** C10: a load that is answered with validation failures or with an error
    leaves the handle table unchanged, and a request for the provider of its
    URN fails with "provider not found", when it is made next and also after
    any further requests among which no load of that URN succeeds. *)
Theorem failed_load_caches_nothing req s resp s' :
  properties req ≠ None →
  serveRequest' req s = (Ok resp, s') →
  failures resp ≠ [] ∨ err resp ≠ None →
  providers s' = providers s ∧
  metaProvider_getProvider tok ParseTolerant host (urn req) s' =
    (Ok (None, Some "provider not found"), s') ∧
  ∀ later resps s2,
    serve' later s' = (Ok resps, s2) →
    Forall2 (λ req' resp', ¬ loadSucceeded (urn req) req' resp') later resps →
    metaProvider_getProvider tok ParseTolerant host (urn req) s2 =
      (Ok (None, Some "provider not found"), s2).
Proof.
  intros Hp H Hfail.
  apply serveRequest_load in H as [Hnone [(Hfs & He & _) | [_ Hs']]]; [| | done].
  { destruct Hfail; done. }
  split; [done|]. split.
  - by rewrite getProvider_lookup, Hs', Hnone.
  - intros later resps s2 Hserve Hlater.
    rewrite getProvider_lookup.
    erewrite serve_absent; [done | exact Hserve | exact Hlater |].
    by rewrite Hs'.
Qed.
End Serving.

(** ** The loader at work on concrete requests *)

(** The entries of a configuration are unknown values or strings when a
    check of each entry says so. *)
Lemma entries_accepted (props : PropertyMap) :
  forallb (λ kv, String.eqb kv.1 "version" || IsComputed kv.2 || IsString kv.2)
          (rangeProperties props) = true →
  ∀ k v, lookupProperty props k = Some v → k ≠ "version" →
         IsComputed v = true ∨ IsString v = true.
Proof.
  intros H k v Hk Hne. apply elem_of_rangeProperties in Hk.
  rewrite forallb_forall in H. specialize (H (k, v)). simpl in H.
  apply String.eqb_neq in Hne. rewrite Hne in H. simpl in H.
  apply orb_true_iff. apply H. by apply list_elem_of_In.
Qed.

(** A configuration of the [aws] provider with a version, a region not yet
    known and a profile. *)
Lemma version_property_witness :
  let props := Some {[ "version" := PVString "1.2.3"; "region" := PVComputed;
                       "profile" := PVString "ops" ]} in
  lookupProperty props "version" = Some (PVString "1.2.3") ∧
  tolerantParse "1.2.3" = (version123, None) ∧
  extractVersion tolerantParse props = ([], Some version123) ∧
  ∀ p fs e log',
    loadProvider exampleTokens tolerantParse exampleHost (providerURN "aws") props true []
      = (Ok (p, fs, e), log') →
    Forall (λ f, Property f ≠ "version") fs ∧
    (fs = [] →
     ∃ rest, log' = [] ++ CallProvider
                            (typeName exampleTokens (urnType exampleTokens (providerURN "aws")))
                            (Some version123) :: rest).
Proof.
  intros props.
  assert (lookupProperty props "version" = Some (PVString "1.2.3")) as Hlookup
    by (vm_compute; reflexivity).
  assert (tolerantParse "1.2.3" = (version123, None)) as Hparse
    by (vm_compute; reflexivity).
  split; [exact Hlookup|]. split; [exact Hparse|].
  exact (proj1 (version_property_is_validated exampleTokens tolerantParse exampleHost
                  (providerURN "aws") props true []) Hlookup Hparse).
Defined.

(** The same configuration, loaded with unknowns disallowed and then with
    unknowns allowed; and loaded, with unknowns allowed, for the package
    [gcp], which the host does not know. *)
Lemma unknown_configuration_witness :
  let props := Some {[ "version" := PVString "1.2.3"; "region" := PVComputed;
                       "profile" := PVString "ops" ]} in
  (∃ fs, loadProvider exampleTokens tolerantParse exampleHost (providerURN "aws") props false []
           = (Ok (None, fs, None), []) ∧
         unknownFailure "region" ∈ fs) ∧
  loadProvider exampleTokens tolerantParse exampleHost (providerURN "aws") props true [] =
    (Ok (Some (shimProvider "aws" awsInfo), [], None),
     [CallProvider "aws" (Some version123); CallGetPluginInfo 0; CallCloseProvider (Some 0)]) ∧
  loadProvider exampleTokens tolerantParse exampleHost (providerURN "gcp") props true [] =
    (Ok (None, [], Some "no resource plugin 'gcp' found in the workspace or on your $PATH"),
     [CallProvider "gcp" (Some version123)]).
Proof.
  intros props.
  pose proof (unknown_configuration_value exampleTokens tolerantParse exampleHost
                (providerURN "aws") props "region" [] eq_refl) as H.
  destruct H as [Hdis [Hallow _]]; [discriminate|].
  split; [exact Hdis|]. split.
  - refine (proj1 (Hallow _ _ 0%nat awsInfo eq_refl eq_refl)).
    + reflexivity.
    + apply entries_accepted. vm_compute. reflexivity.
  - refine (proj1 (proj2 (proj2
              (unknown_configuration_value exampleTokens tolerantParse exampleHost
                 (providerURN "gcp") props "region" [] eq_refl _)) _ _) _ eq_refl).
    + discriminate.
    + reflexivity.
    + apply entries_accepted. vm_compute. reflexivity.
Defined.

(** C6 (counterexample): the configuration of a provider for the package
    [gcp], which the host does not know, holds an unknown value and nothing
    else; unknowns are allowed and there is no validation failure.  The load
    returns the host's error and no provider: there is no shim. *)
Lemma unknown_value_and_no_plugin :
  let props := Some {[ "region" := PVComputed ]} in
  lookupProperty props "region" = Some PVComputed ∧
  versionAccepted tolerantParse props ∧
  loadProvider exampleTokens tolerantParse exampleHost (providerURN "gcp") props true [] =
    (Ok (None, [], Some "no resource plugin 'gcp' found in the workspace or on your $PATH"),
     [CallProvider "gcp" None]).
Proof. vm_compute. repeat split; reflexivity. Qed.

(** The [aws] provider is loaded; a provider for [gcp] is asked for, and its
    load fails; after that, the [aws] provider is still the handle that was
    loaded, and no provider is found for [azure]. *)
Lemma lookup_witness :
  let region : gmap string PropertyValue := {[ "region" := PVString "us-east-1" ]} in
  let later := [lookupRequest (providerURN "gcp"); loadRequest (providerURN "gcp") region false] in
  ∃ resp s2,
    (is_Some (provider resp) ∧
     metaProvider_getProvider exampleTokens tolerantParse exampleHost (providerURN "aws") s2 =
       (Ok (provider resp, None), s2) ∧
     serveRequest exampleTokens tolerantParse exampleHost (lookupRequest (providerURN "aws")) s2 =
       (Ok {| provider := provider resp; failures := []; err := None |}, s2)) ∧
    provider resp = Some (pluginProvider 0) ∧
    (serve exampleTokens tolerantParse exampleHost
           (loadRequest (providerURN "aws") region false :: later) newProviderLoader).2 = s2 ∧
    metaProvider_getProvider exampleTokens tolerantParse exampleHost (providerURN "azure") s2 =
      (Ok (None, Some "provider not found"), s2).
Proof.
  intros region later. eexists _, _. split.
  { eapply (proj1 (lookup_returns_the_loaded_provider exampleTokens tolerantParse exampleHost
                     (providerURN "aws")) newProviderLoader region false _ _ later).
    - vm_compute. reflexivity.
    - reflexivity.
    - reflexivity.
    - vm_compute. reflexivity. }
  split; [reflexivity|]. split; [vm_compute; reflexivity|].
  eapply (proj2 (lookup_returns_the_loaded_provider exampleTokens tolerantParse exampleHost
                   (providerURN "azure"))
            (loadRequest (providerURN "aws") region false :: later)).
  { vm_compute. reflexivity. }
  repeat constructor; intros [Hu _]; vm_compute in Hu; discriminate.
Defined.

(** The load of a provider for [gcp], which the host does not know, fails
    and caches nothing. *)
Lemma failed_load_witness :
  let req := loadRequest (providerURN "gcp") {[ "region" := PVString "us-east-1" ]} false in
  ∃ resp s',
    serveRequest exampleTokens tolerantParse exampleHost req newProviderLoader = (Ok resp, s') ∧
    err resp = Some "no resource plugin 'gcp' found in the workspace or on your $PATH" ∧
    providers s' = providers newProviderLoader ∧
    metaProvider_getProvider exampleTokens tolerantParse exampleHost (urn req) s' =
      (Ok (None, Some "provider not found"), s').
Proof.
  intros req. eexists _, _.
  split; [vm_compute; reflexivity|]. split; [reflexivity|].
  edestruct (failed_load_caches_nothing exampleTokens tolerantParse exampleHost req
               newProviderLoader) as (Htable & Hget & _).
  - discriminate.
  - vm_compute. reflexivity.
  - right. discriminate.
  - split; [exact Htable | exact Hget].
Defined.

(** * Further properties of the step generator *)

Lemma reportsOnly_refl w : reportsOnly w w.
Proof. split; [apply quiet_refl|]. exists []. by rewrite app_nil_r. Qed.

Lemma reportsOnly_Errorf d : preserves reportsOnly (Errorf d).
Proof.
  intros w0 w [Hq [more Hs]]. split; [by apply quiet_Errorf|].
  exists (more ++ [d]). simpl. by rewrite Hs, <- app_assoc.
Qed.

Lemma reportsOnly_callPlan A c (answer : list PlanCall → A) :
  isDiffCall c = false → preserves reportsOnly (callPlan c answer).
Proof. intros Hc w0 w [Hq Hs]. split; [by apply quiet_callPlan | done]. Qed.

(** Once the resource is invalid, the analyzers cannot make it valid: they
    return [true], or an error. *)
Lemma runAnalyzers_invalid plan urn new props names w :
  ∃ w', reportsOnly w w' ∧
        (runAnalyzers plan urn new props names true w = (Ok true, w') ∨
         ∃ e, runAnalyzers plan urn new props names true w = (Err e, w')).
Proof.
  destruct (runAnalyzers plan urn new props names true w) as [r w'] eqn:E.
  exists w'. split.
  { eapply preserves_result; [| apply reportsOnly_refl | exact E].
    apply frame_runAnalyzers; [apply reportsOnly_Errorf | apply reportsOnly_callPlan]. }
  revert w E. induction names as [|a rest IH]; intros w E; simpl in E.
  { injection E as <- <-. by left. }
  unfold bind at 1 in E. unfold callPlan at 1 in E.
  destruct (hostAnalyzer plan (calls w) a) as [e|[analyzer|]].
  - injection E as <- <-. right. by eexists.
  - unfold bind at 1 in E. unfold callPlan at 1 in E. simpl in E.
    destruct (analyzerAnalyze plan _ analyzer _ _) as [e|failures].
    + injection E as <- <-. right. by eexists.
    + unfold bind at 1 in E.
      destruct (issueAnalyzeFailures urn a failures _) as [[[]|e|why] w2] eqn:Ei.
      * by eapply IH.
      * injection E as <- <-. right. by eexists.
      * exfalso. clear E IH. revert Ei. generalize ({| sg := sg w; sink := sink w;
          calls := (calls w ++ [CallHostAnalyzer a]) ++
                   [CallAnalyze analyzer (Type_ new) props] |}).
        induction failures as [|f fs IHf]; intros w0 Ei; simpl in Ei; [discriminate|].
        unfold bind at 1 in Ei. simpl in Ei. by eapply IHf.
  - injection E as <- <-. right. by eexists.
Qed.

(** ** The three cases of a valid registration *)

Section Cases.
Variable tok : Tokens.
Variable DeepEquals : PropertyMap → PropertyMap → bool.
Variable plan : Plan.

(** X1: a valid registration of a resource that has no old state and whose
    URN was not marked deleted yields exactly one Create step for the new
    state; the URN is added to creates, no other set changes, and no call of
    [Diff] is made. *)
Theorem new_resource_is_created event w l w1 :
  validate tok plan event w = (Ok l, w1) →
  generateURN tok plan event ∉ deletes (sg w) →
  Olds plan !! generateURN tok plan event = None →
  GenerateSteps tok DeepEquals plan event w =
    (Ok [NewCreateStep event (new l)], onGenerator (setCreated (generateURN tok plan event)) w1) ∧
  sg (onGenerator (setCreated (generateURN tok plan event)) w1) =
    setCreated (generateURN tok plan event) (sg w) ∧
  ∃ made, calls w1 = calls w ++ made ∧ Forall (λ c, isDiffCall c = false) made.
Proof.
  intros Hv Hdel Hold.
  destruct (validate_Ok tok plan event w l w1 Hv) as (Hrc & _ & _ & Hsg & Hcalls).
  rewrite (GenerateSteps_valid tok DeepEquals plan event w l w1 Hv).
  unfold dispatch. rewrite Hold, Hrc, bool_decide_eq_false_2 by done. simpl.
  split_and!; [done | by rewrite Hsg | done].
Qed.


(** X3: a valid registration whose URN was marked deleted earlier in the
    plan is being recreated.  With old state and outside a refresh it yields
    exactly a Replace step and a CreateReplacement step, both without keys;
    the URN leaves deletes and enters replaces, and no call of [Diff] is made,
    whatever the inputs are.  In a refresh, and without old state, the
    registration ends in a failed assertion. *)
Theorem deleted_resource_is_recreated event w l w1 :
  validate tok plan event w = (Ok l, w1) →
  generateURN tok plan event ∈ deletes (sg w) →
  GenerateSteps tok DeepEquals plan event w =
    match Olds plan !! generateURN tok plan event with
    | Some old =>
        if IsRefresh plan then (Panic "An assertion has failed", w1)
        else (Ok [NewReplaceStep old (new l) [] false;
                  NewCreateReplacementStep event old (new l) [] false],
              onGenerator (λ g, setReplaced (generateURN tok plan event)
                                  (unsetDeleted (generateURN tok plan event) g)) w1)
    | None => (Panic "An assertion has failed", w1)
    end ∧
  sg w1 = sg w ∧
  ∃ made, calls w1 = calls w ++ made ∧ Forall (λ c, isDiffCall c = false) made.
Proof.
  intros Hv Hdel.
  destruct (validate_Ok tok plan event w l w1 Hv) as (Hrc & _ & _ & Hsg & Hcalls).
  rewrite (GenerateSteps_valid tok DeepEquals plan event w l w1 Hv).
  split; [|done].
  unfold dispatch. rewrite Hrc, bool_decide_eq_true_2 by done.
  destruct (Olds plan !! _) as [old|]; [|reflexivity].
  destruct (IsRefresh plan); [reflexivity|]. by destruct w1.
Qed.

(** X5: when the provider's [Check] of a custom resource, outside a
    refresh, reports at least one failure, [GenerateSteps] returns an error
    and no steps; the generator's sets are unchanged; every failure has its
    diagnostic in the sink; and no call of [Diff] is made.  [Check] is given
    no old inputs when the URN was marked deleted, the old inputs
    otherwise. *)
Theorem check_failures_reject_the_registration event w p checked fs :
  let goal := eventGoal event in
  let urn := generateURN tok plan event in
  let pkg := typePackage tok (gType goal) in
  let olds := if bool_decide (urn ∈ deletes (sg w)) then None
              else oldInputsOf (Olds plan !! urn) in
  gCustom goal = true → IsRefresh plan = false →
  planProvider plan (calls w) pkg = inr (Some p) →
  providerCheck plan (calls w ++ [CallPlanProvider pkg]) p urn olds (gProperties goal)
                (preview plan) = inr (checked, fs) →
  fs ≠ [] →
  ∃ e w', GenerateSteps tok DeepEquals plan event w = (Err e, w') ∧
          sg w' = sg w ∧
          (∀ f, f ∈ fs →
             checkDiagnostic tok (getResourcePropertyStates plan urn goal).2 urn f ∈ sink w') ∧
          ∃ made, calls w' = calls w ++ made ∧ Forall (λ c, isDiffCall c = false) made.
Proof.
  intros goal urn pkg olds Hcustom Href Hprov Hcheck Hfs.
  remember (getResourcePropertyStates plan urn goal).2 as new0 eqn:Enew0.
  unfold getResourcePropertyStates in Enew0. rewrite Href in Enew0. simpl in Enew0.
  assert (∀ A (x y : A), (if gCustom goal then x else y) = x) as Hif.
  { intros. by rewrite Hcustom. }
  set (dup := bool_decide (urn ∈ urns (sg w))).
  set (w2 := if dup then report [DuplicateResourceURNError urn] w else w).
  assert (sg w2 = sg w ∧ calls w2 = calls w ∧ ∃ more, sink w2 = sink w ++ more)
    as (Hsg2 & Hcalls2 & Hsink2).
  { subst w2. destruct dup; simpl; split_and!; try done.
    - by eexists.
    - exists []. by rewrite app_nil_r. }
  assert (when dup (Errorf (DuplicateResourceURNError urn)) w = (Ok tt, w2)) as Hwhen.
  { subst w2. by destruct dup. }
  clearbody w2.
  set (w4 := {| sg := sg w; sink := sink w2;
                calls := (calls w ++ [CallPlanProvider pkg]) ++
                         [CallCheck p urn olds (gProperties goal) (preview plan)] |}).
  set (w5 := report (map (checkDiagnostic tok new0 urn) fs) w4).
  assert (validate tok plan event w =
          (let! invalid := runAnalyzers plan urn (setInputs new0 checked) checked
                             (analyzers plan) true in
           if invalid then fail validationErrors
           else ret {| prov := Some p; recreating := bool_decide (urn ∈ deletes (sg w));
                       props := checked; inputs := checked; outputs := None;
                       new := setInputs new0 checked |}) w5) as Hv.
  { unfold validate. fold goal urn.
    erewrite bind_Ok; [| reflexivity]. fold dup.
    erewrite (bind_Ok _ _ _ tt w2); [| exact Hwhen].
    unfold getResourcePropertyStates. rewrite Href, Hif. cbv beta iota zeta.
    erewrite bind_Ok.
    2: { erewrite bind_Ok; [reflexivity|].
         unfold provider_, bind, callPlan. fold pkg. rewrite Hcalls2, Hprov. reflexivity. }
    erewrite bind_Ok; [| reflexivity]. simpl sg. rewrite Hsg2.
    erewrite bind_Ok.
    2: { cbv beta iota delta [negb].
         erewrite (bind_Ok _ _ _ (checked, fs) w4).
         2: { rewrite andb_true_r. subst olds w4.
              destruct (bool_decide (urn ∈ deletes (sg w))); unfold Check_, bind, callPlan;
                simpl; rewrite Hcheck; reflexivity. }
         cbv beta iota. erewrite bind_Ok; [reflexivity|]. apply issueCheckErrors_spec. }
    cbv beta iota.
    assert (negb (length fs =? 0)%nat = true) as ->. { by destruct fs. }
    rewrite orb_true_r. subst new0. reflexivity. }
  destruct (runAnalyzers_invalid plan urn (setInputs new0 checked) checked (analyzers plan) w5)
    as (w6 & [[Hsg6 Hcalls6] [more Hsink6]] & Hrun).
  assert (∃ e, validate tok plan event w = (Err e, w6)) as [e He].
  { rewrite Hv. unfold bind. destruct Hrun as [-> | [e ->]]; by eexists. }
  exists e, w6. unfold GenerateSteps, bind. rewrite He. split_and!; [done | done | |].
  - intros f Hf. rewrite Hsink6. apply elem_of_app. left. simpl.
    apply elem_of_app. right. apply list_elem_of_fmap. by exists f.
  - destruct Hcalls6 as (made & Hm & HF). exists ([CallPlanProvider pkg;
      CallCheck p urn olds (gProperties goal) (preview plan)] ++ made).
    rewrite Hm. simpl. rewrite <- !app_assoc. split; [done|].
    by repeat constructor.
Qed.
(** X26: when the plan has no provider for the package of a custom
    resource, or fails to find one, [GenerateSteps] returns that error (for a
    missing provider: "could not load resource provider for package ... from
    $PATH") and no steps; the generator's sets are unchanged, and the lookup
    of the provider is the only call made: nothing is checked, analyzed or
    diffed. *)
Theorem unavailable_provider_rejects_the_registration event w e :
  let pkg := typePackage tok (gType (eventGoal event)) in
  gCustom (eventGoal event) = true →
  planProvider plan (calls w) pkg = inl e ∨
  (planProvider plan (calls w) pkg = inr None ∧
   e = "could not load resource provider for package '" +:+ pkg +:+ "' from $PATH") →
  ∃ w', GenerateSteps tok DeepEquals plan event w = (Err e, w') ∧
        sg w' = sg w ∧ calls w' = calls w ++ [CallPlanProvider pkg].
Proof.
  intros pkg Hcustom Hprov.
  set (urn := generateURN tok plan event).
  set (dup := bool_decide (urn ∈ urns (sg w))).
  set (w2 := if dup then report [DuplicateResourceURNError urn] w else w).
  assert (sg w2 = sg w ∧ calls w2 = calls w) as (Hsg2 & Hcalls2).
  { subst w2. by destruct dup. }
  assert (when dup (Errorf (DuplicateResourceURNError urn)) w = (Ok tt, w2)) as Hwhen.
  { subst w2. by destruct dup. }
  clearbody w2.
  exists {| sg := sg w2; sink := sink w2; calls := calls w2 ++ [CallPlanProvider pkg] |}.
  split; [| by rewrite Hsg2, Hcalls2].
  unfold GenerateSteps, validate. fold urn.
  unfold bind at 1. erewrite bind_Ok; [| reflexivity]. fold dup.
  erewrite (bind_Ok _ _ _ tt w2); [| exact Hwhen].
  destruct (getResourcePropertyStates plan urn (eventGoal event)) as [[[props0 inputs0] outputs0] new0].
  rewrite Hcustom. unfold bind at 1. unfold bind at 1.
  unfold provider_, bind, callPlan. fold pkg. rewrite Hcalls2.
  by destruct Hprov as [-> | [-> ->]].
Qed.
End Cases.

(** ** The calls a registration makes *)

Lemma bind_ret {S A B} (a : A) (k : A → M S B) : bind (ret a) k = k a.
Proof. reflexivity. Qed.

(** The calls made by a registration are those of its call sites: a
    property of calls that holds at every call site holds of every call
    made. *)
Section CallSites.
Variable tok : Tokens.
Variable DeepEquals : PropertyMap → PropertyMap → bool.
Variable plan : Plan.
Variable P : PlanCall → Prop.

Lemma callsMade_refl w : callsMade P w w.
Proof. exists []. by rewrite app_nil_r. Qed.

Lemma callsMade_Errorf d : preserves (callsMade P) (Errorf d).
Proof. by intros w0 w H. Qed.

Lemma callsMade_modify f : preserves (callsMade P) (modify (onGenerator f)).
Proof. by intros w0 w H. Qed.

Lemma callsMade_callPlan A c (answer : list PlanCall → A) :
  P c → preserves (callsMade P) (callPlan c answer).
Proof.
  intros Hc w0 w (made & C & F). exists (made ++ [c]). simpl.
  rewrite C, <- app_assoc. split; [done|]. apply Forall_app. split; [done|]. by constructor.
Qed.

Hypothesis P_analyzers : ∀ c, isAnalyzerCall c = true → P c.

Lemma calls_runAnalyzers urn new props names invalid :
  preserves (callsMade P) (runAnalyzers plan urn new props names invalid).
Proof.
  revert invalid. induction names as [|a rest IH]; intros invalid; simpl; [apply preserves_ret|].
  apply preserves_bind; [by apply callsMade_callPlan, P_analyzers|].
  intros [e|[analyzer|]]; [apply preserves_fail | | apply preserves_fail].
  apply preserves_bind; [by apply callsMade_callPlan, P_analyzers|].
  intros [e|failures]; [apply preserves_fail|].
  apply preserves_bind; [| intros; apply IH].
  induction failures as [|f fs IHf]; simpl; [apply preserves_ret|].
  apply preserves_bind; [apply callsMade_Errorf | by intros].
Qed.

Lemma calls_Check p urn olds news allow :
  P (CallCheck p urn olds news allow) →
  preserves (callsMade P) (Check_ plan p urn olds news allow).
Proof. intros H. unfold Check_. preserving. by apply callsMade_callPlan. Qed.

Lemma calls_validate event :
  (gCustom (eventGoal event) = true → ∀ pkg, P (CallPlanProvider pkg)) →
  (gCustom (eventGoal event) = true → IsRefresh plan = false →
   ∀ p u olds news, P (CallCheck p u olds news (preview plan && negb (IsRefresh plan)))) →
  preserves (callsMade P) (validate tok plan event).
Proof.
  intros Hprov Hcheck. unfold validate.
  apply preserves_bind; [apply preserves_gets|]. intros invalid.
  apply preserves_bind; [apply preserves_when, callsMade_Errorf|]. intros _.
  destruct (getResourcePropertyStates _ _ _) as [[[props inputs] outputs] new].
  destruct (gCustom (eventGoal event)) eqn:Hc.
  - apply preserves_bind.
    { apply preserves_bind; [| intros; apply preserves_ret].
      unfold provider_. preserving. by apply callsMade_callPlan, Hprov. }
    intros prov. apply preserves_bind; [apply preserves_gets|]. intros recreating.
    apply preserves_bind.
    { destruct prov as [p|]; [|apply preserves_ret].
      destruct (IsRefresh plan) eqn:Href; [apply preserves_ret|]. cbv beta iota delta [negb].
      apply preserves_bind.
      { destruct recreating; apply calls_Check; by apply Hcheck. }
      intros [inputs' failures].
      apply preserves_bind; [apply frame_issueCheckErrors, callsMade_Errorf|].
      intros; apply preserves_ret. }
    intros [[[invalid' props'] inputs'] new'].
    apply preserves_bind; [apply calls_runAnalyzers|].
    intros [|]; [apply preserves_fail | apply preserves_ret].
  - rewrite bind_ret.
    apply preserves_bind; [apply preserves_gets|]. intros recreating.
    rewrite bind_ret.
    apply preserves_bind; [apply calls_runAnalyzers|].
    intros [|]; [apply preserves_fail | apply preserves_ret].
Qed.

Lemma calls_dispatch event l :
  (is_Some (prov l) → IsRefresh plan = false →
   ∀ p u olds news, P (CallCheck p u olds news (preview plan && negb (IsRefresh plan)))) →
  (is_Some (prov l) →
   ∀ p u id olds news, P (CallDiff p u id olds news (preview plan && negb (IsRefresh plan)))) →
  preserves (callsMade P) (dispatch tok DeepEquals plan event l).
Proof.
  intros Hcheck Hdiff.
  unfold dispatch. apply preserves_bind; [apply preserves_Assert|]. intros _.
  destruct (recreating l).
  { destruct (Olds plan !! _) as [old|]; [|apply preserves_panic].
    apply preserves_bind; [apply preserves_Assert|]. intros _.
    apply preserves_bind; [apply callsMade_modify|]. intros _.
    apply preserves_bind; [apply callsMade_modify | intros; apply preserves_ret]. }
  destruct (Olds plan !! _) as [old|].
  2: { apply preserves_bind; [apply callsMade_modify | intros; apply preserves_ret]. }
  unfold updateOrReplace.
  apply preserves_bind; [apply preserves_Assert|]. intros _.
  apply preserves_bind.
  { unfold diff. destruct (negb (if IsRefresh plan then _ else _)); [apply preserves_ret|].
    destruct (prov l) as [p|] eqn:Hp; [|apply preserves_ret].
    apply preserves_bind; [by apply callsMade_callPlan, Hdiff|].
    intros [e|d]; [apply preserves_fail|]. destruct (_ =? _)%Z; apply preserves_ret. }
  intros d.
  destruct (negb _ && negb _); [apply preserves_fail|].
  destruct (_ =? _)%Z.
  2: { apply preserves_bind; [apply callsMade_modify | intros; apply preserves_ret]. }
  destruct (Replace d).
  2: { apply preserves_bind; [apply callsMade_modify | intros; apply preserves_ret]. }
  apply preserves_bind; [apply callsMade_modify|]. intros _.
  apply preserves_bind.
  { unfold recomputeDefaults. destruct (prov l) as [p|] eqn:Hp; [|apply preserves_ret].
    destruct (IsRefresh plan) eqn:Href; [apply preserves_ret|]. cbv beta iota delta [negb].
    apply preserves_bind.
    { apply calls_Check. by apply Hcheck. }
    intros [i fs].
    apply preserves_bind; [apply frame_issueCheckErrors, callsMade_Errorf|].
    intros [|]; [apply preserves_fail | apply preserves_ret]. }
  intros new'.
  destruct (DeleteBeforeReplace d); [|apply preserves_ret].
  apply preserves_bind; [apply preserves_Assert|]. intros _.
  apply preserves_bind; [| intros; apply preserves_ret].
  apply frame_deleteDependents. intros u. apply callsMade_modify.
Qed.
End CallSites.

Lemma sameSink_callPlan A c (answer : list PlanCall → A) : preserves sameSink (callPlan c answer).
Proof. by intros w0 w H. Qed.

Lemma sameSink_modify f : preserves sameSink (modify (onGenerator f)).
Proof. by intros w0 w H. Qed.

(** The analyzers find the resource valid only if it was valid before and
    they wrote no diagnostic. *)
Lemma runAnalyzers_valid plan urn new props names invalid w w' :
  runAnalyzers plan urn new props names invalid w = (Ok false, w') →
  invalid = false ∧ sink w' = sink w.
Proof.
  revert invalid w. induction names as [|a rest IH]; intros invalid w H; simpl in H.
  { by injection H as -> <-. }
  apply bind_Ok_inv in H as ([e|[analyzer|]] & w1 & Hh & H); try discriminate.
  injection Hh as _ <-.
  apply bind_Ok_inv in H as ([e|failures] & w2 & Ha & H); try discriminate.
  injection Ha as _ <-.
  apply bind_Ok_inv in H as (u & w3 & Hi & H).
  apply IH in H as [Hinv Hsink].
  apply orb_false_iff in Hinv as [-> Hfs].
  destruct failures as [|f fs]; [|discriminate].
  simpl in Hi. injection Hi as _ <-. by rewrite Hsink.
Qed.

Section ModeAndComponents.
Variable tok : Tokens.
Variable DeepEquals : PropertyMap → PropertyMap → bool.
Variable plan : Plan.

(** X6: whatever is registered and however the registration ends, every
    [Check] that [GenerateSteps] asks of a provider is made outside a refresh
    and allows unknown values exactly when the plan is a preview, and every
    [Diff] allows unknown values exactly when the plan is a preview and not a
    refresh.  In a refresh, no [Check] is made. *)
Theorem provider_calls_follow_the_mode_of_the_plan event w :
  callsMade (followsMode plan) w (GenerateSteps tok DeepEquals plan event w).2.
Proof.
  assert (∀ p u olds news,
            IsRefresh plan = false →
            followsMode plan (CallCheck p u olds news (preview plan && negb (IsRefresh plan))))
    as Hcheck.
  { intros p u olds news Href. simpl. split; [done|]. rewrite Href. apply andb_true_r. }
  assert (preserves (callsMade (followsMode plan)) (GenerateSteps tok DeepEquals plan event)) as H.
  { unfold GenerateSteps. apply preserves_bind.
    - apply calls_validate; [by intros [] Hc; simpl in * | by intros | intros; by apply Hcheck].
    - intros l.
      apply calls_dispatch; [intros; by apply Hcheck | by intros]. }
  apply H, callsMade_refl.
Qed.

(** A registration that is not of a custom resource has no provider, and
    its properties are taken as they are. *)
Lemma validate_component event w l w1 :
  gCustom (eventGoal event) = false →
  validate tok plan event w = (Ok l, w1) →
  prov l = None ∧ inputs l = (getResourcePropertyStates plan (generateURN tok plan event)
                                (eventGoal event)).1.1.2 ∧
  props l = gProperties (eventGoal event) ∧
  new l = (getResourcePropertyStates plan (generateURN tok plan event) (eventGoal event)).2.
Proof.
  intros Hc H. unfold validate in H.
  apply bind_Ok_inv in H as (dup & w2 & _ & H).
  apply bind_Ok_inv in H as (u & w3 & _ & H).
  rewrite Hc in H.
  unfold getResourcePropertyStates in *.
  destruct (IsRefresh plan); cbv beta iota zeta in H; rewrite bind_ret in H;
    apply bind_Ok_inv in H as (rc & w4 & _ & H); rewrite bind_ret in H;
    apply bind_Ok_inv in H as (inv & w5 & _ & H);
    destruct inv; try discriminate; by injection H as <- _.
Qed.

(** X7: the registration of a component resource (one that is not custom)
    never reaches a provider: whatever its old state, its properties and the
    outcome, the only calls [GenerateSteps] makes are calls to the
    analyzers; the plan is not asked for a provider, and neither [Check] nor
    [Diff] is called. *)
Theorem component_never_calls_a_provider event w :
  gCustom (eventGoal event) = false →
  callsMade (λ c, isAnalyzerCall c = true) w (GenerateSteps tok DeepEquals plan event w).2.
Proof.
  intros Hc.
  assert (preserves (callsMade (λ c, isAnalyzerCall c = true)) (validate tok plan event)) as Hv.
  { apply calls_validate; [done | by rewrite Hc | by rewrite Hc]. }
  unfold GenerateSteps, bind.
  destruct (validate tok plan event w) as [[l|e|why] w1] eqn:E.
  2,3: eapply preserves_result; [exact Hv | apply callsMade_refl | exact E].
  destruct (validate_component event w l w1 Hc E) as (Hp & _).
  assert (callsMade (λ c, isAnalyzerCall c = true) w w1) as Hw1.
  { eapply preserves_result; [exact Hv | apply callsMade_refl | exact E]. }
  revert Hw1. apply calls_dispatch; rewrite Hp; by intros [? ?].
Qed.

(** X8: a valid registration of a component resource that has old state
    and whose URN was not marked deleted is decided by the deep comparison
    alone: its properties are compared with the old inputs (in a refresh,
    with the old outputs); when they are equal the result is one Same step
    and the URN goes under sames, otherwise it is one Update step with no
    stable keys and the URN goes under updates.  A component is never
    replaced because of a diff. *)
Theorem component_is_same_or_updated event w l w1 old :
  gCustom (eventGoal event) = false →
  validate tok plan event w = (Ok l, w1) →
  generateURN tok plan event ∉ deletes (sg w) →
  Olds plan !! generateURN tok plan event = Some old →
  Type_ old = gType (eventGoal event) →
  GenerateSteps tok DeepEquals plan event w =
    if DeepEquals (if IsRefresh plan then Outputs old else Inputs old)
                  (gProperties (eventGoal event))
    then (Ok [NewSameStep event old (new l)],
          onGenerator (setSame (generateURN tok plan event)) w1)
    else (Ok [NewUpdateStep event old (new l) []],
          onGenerator (setUpdated (generateURN tok plan event)) w1).
Proof.
  intros Hc Hv Hdel Hold Hty.
  destruct (validate_Ok tok plan event w l w1 Hv) as (Hrc & Hnew & Hout & _).
  destruct (validate_component event w l w1 Hc Hv) as (Hp & Hin & _).
  rewrite (GenerateSteps_valid tok DeepEquals plan event w l w1 Hv).
  rewrite (dispatch_hasOld tok DeepEquals plan event l w1 old);
    [| by rewrite Hrc, bool_decide_eq_false | done | congruence].
  unfold diff. rewrite Hp, Hout, Hin. unfold getResourcePropertyStates.
  destruct (IsRefresh plan); simpl;
    match goal with |- context [DeepEquals ?a ?b] => destruct (DeepEquals a b) end;
    reflexivity.
Qed.


(** X10: the new state of a registration that passed the validation.
    Its type, URN, custom flag, parent, protection and dependencies are those
    of the goal; it is never pending deletion and has no ID yet.  In a
    refresh its inputs are the old inputs and its outputs the properties of
    the goal; otherwise it has no outputs, its inputs are the properties that
    are diffed, and for a resource without provider they are the properties
    of the goal. *)
Theorem new_state_of_a_registration event w l w1 :
  validate tok plan event w = (Ok l, w1) →
  let goal := eventGoal event in
  let urn := generateURN tok plan event in
  new l = NewState (gType goal) urn (gCustom goal) false "" (inputs l) (outputs l)
                   (gParent goal) (gProtect goal) (gDependencies goal) [] ∧
  (if IsRefresh plan
   then inputs l = oldInputsOf (Olds plan !! urn) ∧ outputs l = gProperties goal ∧
        props l = gProperties goal
   else outputs l = None ∧ props l = inputs l ∧
        (prov l = None → inputs l = gProperties goal)).
Proof.
  intros H goal urn. unfold validate in H. fold goal urn in H.
  apply bind_Ok_inv in H as (dup & w2 & _ & H).
  apply bind_Ok_inv in H as (u & w3 & _ & H).
  unfold getResourcePropertyStates in H.
  destruct (IsRefresh plan).
  - cbv beta iota zeta in H.
    apply bind_Ok_inv in H as (p & w4 & _ & H).
    apply bind_Ok_inv in H as (rc & w5 & _ & H).
    apply bind_Ok_inv in H as ([[[inv' props'] inputs'] new'] & w6 & Hc & H).
    apply bind_Ok_inv in H as (inv'' & w7 & _ & H).
    destruct inv''; [discriminate|]. injection H as <- _. simpl.
    destruct p as [p|]; injection Hc as _ <- <- <- _; done.
  - cbv beta iota zeta in H.
    apply bind_Ok_inv in H as (p & w4 & _ & H).
    apply bind_Ok_inv in H as (rc & w5 & _ & H).
    apply bind_Ok_inv in H as ([[[inv' props'] inputs'] new'] & w6 & Hc & H).
    apply bind_Ok_inv in H as (inv'' & w7 & _ & H).
    destruct inv''; [discriminate|]. injection H as <- _. simpl.
    destruct p as [p|]; [| injection Hc as _ <- <- <- _; done].
    cbv beta iota delta [negb] in Hc.
    apply bind_Ok_inv in Hc as ([i fs] & w8 & _ & Hc).
    apply bind_Ok_inv in Hc as (bad & w9 & _ & Hc).
    injection Hc as _ <- <- <- _. done.
Qed.

(** ** What an accepted registration records *)

Lemma dispositionsGrow_GenerateSteps event :
  preserves dispositionsGrow (GenerateSteps tok DeepEquals plan event).
Proof.
  apply frame_GenerateSteps; try (intros; intros w0 w Hw; exact Hw).
  all: intros u w0 w (Hc & Hs & Hu & Hr); split_and!; simpl; try done.
  all: etrans; [eassumption | apply union_subseteq_r].
Qed.

(** An accepted registration of a resource with old state goes under sames,
    updates or replaces; one without old state goes under creates. *)
Lemma dispatch_records event l w1 steps w' :
  dispatch tok DeepEquals plan event l w1 = (Ok steps, w') →
  steps ≠ [] ∧
  match Olds plan !! generateURN tok plan event with
  | Some _ => kept (generateURN tok plan event) (sg w')
  | None => generateURN tok plan event ∈ creates (sg w')
  end.
Proof.
  intros H. unfold dispatch in H.
  apply bind_Ok_inv in H as (u & w2 & _ & H).
  destruct (recreating l).
  { destruct (Olds plan !! _) as [old|]; [|discriminate].
    apply bind_Ok_inv in H as (u1 & w3 & _ & H).
    apply bind_Ok_inv in H as (u2 & w4 & _ & H).
    apply bind_Ok_inv in H as (u3 & w5 & Hm & H). injection Hm as _ <-.
    injection H as <- <-. split; [done|]. right; right. simpl.
    apply elem_of_union. left. by apply elem_of_singleton. }
  destruct (Olds plan !! _) as [old|].
  2: { apply bind_Ok_inv in H as (u1 & w3 & Hm & H). injection Hm as _ <-.
       injection H as <- <-. split; [done|]. simpl.
       apply elem_of_union. left. by apply elem_of_singleton. }
  unfold updateOrReplace in H.
  apply bind_Ok_inv in H as (u1 & w3 & _ & H).
  apply bind_Ok_inv in H as (d & w4 & _ & H).
  destruct (negb _ && negb _); [discriminate|].
  destruct (_ =? _)%Z.
  2: { apply bind_Ok_inv in H as (u2 & w5 & Hm & H). injection Hm as _ <-.
       injection H as <- <-. split; [done|]. left. simpl.
       apply elem_of_union. left. by apply elem_of_singleton. }
  destruct (Replace d).
  2: { apply bind_Ok_inv in H as (u2 & w5 & Hm & H). injection Hm as _ <-.
       injection H as <- <-. split; [done|]. right; left. simpl.
       apply elem_of_union. left. by apply elem_of_singleton. }
  apply bind_Ok_inv in H as (u2 & w5 & Hm & H). injection Hm as _ <-.
  apply bind_Ok_inv in H as (new' & w6 & Hre & H).
  assert (generateURN tok plan event ∈ replaces (sg w6)) as Hw6.
  { assert (quiet (onGenerator (setReplaced (generateURN tok plan event)) w4) w6) as [-> _].
    { eapply preserves_result; [apply quiet_recomputeDefaults | apply quiet_refl | exact Hre]. }
    simpl. apply elem_of_union. left. by apply elem_of_singleton. }
  destruct (DeleteBeforeReplace d).
  2: { injection H as <- <-. split; [done|]. by right; right. }
  apply bind_Ok_inv in H as (u3 & w7 & Ha & H).
  assert (w7 = w6) as ->.
  { unfold contract_Assert in Ha. destruct (bool_decide _); [by injection Ha | discriminate]. }
  apply bind_Ok_inv in H as (dels & w8 & Hdel & H). injection H as <- <-.
  split. { by destruct dels. }
  right; right.
  assert (replaces (sg w8) = replaces (sg w6)) as ->; [|done].
  eapply (preserves_result (λ a b, replaces (sg b) = replaces (sg a))); [| done | exact Hdel].
  apply frame_deleteDependents. by intros u' w0 w Hw.
Qed.

(** X9: every registration that [GenerateSteps] accepts returns at least
    one step and leaves its URN under creates, sames, updates or replaces;
    and no registration, accepted or not, removes a URN from one of these
    four sets. *)
Theorem accepted_registration_is_recorded event w steps w' :
  GenerateSteps tok DeepEquals plan event w = (Ok steps, w') →
  steps ≠ [] ∧ recorded (generateURN tok plan event) (sg w') ∧ dispositionsGrow w w'.
Proof.
  intros H.
  assert (dispositionsGrow w w') as Hgrow.
  { eapply preserves_result; [apply dispositionsGrow_GenerateSteps | | exact H]. by split_and!. }
  unfold GenerateSteps in H. apply bind_Ok_inv in H as (l & w1 & _ & H).
  apply dispatch_records in H as [? Hrec]. split_and!; [done | | done].
  destruct (Olds plan !! _); [by right | by left].
Qed.

(** ** The diagnostics of an accepted registration *)

Lemma Check_sink p urn olds news allow w r w' :
  Check_ plan p urn olds news allow w = (r, w') → sink w' = sink w.
Proof.
  intros H. eapply (preserves_result sameSink); [| done | exact H].
  unfold Check_. preserving. apply sameSink_callPlan.
Qed.

Lemma validate_sink event w l w1 :
  validate tok plan event w = (Ok l, w1) → sink w1 = sink w.
Proof.
  intros H. unfold validate in H.
  apply bind_Ok_inv in H as (dup & w2 & Hdup & H). injection Hdup as <- <-.
  apply bind_Ok_inv in H as (u & w3 & Hw & H).
  destruct (getResourcePropertyStates _ _ _) as [[[props0 inputs0] outputs0] new0].
  apply bind_Ok_inv in H as (p & w4 & Hp & H).
  assert (sink w4 = sink w3) as Hw4.
  { eapply (preserves_result sameSink); [| done | exact Hp].
    destruct (gCustom _); [|apply preserves_ret].
    apply preserves_bind; [|intros; apply preserves_ret].
    unfold provider_. preserving. apply sameSink_callPlan. }
  apply bind_Ok_inv in H as (rc & w5 & Hrc & H). injection Hrc as _ <-.
  apply bind_Ok_inv in H as ([[[inv' props'] inputs'] new'] & w6 & Hc & H).
  apply bind_Ok_inv in H as (inv'' & w7 & Ha & H).
  destruct inv''; [discriminate|]. injection H as _ <-.
  apply runAnalyzers_valid in Ha as [-> Hw7]. rewrite Hw7.
  assert (bool_decide (generateURN tok plan event ∈ urns (sg w)) = false ∧ sink w6 = sink w4)
    as [Hdup Hw6].
  { destruct p as [p|]; [|by injection Hc as -> _ _ _ <-].
    destruct (negb (IsRefresh plan)); [|by injection Hc as -> _ _ _ <-].
    apply bind_Ok_inv in Hc as ([i fs] & w8 & Hcheck & Hc).
    assert (sink w8 = sink w4) as Hw8.
    { destruct rc; by eapply Check_sink. }
    apply bind_Ok_inv in Hc as (bad & w9 & Hbad & Hc).
    rewrite issueCheckErrors_spec in Hbad. injection Hbad as <- <-.
    injection Hc as Hinv _ _ _ <-.
    apply orb_false_iff in Hinv as [-> Hfs]. split; [done|].
    destruct fs; [|discriminate]. simpl. by rewrite app_nil_r. }
  rewrite Hw6, Hw4. rewrite Hdup in Hw. simpl in Hw. by injection Hw as _ <-.
Qed.

Lemma dispatch_sink event l w1 steps w' :
  dispatch tok DeepEquals plan event l w1 = (Ok steps, w') → sink w' = sink w1.
Proof.
  intros H. unfold dispatch in H.
  apply bind_Ok_inv in H as (u & w2 & Ha & H).
  assert (w2 = w1) as ->.
  { unfold contract_Assert in Ha. destruct (_ || _); [by injection Ha | discriminate]. }
  destruct (recreating l).
  { destruct (Olds plan !! _) as [old|]; [|discriminate].
    apply bind_Ok_inv in H as (u1 & w3 & Ha1 & H).
    assert (w3 = w1) as ->.
    { unfold contract_Assert in Ha1. destruct (negb _); [by injection Ha1 | discriminate]. }
    apply bind_Ok_inv in H as (u2 & w4 & Hm & H). injection Hm as _ <-.
    apply bind_Ok_inv in H as (u3 & w5 & Hm & H). injection Hm as _ <-.
    by injection H as _ <-. }
  destruct (Olds plan !! _) as [old|].
  2: { apply bind_Ok_inv in H as (u1 & w3 & Hm & H). injection Hm as _ <-.
       by injection H as _ <-. }
  unfold updateOrReplace in H.
  apply bind_Ok_inv in H as (u1 & w3 & Ha1 & H).
  assert (w3 = w1) as ->.
  { unfold contract_Assert in Ha1. destruct (String.eqb _ _); [by injection Ha1 | discriminate]. }
  apply bind_Ok_inv in H as (d & w4 & Hd & H).
  assert (sink w4 = sink w1) as Hw4.
  { eapply (preserves_result sameSink); [| done | exact Hd].
    apply frame_diff. intros. apply sameSink_callPlan. }
  destruct (negb _ && negb _); [discriminate|].
  destruct (_ =? _)%Z.
  2: { apply bind_Ok_inv in H as (u2 & w5 & Hm & H). injection Hm as _ <-.
       by injection H as _ <-. }
  destruct (Replace d).
  2: { apply bind_Ok_inv in H as (u2 & w5 & Hm & H). injection Hm as _ <-.
       by injection H as _ <-. }
  apply bind_Ok_inv in H as (u2 & w5 & Hm & H). injection Hm as _ <-.
  apply bind_Ok_inv in H as (new' & w6 & Hre & H).
  assert (sink w6 = sink w1) as Hw6.
  { rewrite <- Hw4. unfold recomputeDefaults in Hre.
    destruct (prov l) as [p|]; [|by injection Hre as _ <-].
    destruct (negb (IsRefresh plan)); [|by injection Hre as _ <-].
    apply bind_Ok_inv in Hre as ([i fs] & w8 & Hcheck & Hre).
    apply Check_sink in Hcheck.
    apply bind_Ok_inv in Hre as (bad & w9 & Hbad & Hre).
    rewrite issueCheckErrors_spec in Hbad. injection Hbad as <- <-.
    destruct fs; [|discriminate]. injection Hre as _ <-. simpl.
    by rewrite app_nil_r, Hcheck. }
  destruct (DeleteBeforeReplace d); [|by injection H as _ <-].
  apply bind_Ok_inv in H as (u3 & w7 & Ha2 & H).
  assert (w7 = w6) as ->.
  { unfold contract_Assert in Ha2. destruct (bool_decide _); [by injection Ha2 | discriminate]. }
  apply bind_Ok_inv in H as (dels & w8 & Hdel & H). injection H as _ <-.
  rewrite <- Hw6.
  eapply (preserves_result sameSink); [| done | exact Hdel].
  apply frame_deleteDependents. intros u'. apply sameSink_modify.
Qed.

(** X27: a registration that [GenerateSteps] accepts has written no
    diagnostic: whenever steps are returned, the sink is as it was before the
    call.  Steps are never returned together with a diagnostic. *)
Theorem accepted_registration_writes_no_diagnostic event w steps w' :
  GenerateSteps tok DeepEquals plan event w = (Ok steps, w') → sink w' = sink w.
Proof.
  intros H. unfold GenerateSteps in H. apply bind_Ok_inv in H as (l & w1 & Hv & H).
  apply dispatch_sink in H. apply validate_sink in Hv. by rewrite H, Hv.
Qed.

(** ** From the registrations to the deletions *)

(** Registrations, accepted or not, remove no URN from creates, sames,
    updates or replaces. *)
Lemma dispositionsGrow_registrations later w :
  dispositionsGrow w (foldl (λ w e, (GenerateSteps tok DeepEquals plan e w).2) w later).
Proof.
  induction later as [|e later IH] using rev_ind; [by split_and!|].
  rewrite foldl_app. simpl. by apply dispositionsGrow_GenerateSteps.
Qed.

(** X28: a resource with old state whose registration was accepted is not
    deleted at the end of the plan: whatever is registered after it and
    however those registrations end, [GenerateDeletes] returns no ordinary
    Delete step for a resource of its URN. *)
Theorem registered_resource_is_not_deleted event w steps w1 later :
  GenerateSteps tok DeepEquals plan event w = (Ok steps, w1) →
  is_Some (Olds plan !! generateURN tok plan event) →
  ∃ dels w3,
    GenerateDeletes plan (foldl (λ w e, (GenerateSteps tok DeepEquals plan e w).2) w1 later)
      = (Ok dels, w3) ∧
    ∀ res, NewDeleteStep res ∈ dels → URN_ res ≠ generateURN tok plan event.
Proof.
  intros H [old Hold].
  unfold GenerateSteps in H. apply bind_Ok_inv in H as (l & w0 & _ & H).
  apply dispatch_records in H as [_ Hkept]. rewrite Hold in Hkept.
  set (w2 := foldl _ w1 later).
  assert (kept (generateURN tok plan event) (sg w2)) as Hkept2.
  { destruct (dispositionsGrow_registrations later w1) as (_ & Hs & Hu & Hr). fold w2 in Hs, Hu, Hr.
    destruct Hkept as [?|[?|?]]; [left | right; left | right; right]; auto. }
  unfold GenerateDeletes. destruct (prev plan) as [resources|].
  2: { exists [], w2. split; [done|]. intros res Hin. by apply elem_of_nil in Hin. }
  destruct (deleteOlds_spec (reverse resources) w2) as (dels & w3 & E & _ & _ & _ & _ & Hin).
  exists dels, w3. split; [done|]. intros res Hres Hurn.
  destruct (Hin res Hres) as (_ & Hs & Hu & Hr). rewrite Hurn in Hs, Hu, Hr.
  by destruct Hkept2 as [?|[?|?]].
Qed.
End ModeAndComponents.

(** ** The deletions at the end of the plan, continued *)

Lemma deleteOlds_accounts resources w steps w' :
  deleteOlds resources w = (Ok steps, w') →
  (∀ res, res ∈ resources →
     (Delete res = true → NewDeleteReplacementStep res true ∈ steps) ∧
     (URN_ res ∈ sames (sg w) ∨ URN_ res ∈ updates (sg w) ∨ URN_ res ∈ replaces (sg w) ∨
      URN_ res ∈ deletes (sg w'))) ∧
  (∀ u, u ∈ deletes (sg w') →
     u ∈ deletes (sg w) ∨ ∃ res, URN_ res = u ∧ deleteStepFor res ∈ steps).
Proof.
  revert w steps w'. induction resources as [|r rest IH]; intros w steps w' H.
  { simpl in H. injection H as <- <-. split; [|by left]. intros res Hin.
    by apply elem_of_nil in Hin. }
  pose proof H as H0. simpl in H.
  apply bind_Ok_inv in H as (g & w1 & Hg & H). injection Hg as <- <-.
  assert (∀ w2 dels step,
            deleteOlds rest (onGenerator (setDeleted (URN_ r)) w) = (Ok dels, w2) →
            step = deleteStepFor r →
            (∀ res, res ∈ r :: rest →
               (Delete res = true → NewDeleteReplacementStep res true ∈ step :: dels) ∧
               (URN_ res ∈ sames (sg w) ∨ URN_ res ∈ updates (sg w) ∨
                URN_ res ∈ replaces (sg w) ∨ URN_ res ∈ deletes (sg w2))) ∧
            (∀ u, u ∈ deletes (sg w2) →
               u ∈ deletes (sg w) ∨ ∃ res, URN_ res = u ∧ deleteStepFor res ∈ step :: dels))
    as Hmarked.
  { intros w2 dels step Hr ->. destruct (IH _ _ _ Hr) as [IH1 IH2].
    destruct (deleteOlds_sets _ _ _ _ Hr) as (_ & _ & _ & Hsub). split.
    - intros res [->|Hin]%elem_of_cons.
      + split.
        * intros Hd. unfold deleteStepFor. rewrite Hd. by left.
        * right; right; right. apply Hsub. simpl. apply elem_of_union. left.
          by apply elem_of_singleton.
      + destruct (IH1 res Hin) as [Hstep Hset]. split.
        * intros Hd. right. by apply Hstep.
        * exact Hset.
    - intros u Hu. destruct (IH2 u Hu) as [Hin | (res & <- & Hin)].
      + simpl in Hin. apply elem_of_union in Hin as [->%elem_of_singleton | Hin]; [|by left].
        right. exists r. split; [done | by left].
      + right. exists res. split; [done | by right]. }
  destruct (Delete r) eqn:Hd.
  - apply bind_Ok_inv in H as (x & w1 & Hm & H). injection Hm as _ <-.
    apply bind_Ok_inv in H as (dels & w2 & Hr & H). injection H as <- <-.
    apply Hmarked; [done|]. unfold deleteStepFor. by rewrite Hd.
  - destruct (negb (bool_decide (URN_ r ∈ sames (sg w))) &&
              negb (bool_decide (URN_ r ∈ updates (sg w))) &&
              negb (bool_decide (URN_ r ∈ replaces (sg w))) &&
              negb (bool_decide (URN_ r ∈ deletes (sg w)))) eqn:Hc.
    + apply bind_Ok_inv in H as (x & w1 & Hm & H). injection Hm as _ <-.
      apply bind_Ok_inv in H as (dels & w2 & Hr & H). injection H as <- <-.
      apply Hmarked; [done|]. unfold deleteStepFor. by rewrite Hd.
    + destruct (IH _ _ _ H) as [IH1 IH2].
      destruct (deleteOlds_sets _ _ _ _ H) as (_ & _ & _ & Hsub). split; [|done].
      intros res [->|Hin]%elem_of_cons; [|by apply IH1].
      split; [by rewrite Hd|].
      repeat (apply andb_false_iff in Hc as [Hc|Hc]).
      all: apply negb_false_iff, bool_decide_eq_true in Hc; auto.
Qed.

(** X13: after [GenerateDeletes], every resource of the previous snapshot
    is accounted for: its URN is under sames, updates, replaces or deletes.
    Every resource stored as pending deletion has its own delete step,
    whatever the sets hold.  And a URN is only marked deleted together with a
    delete step for a resource of that URN. *)
Theorem every_old_resource_is_accounted_for plan w :
  ∃ steps w',
    GenerateDeletes plan w = (Ok steps, w') ∧
    (∀ res, res ∈ default [] (prev plan) →
       (Delete res = true → NewDeleteReplacementStep res true ∈ steps) ∧
       (URN_ res ∈ sames (sg w') ∨ URN_ res ∈ updates (sg w') ∨
        URN_ res ∈ replaces (sg w') ∨ URN_ res ∈ deletes (sg w'))) ∧
    (∀ u, u ∈ deletes (sg w') →
       u ∈ deletes (sg w) ∨ ∃ res, URN_ res = u ∧ deleteStepFor res ∈ steps).
Proof.
  unfold GenerateDeletes. destruct (prev plan) as [resources|]; simpl.
  - destruct (deleteOlds_spec (reverse resources) w) as (steps & w' & E & _ & Hs & Hu & Hr & _).
    exists steps, w'. split; [done|].
    destruct (deleteOlds_accounts _ _ _ _ E) as [H1 H2]. split; [|done].
    intros res Hin. rewrite Hs, Hu, Hr. apply H1. by rewrite elem_of_reverse.
  - exists [], w. split_and!; [done | | by left]. intros res Hin. by apply elem_of_nil in Hin.
Qed.

(** ** The errors of a failed check *)

Lemma multierror_Append {A B} (g : A → B) fs (acc : list B) :
  fold_left (λ err f, err ++ [g f]) fs acc = acc ++ map g fs.
Proof.
  revert acc. induction fs as [|f fs IH]; intros acc; simpl; [by rewrite app_nil_r|].
  by rewrite IH, <- app_assoc.
Qed.

(** X24: [getErrorForCheckFailures] fails its assertion on an empty list
    of failures.  On a list that is not empty it returns one error for each
    failure, in the order of the failures, and these errors are, template
    and arguments, the diagnostics that [issueCheckErrors] writes to the sink
    for the same state, the URN of that state and the same failures. *)
Theorem check_errors_match_the_diagnostics {S} tok res fs (s : S) w :
  getErrorForCheckFailures tok res [] s = (Panic "An assertion has failed", s) ∧
  (fs ≠ [] →
   getErrorForCheckFailures tok res fs s = (Ok (map (getErrorForCheckFailure tok res) fs), s) ∧
   length (map (getErrorForCheckFailure tok res) fs) = length fs ∧
   issueCheckErrors tok res (URN_ res) fs w =
     (Ok true, report (map (getErrorForCheckFailure tok res) fs) w)).
Proof.
  split; [done|]. intros Hfs. split_and!.
  - unfold getErrorForCheckFailures. destruct fs as [|f fs]; [done|].
    change (0 <? length (f :: fs))%nat with true. unfold contract_Assert, bind, ret.
    by rewrite multierror_Append.
  - apply length_map.
  - rewrite issueCheckErrors_spec. by destruct fs.
Qed.

(** * Further properties of the provider loader *)

(** ** The conversion of the configuration *)

Section ConversionMore.
Variable tok : Tokens.
Variable urn : string.
Variable allowUnknowns : bool.

Local Abbreviation step := (convertProperty tok urn allowUnknowns).

(** The failures after the loop are those before it and those that the
    entries leave. *)
Lemma convert_failures_elem l acc f :
  f ∈ (fold_left step l acc).1.1 ↔
  f ∈ acc.1.1 ∨ ∃ k v, (k, v) ∈ l ∧ rejected allowUnknowns k v f.
Proof.
  revert acc. induction l as [|[k v] l IH]; intros acc; simpl.
  { split; [by left|]. intros [H | (k & v & Hin & _)]; [done|]. by apply elem_of_nil in Hin. }
  rewrite IH. clear IH.
  assert (f ∈ (step acc (k, v)).1.1 ↔ f ∈ acc.1.1 ∨ rejected allowUnknowns k v f) as ->.
  { destruct acc as [[fs shim] cfg]. unfold convertProperty, rejected. simpl.
    destruct (String.eqb k "version") eqn:Ek.
    { apply String.eqb_eq in Ek. simpl. split; [by left|]. by intros [H | [H _]]. }
    apply String.eqb_neq in Ek.
    destruct (IsComputed v) eqn:Ec.
    - destruct allowUnknowns; simpl.
      + split; [by left|]. intros [H | [_ [(_ & H & _) | (H & _)]]]; done.
      + rewrite elem_of_app, list_elem_of_singleton. split.
        * intros [H | ->]; [by left|]. right. split; [done|]. by left.
        * intros [H | [_ [(_ & _ & ->) | (H & _)]]]; [by left | by right | done].
    - destruct (IsString v) eqn:Es; simpl.
      + split; [by left|]. intros [H | [_ [(H & _) | (_ & H & _)]]]; done.
      + rewrite elem_of_app, list_elem_of_singleton. split.
        * intros [H | ->]; [by left|]. right. split; [done|]. by right.
        * intros [H | [_ [(H & _) | (_ & _ & ->)]]]; [by left | done | by right]. }
  split.
  - intros [[H|H] | (k' & v' & Hin & H)].
    + by left.
    + right. exists k, v. split; [by left | done].
    + right. exists k', v'. split; [by right | done].
  - intros [H | (k' & v' & [Heq|Hin]%elem_of_cons & H)].
    + by left; left.
    + injection Heq as -> ->. by left; right.
    + right. by exists k', v'.
Qed.

(** The configuration map holds the string entries other than ["version"],
    under the name of the provider's type. *)
Lemma convert_cfg l fs0 ns k s :
  NoDup l.*1 →
  (fold_left step l (fs0, false, ∅)).2 !! (ns, k) = Some s ↔
  ns = typeName tok (urnType tok urn) ∧ k ≠ "version" ∧ (k, PVString s) ∈ l.
Proof.
  induction l as [|[k' v'] l IH] using rev_ind; intros Hnd.
  { simpl. rewrite lookup_empty. split; [done|]. intros (_ & _ & H). by apply elem_of_nil in H. }
  rewrite fmap_app in Hnd. apply NoDup_app in Hnd as (Hnd & Hfresh & _).
  specialize (IH Hnd). rewrite fold_left_app. simpl.
  destruct (fold_left step l (fs0, false, ∅)) as [[fs shim] cfg]. simpl in IH.
  assert (∀ s', (k', PVString s') ∉ l) as Hk'.
  { intros s' Hin. apply (Hfresh k'); [|by left].
    apply list_elem_of_fmap. by exists (k', PVString s'). }
  unfold convertProperty. destruct (String.eqb k' "version") eqn:Ek.
  { apply String.eqb_eq in Ek. subst k'. simpl. rewrite IH. rewrite elem_of_app.
    split; [intros (? & ? & ?); by split_and!; [| | left]|].
    intros (? & ? & [H | H%list_elem_of_singleton]); [done|]. by injection H. }
  apply String.eqb_neq in Ek.
  assert (cfg !! (ns, k) = Some s ↔
          ns = typeName tok (urnType tok urn) ∧ k ≠ "version" ∧
          (k, PVString s) ∈ l ++ [(k', v')] ∧ (k, PVString s) ≠ (k', v')) as Hkeep.
  { rewrite IH, elem_of_app, list_elem_of_singleton. split.
    - intros (? & ? & Hin). split_and!; [done | done | by left |]. intros [= -> <-].
      by apply (Hk' s).
    - intros (? & ? & [?|?] & ?); done. }
  destruct (IsComputed v') eqn:Ec.
  { assert (∀ s', (k, PVString s') ≠ (k', v')) as Hne by (intros s' [= _ <-]; done).
    destruct (negb allowUnknowns); simpl; rewrite Hkeep; split;
      try (intros (? & ? & ? & ?); done); intros (? & ? & ?); split_and!; done. }
  destruct (IsString v') eqn:Es; simpl.
  2: { assert (∀ s', (k, PVString s') ≠ (k', v')) as Hne by (intros s' [= _ <-]; done).
       rewrite Hkeep. split; [intros (? & ? & ? & ?); done|]. intros (? & ? & ?).
       split_and!; done. }
  destruct v'; try discriminate. simpl. unfold MustMakeKey.
  destruct (decide ((ns, k) = (typeName tok (urnType tok urn), k'))) as [[= -> ->]|Hne].
  - rewrite lookup_insert_eq. rewrite elem_of_app, list_elem_of_singleton. split.
    + intros [= ->]. split_and!; [done | done | by right].
    + intros (_ & _ & [H | [= ->]]); [by apply Hk' in H | done].
  - rewrite lookup_insert_ne by done. rewrite Hkeep. split.
    + intros (? & ? & ? & ?); done.
    + intros (-> & ? & ?). split_and!; [done | done | done |]. intros [= -> ->]. done.
Qed.
End ConversionMore.

(** ** What a load returns and what it leaves running *)

Section LoadingMore.
Variable tok : Tokens.
Variable ParseTolerant : string → Version * option error.
Variable host : Host.

Local Abbreviation converted urn props allow :=
  (fold_left (convertProperty tok urn allow) (rangeProperties props)
             ((extractVersion ParseTolerant props).1, false, ∅)).

Lemma NoDup_rangeProperties (props : PropertyMap) : NoDup (rangeProperties props).*1.
Proof. destruct props as [m|]; simpl; [apply NoDup_fst_map_to_list | constructor]. Qed.

(** X15: the validation failures of a load are exactly these: the failure
    of the ["version"] property, if it has one; for every other property
    whose value is unknown, "provider properties must not be unknown", when
    unknowns are not allowed; and for every other property whose value is
    neither unknown nor a string, "provider property values must be
    strings". *)
Theorem validation_failures_are_characterised urn props allow log p fs e log' f :
  loadProvider tok ParseTolerant host urn props allow log = (Ok (p, fs, e), log') →
  f ∈ fs ↔
  f ∈ (extractVersion ParseTolerant props).1 ∨
  ∃ k v, lookupProperty props k = Some v ∧ rejected allow k v f.
Proof.
  intros H. apply loadProvider_failures in H as ->.
  rewrite convert_failures_elem. simpl.
  split; (intros [H | (k & v & Hin & H)]; [by left | right; exists k, v; split; [|done]]).
  - by apply elem_of_rangeProperties.
  - by apply elem_of_rangeProperties.
Qed.

(** X16: what a load returns holds one thing.  With a provider, there are
    no failures and no error.  Without one, there are either failures and no
    error, the host not having been called, or an error and no failures.
    [loadProvider] never returns a Go error of its own in place of this
    triple, and it only panics when the host hands out a nil provider. *)
Theorem load_result_is_exclusive urn props allow log :
  match loadProvider tok ParseTolerant host urn props allow log with
  | (Ok (Some p, fs, e), log') => fs = [] ∧ e = None ∧ log' ≠ log
  | (Ok (None, fs, e), log') =>
      (fs ≠ [] ∧ e = None ∧ log' = log) ∨ (fs = [] ∧ is_Some e ∧ log' ≠ log)
  | (Err _, _) => False
  | (Panic _, log') =>
      ∃ pkg version, hostProvider host log pkg version = inr None ∧ log' ≠ log
  end.
Proof.
  assert (∀ (c : HostCall) rest, log ++ c :: rest ≠ log) as Hne.
  { intros c rest H. apply (f_equal length) in H. rewrite length_app in H. simpl in H. lia. }
  rewrite loadProvider_unfold.
  destruct ((converted urn props allow).1.1) as [|f fs]; simpl.
  2: { left. done. }
  destruct (negb (converted urn props allow).1.2).
  - unfold bind, attempt, loadProviderRaw, bind, callHost. cbv beta.
    destruct (hostProvider host log _ _) as [e|[h|]] eqn:Eh; simpl.
    + right. split_and!; [done | by eexists | apply Hne].
    + destruct (pluginConfigure _ _ _ _); simpl.
      * right. split_and!; [done | by eexists | rewrite <- !app_assoc; apply Hne].
      * split_and!; [done | done | rewrite <- !app_assoc; apply Hne].
    + eexists _, _. split; [exact Eh | apply Hne].
  - unfold bind, callHost. cbv beta.
    destruct (hostProvider host log _ _) as [e|[h|]] eqn:Eh; simpl.
    + right. split_and!; [done | by eexists | apply Hne].
    + destruct (pluginGetPluginInfo _ _ _); simpl.
      * right. split_and!; [done | by eexists | rewrite <- !app_assoc; apply Hne].
      * split_and!; [done | done | rewrite <- !app_assoc; apply Hne].
    + eexists _, _. split; [exact Eh | rewrite <- !app_assoc; apply Hne].
Qed.

(** X17: no plugin is left running behind a load.  When the host launches
    a plugin for a load, either the load returns that plugin, configured and
    not closed, or the last thing the load does is to close it: after a
    failed [Configure], and always when a shim is built, whether or not the
    plugin reported its information. *)
Theorem launched_plugin_is_returned_or_closed urn props allow log h :
  let pkg := typeName tok (urnType tok urn) in
  let version := (extractVersion ParseTolerant props).2 in
  let out := loadProvider tok ParseTolerant host urn props allow log in
  hostProvider host log pkg version = inr (Some h) →
  out.2 = log ∨
  (out.1 = Ok (Some (pluginProvider h), [], None) ∧
   ∃ cfg, out.2 = log ++ [CallProvider pkg version; CallConfigure h cfg]) ∨
  (((∃ info, out.1 = Ok (Some (shimProvider pkg info), [], None)) ∨
    (∃ e, out.1 = Ok (None, [], Some e))) ∧
   ∃ made, out.2 = log ++ CallProvider pkg version :: made ++ [CallCloseProvider (Some h)]).
Proof.
  intros pkg version out Hh. subst out. rewrite loadProvider_unfold.
  destruct ((converted urn props allow).1.1) as [|f fs]; simpl; [|by left].
  right. fold pkg version.
  destruct (negb (converted urn props allow).1.2).
  - unfold bind, attempt, loadProviderRaw, bind, callHost. cbv beta. rewrite Hh. simpl.
    destruct (pluginConfigure _ _ _ _) as [e|]; simpl.
    + right. split; [right; by eexists|].
      eexists [_]. by rewrite <- !app_assoc.
    + left. split; [done|]. eexists. by rewrite <- !app_assoc.
  - unfold bind, callHost. cbv beta. rewrite Hh. simpl. right.
    destruct (pluginGetPluginInfo _ _ _) as [e|info]; simpl.
    + split; [right; by eexists|]. eexists [_]. by rewrite <- !app_assoc.
    + split; [left; by eexists|]. eexists [_]. by rewrite <- !app_assoc.
Qed.

(** X18: a configuration that holds an unknown value never reaches
    [Configure] of a plugin, with unknowns allowed or not, and whatever else
    the configuration holds; and when the load hands out a provider for it,
    that provider is a shim of the package. *)
Theorem unknown_value_never_configures_a_plugin urn props allow log k :
  lookupProperty props k = Some PVComputed → k ≠ "version" →
  let out := loadProvider tok ParseTolerant host urn props allow log in
  (∃ made, out.2 = log ++ made ∧ Forall (λ c, isConfigureCall c = false) made) ∧
  ∀ p fs e, out.1 = Ok (Some p, fs, e) →
            ∃ info, p = shimProvider (typeName tok (urnType tok urn)) info.
Proof.
  intros Hk Hne out. subst out. apply elem_of_rangeProperties in Hk.
  destruct (decide ((converted urn props allow).1.1 = [])) as [Hfs|Hfs].
  2: { rewrite loadProvider_rejects by done. simpl. split; [|done].
       exists []. by rewrite app_nil_r. }
  assert ((converted urn props allow).1.2 = true) as Hshim.
  { destruct allow.
    - by eapply convert_unknown_shim.
    - eapply (convert_unknown_rejected tok urn false) in Hk; [| done ..].
      rewrite Hfs in Hk. by apply elem_of_nil in Hk. }
  rewrite loadProvider_unfold, Hfs, Hshim. simpl.
  unfold bind, callHost. cbv beta.
  destruct (hostProvider host log _ _) as [e|[h|]]; simpl.
  - split; [|done]. eexists [_]. split; [done|]. by repeat constructor.
  - destruct (pluginGetPluginInfo _ _ _) as [e|info]; simpl.
    + split; [|done]. eexists [_; _; _]. rewrite <- !app_assoc. split; [done|].
      by repeat constructor.
    + split; [| intros p fs e [= <- _ _]; by eexists].
      eexists [_; _; _]. rewrite <- !app_assoc. split; [done|]. by repeat constructor.
  - split; [|done]. eexists [_; _]. rewrite <- !app_assoc. split; [done|].
    by repeat constructor.
Qed.

(** X19: when a load hands out a plugin, it has asked the host for the
    package in the requested version and configured the plugin once, with no
    error, and has made no other call; and the configuration the plugin
    received holds exactly the string properties other than ["version"], each
    under the key made of the name of the provider's type and the name of the
    property. *)
Theorem plugin_is_configured_with_the_string_properties urn props allow log h fs e log' :
  let pkg := typeName tok (urnType tok urn) in
  let version := (extractVersion ParseTolerant props).2 in
  loadProvider tok ParseTolerant host urn props allow log
    = (Ok (Some (pluginProvider h), fs, e), log') →
  ∃ cfg,
    log' = log ++ [CallProvider pkg version; CallConfigure h cfg] ∧
    pluginConfigure host (log ++ [CallProvider pkg version]) h cfg = None ∧
    ∀ ns k s, cfg !! (ns, k) = Some s ↔
              ns = pkg ∧ k ≠ "version" ∧ lookupProperty props k = Some (PVString s).
Proof.
  intros pkg version. rewrite loadProvider_unfold. fold pkg version.
  destruct (negb (_ =? _)%nat); [discriminate|]. cbv zeta.
  destruct (negb (converted urn props allow).1.2).
  - unfold bind, attempt, loadProviderRaw, bind, callHost. cbv beta.
    destruct (hostProvider host log _ _) as [e'|[h'|]]; simpl; try discriminate.
    destruct (pluginConfigure _ _ _ _) as [e'|] eqn:Ec; simpl; [discriminate|].
    intros [= <- _ _ <-]. eexists. split; [by rewrite <- !app_assoc|]. split; [exact Ec|].
    intros ns k s. rewrite convert_cfg by apply NoDup_rangeProperties.
    by rewrite elem_of_rangeProperties.
  - unfold bind, callHost. cbv beta.
    destruct (hostProvider host log _ _) as [e'|[h'|]]; simpl; try discriminate.
    destruct (pluginGetPluginInfo _ _ _); simpl; discriminate.
Qed.
End LoadingMore.

(** ** The handle table, continued *)

Section ServingMore.
Variable tok : Tokens.
Variable ParseTolerant : string → Version * option error.
Variable host : Host.

Local Abbreviation serveRequest' := (serveRequest tok ParseTolerant host).
Local Abbreviation serve' := (serve tok ParseTolerant host).

Lemma serve_app before after s resps s' :
  serve' (before ++ after) s = (Ok resps, s') →
  ∃ r1 s1 r2, serve' before s = (Ok r1, s1) ∧ serve' after s1 = (Ok r2, s') ∧
              resps = r1 ++ r2 ∧ length r1 = length before.
Proof.
  revert s resps. induction before as [|req before IH]; intros s resps H; simpl in H.
  { exists [], s, resps. by split_and!. }
  apply bind_Ok_inv in H as (resp & s1 & H1 & H).
  apply bind_Ok_inv in H as (rest & s2 & H2 & H). injection H as <- <-.
  destruct (IH _ _ H2) as (r1 & s3 & r2 & Hb & Ha & -> & Hlen).
  exists (resp :: r1), s3, r2. simpl. rewrite (bind_Ok _ _ _ _ _ H1), (bind_Ok _ _ _ _ _ Hb).
  split_and!; [done | done | done | by rewrite Hlen].
Qed.

(** Where the records of the table come from. *)
Lemma serve_origin reqs s resps s' u r :
  serve' reqs s = (Ok resps, s') →
  providers s' !! u = Some r →
  providers s !! u = Some r ∨
  (is_Some (recProvider r) ∧
   ∃ req resp, (req, resp) ∈ zip reqs resps ∧ loadSucceeded u req resp ∧
               recProperties r = properties req ∧ recProvider r = provider resp).
Proof.
  revert s resps. induction reqs as [|req reqs IH]; intros s resps H Hu; simpl in H.
  { injection H as _ <-. by left. }
  apply bind_Ok_inv in H as (resp & s1 & H1 & H).
  apply bind_Ok_inv in H as (rest & s2 & H2 & H). injection H as <- <-.
  destruct (IH _ _ H2 Hu) as [Hs1 | (Hsome & req' & resp' & Hin & Hok)].
  2: { right. split; [done|]. exists req', resp'. split; [by right | done]. }
  destruct (properties req) as [m|] eqn:Hm.
  - apply serveRequest_load in H1 as [Hnone [(Hfs & He & Hp & Hs) | [_ Hs]]];
      [| | by rewrite Hm].
    + rewrite Hs in Hs1. apply lookup_insert_Some in Hs1 as [[<- <-] | [_ Hs1]]; [|by left].
      right. simpl. split; [done|]. exists req, resp. split; [by left|].
      unfold loadSucceeded. rewrite Hm. by split_and!.
    + left. by rewrite <- Hs.
  - rewrite serveRequest_lookup in H1 by done. injection H1 as _ <-. by left.
Qed.

(** X20: from a new loader on, whatever requests are served, every record
    of the handle table comes from a load that succeeded: it holds a provider
    that is not nil, the one that load returned, and the properties that load
    was given. *)
Theorem table_holds_only_loaded_providers reqs resps s u r :
  serve' reqs newProviderLoader = (Ok resps, s) →
  providers s !! u = Some r →
  is_Some (recProvider r) ∧
  ∃ req resp, (req, resp) ∈ zip reqs resps ∧ loadSucceeded u req resp ∧
              recProperties r = properties req ∧ recProvider r = provider resp.
Proof.
  intros H Hu. destruct (serve_origin _ _ _ _ _ _ H Hu) as [Hempty | Hload]; [|done].
  simpl in Hempty. by rewrite lookup_empty in Hempty.
Qed.

(** With a record for [u] in the table, only lookups of [u] are answered. *)
Lemma serve_loaded reqs s resps s' u r :
  serve' reqs s = (Ok resps, s') →
  providers s !! u = Some r →
  Forall (λ req, urn req = u → properties req = None) reqs.
Proof.
  revert s resps. induction reqs as [|req reqs IH]; intros s resps H Hu; simpl in H.
  { constructor. }
  apply bind_Ok_inv in H as (resp & s1 & H1 & H).
  apply bind_Ok_inv in H as (rest & s2 & H2 & H). injection H as _ <-.
  constructor.
  - intros <-. destruct (properties req) as [m|] eqn:Hm; [|done].
    apply serveRequest_load in H1 as [Hnone _]; [| by rewrite Hm]. by rewrite Hnone in Hu.
  - eapply IH; [exact H2|]. by eapply serveRequest_keeps.
Qed.

(** X21: a provider is loaded at most once for a URN.  In a sequence of
    requests that the serving task answered, a load that succeeded is
    followed by lookups of its URN only: a second load of that URN fails the
    assertion of [serve] instead of being answered. *)
Theorem provider_is_loaded_at_most_once before req after s resps s' :
  serve' (before ++ req :: after) s = (Ok resps, s') →
  ∃ r1 resp r2,
    resps = r1 ++ resp :: r2 ∧ length r1 = length before ∧
    (loadSucceeded (urn req) req resp →
     Forall (λ req', urn req' = urn req → properties req' = None) after).
Proof.
  intros H. apply serve_app in H as (r1 & s1 & r2 & Hb & Ha & -> & Hlen).
  simpl in Ha. apply bind_Ok_inv in Ha as (resp & s2 & H1 & Ha).
  apply bind_Ok_inv in Ha as (rest & s3 & H2 & Ha). injection Ha as <- <-.
  exists r1, resp, rest. split_and!; [done | done |].
  intros (_ & Hp & Hfs & He).
  apply serveRequest_load in H1 as [_ [(_ & _ & _ & Hs) | [[?|?] _]]]; [| done ..].
  eapply serve_loaded; [exact H2|]. rewrite Hs. apply lookup_insert_eq.
Qed.

(** X22: [Check] of the meta-provider hands the new properties back as
    they are.  With nil properties it is a lookup and changes nothing.  With
    properties it is the load of the provider: when it reports no failure and
    no error, [Create] and [Update] for that URN succeed from then on, with
    the ID "0", empty outputs and the status OK; when it reports a failure or
    an error, they fail with "provider not found". *)
Theorem check_registers_the_provider u olds news allow s checked fs e s1 :
  metaProvider_Check tok ParseTolerant host u olds news allow s = (Ok (checked, fs, e), s1) →
  checked = news ∧
  (news = None → s1 = s) ∧
  (news ≠ None →
   ∀ id olds' news',
     if (length fs =? 0)%nat && bool_decide (e = None) then
       metaProvider_Create tok ParseTolerant host u news' s1 =
         (Ok ("0", Some ∅, StatusOK), s1) ∧
       metaProvider_Update tok ParseTolerant host u id olds' news' s1 =
         (Ok (Some ∅, StatusOK), s1)
     else
       metaProvider_Create tok ParseTolerant host u news' s1 = (Err "provider not found", s1) ∧
       metaProvider_Update tok ParseTolerant host u id olds' news' s1 =
         (Err "provider not found", s1)).
Proof.
  intros H. unfold metaProvider_Check, metaProvider_loadProvider in H.
  apply bind_Ok_inv in H as ([[p fs'] e'] & s2 & H & Hret). injection Hret as <- <- <- <-.
  apply bind_Ok_inv in H as (resp & s2' & H & Hret). injection Hret as _ <- <- <-.
  split; [done|]. split.
  - intros ->. rewrite serveRequest_lookup in H by done. by injection H as _ <-.
  - intros Hn id olds' news'.
    apply serveRequest_load in H as [Hnone [(Hfs & He & Hp & Hs) | [Hbad Hs]]]; [| | done].
    + assert ((length (failures resp) =? 0)%nat && bool_decide (err resp = None) = true) as ->.
      { rewrite Hfs. simpl. by apply bool_decide_eq_true_2. }
      unfold metaProvider_Create, metaProvider_Update.
      rewrite !(bind_Ok _ _ _ _ _ (getProvider_lookup tok ParseTolerant host u s2')).
      rewrite Hs. simpl. by rewrite lookup_insert_eq.
    + assert ((length (failures resp) =? 0)%nat && bool_decide (err resp = None) = false) as ->.
      { destruct Hbad as [Hbad|Hbad].
        - destruct (failures resp); [done|]. reflexivity.
        - rewrite (bool_decide_eq_false_2 _ Hbad). apply andb_false_r. }
      unfold metaProvider_Create, metaProvider_Update.
      rewrite !(bind_Ok _ _ _ _ _ (getProvider_lookup tok ParseTolerant host u s2')).
      rewrite Hs. simpl in Hnone. by rewrite Hnone.
Qed.

(** X23: [Check] is the only operation of the meta-provider that changes
    the loader.  [Diff] answers Unknown, [Delete], [Close] and
    [SignalCancellation] succeed, [Create], [Update] and the lookup of a
    provider read the table, and [Configure], [Read], [Invoke] and
    [GetPluginInfo] are fatal; none of them stores or removes a record or
    calls the host. *)
Theorem only_check_changes_the_loader u id olds news allow member cfg s :
  metaProvider_Diff u id olds news allow s = (Ok (DiffResultOf DiffUnknown), s) ∧
  (metaProvider_Create tok ParseTolerant host u news s).2 = s ∧
  (metaProvider_Update tok ParseTolerant host u id olds news s).2 = s ∧
  metaProvider_Delete u id olds s = (Ok StatusOK, s) ∧
  metaProvider_Close s = (Ok tt, s) ∧
  metaProvider_SignalCancellation s = (Ok tt, s) ∧
  (metaProvider_getProvider tok ParseTolerant host u s).2 = s ∧
  (∃ why, metaProvider_Configure cfg s = (Panic why, s)) ∧
  (∃ why, metaProvider_Read u id olds s = (Panic why, s)) ∧
  (∃ why, metaProvider_Invoke member news s = (Panic why, s)) ∧
  (∃ why, metaProvider_GetPluginInfo s = (Panic why, s)).
Proof.
  split_and!; try done; try (by eexists).
  - unfold metaProvider_Create. rewrite (bind_Ok _ _ _ _ _ (getProvider_lookup _ _ _ u s)).
    by destruct (providers s !! u).
  - unfold metaProvider_Update. rewrite (bind_Ok _ _ _ _ _ (getProvider_lookup _ _ _ u s)).
    by destruct (providers s !! u).
  - by rewrite getProvider_lookup.
Qed.
End ServingMore.

(** * The further properties at work on concrete registrations and requests *)

(** A bucket [d] that the snapshot [snapshotABC] does not hold is created. *)
Lemma new_resource_is_created_witness :
  ∃ l w1,
    GenerateSteps exampleTokens structuralEquals (planOver snapshotABC false)
                  (register "d" "new" []) newPlanner =
      (Ok [NewCreateStep (register "d" "new" []) (new l)],
       onGenerator (setCreated (generateURN exampleTokens (planOver snapshotABC false)
                                            (register "d" "new" []))) w1) ∧
    sg (onGenerator (setCreated (generateURN exampleTokens (planOver snapshotABC false)
                                             (register "d" "new" []))) w1) =
      setCreated (generateURN exampleTokens (planOver snapshotABC false) (register "d" "new" []))
                 (sg newPlanner) ∧
    ∃ made, calls w1 = calls newPlanner ++ made ∧ Forall (λ c, isDiffCall c = false) made.
Proof.
  eexists _, _.
  eapply (new_resource_is_created exampleTokens structuralEquals (planOver snapshotABC false)).
  - vm_compute. reflexivity.
  - apply not_elem_of_empty.
  - vm_compute. reflexivity.
Defined.


(** In a plan over [snapshotABC], bucket [a] is replaced, deleted before it
    is created again, which deletes its dependent [c]; bucket [c], registered
    after that, is recreated. *)
Lemma deleted_resource_is_recreated_witness :
  let plan := planOver snapshotABC true in
  let afterA :=
    (GenerateSteps exampleTokens structuralEquals plan (register "a" "new" []) newPlanner).2 in
  let event := register "c" "old" [urnOf "a"; urnOf "b"] in
  ∃ l w1,
    GenerateSteps exampleTokens structuralEquals plan event afterA =
      match Olds plan !! generateURN exampleTokens plan event with
      | Some old =>
          if IsRefresh plan then (Panic "An assertion has failed", w1)
          else (Ok [NewReplaceStep old (new l) [] false;
                    NewCreateReplacementStep event old (new l) [] false],
                onGenerator (λ g, setReplaced (generateURN exampleTokens plan event)
                                    (unsetDeleted (generateURN exampleTokens plan event) g)) w1)
      | None => (Panic "An assertion has failed", w1)
      end ∧
    sg w1 = sg afterA ∧
    ∃ made, calls w1 = calls afterA ++ made ∧ Forall (λ c, isDiffCall c = false) made.
Proof.
  intros plan afterA event. eexists _, _.
  eapply (deleted_resource_is_recreated exampleTokens structuralEquals plan event afterA).
  - vm_compute. reflexivity.
  - apply (bool_decide_unpack _). vm_compute. exact I.
Defined.

(** Bucket [a] of [snapshotABC], on which [c] depends, is replaced and
    deleted before it is created again. *)
Lemma delete_before_replace_steps_witness :
  let plan := planOver snapshotABC true in
  let event := register "a" "new" [] in
  ∃ old d new' w3,
    GenerateSteps exampleTokens structuralEquals plan event newPlanner =
      (Ok (map (λ res, NewDeleteReplacementStep res false)
               (reverse (dependingOn snapshotABC old)) ++
           [NewDeleteReplacementStep old false;
            NewReplaceStep old new' (ReplaceKeys d) false;
            NewCreateReplacementStep event old new' (ReplaceKeys d) false]),
       onGenerator (λ g, markDeleted g (reverse (dependingOn snapshotABC old))) w3) ∧
    dependingOn snapshotABC old = [bucket "c" "old" [urnOf "a"; urnOf "b"] false].
Proof.
  intros plan event. eexists _, _, _, _. split.
  - eapply (delete_before_replace_steps exampleTokens structuralEquals plan event newPlanner).
    + vm_compute. reflexivity.
    + apply not_elem_of_empty.
    + vm_compute. reflexivity.
    + reflexivity.
    + vm_compute. reflexivity.
    + reflexivity.
    + reflexivity.
    + reflexivity.
    + vm_compute. reflexivity.
    + reflexivity.
    + apply (bool_decide_unpack _). vm_compute. exact I.
  - vm_compute. reflexivity.
Defined.

(** In [planNeedingOlds], a bucket [b] that has no old state is registered:
    the provider, given no old inputs, reports a failure. *)
Lemma check_failures_reject_the_registration_witness :
  let plan := planNeedingOlds in
  let event := register "b" "new" [] in
  ∃ e w',
    GenerateSteps exampleTokens structuralEquals plan event newPlanner = (Err e, w') ∧
    sg w' = sg newPlanner ∧
    (∀ f, f ∈ [{| Property := "name"; Reason := "a new bucket needs a name that is free" |}] →
       checkDiagnostic exampleTokens
         (getResourcePropertyStates plan (generateURN exampleTokens plan event)
                                    (eventGoal event)).2
         (generateURN exampleTokens plan event) f ∈ sink w') ∧
    ∃ made, calls w' = calls newPlanner ++ made ∧ Forall (λ c, isDiffCall c = false) made.
Proof.
  intros plan event.
  eapply (check_failures_reject_the_registration exampleTokens structuralEquals plan event
            newPlanner (pluginProvider 0) (named "new")).
  - reflexivity.
  - reflexivity.
  - reflexivity.
  - vm_compute. reflexivity.
  - discriminate.
Defined.

(** The front end [web], a component, is registered under a plan with an
    analyzer: the analyzer is loaded and asked, and nobody else. *)
Lemma component_never_calls_a_provider_witness :
  callsMade (λ c, isAnalyzerCall c = true) newPlanner
    (GenerateSteps exampleTokens structuralEquals planAnalysed (registerFrontend "v2")
                   newPlanner).2 ∧
  calls (GenerateSteps exampleTokens structuralEquals planAnalysed (registerFrontend "v2")
                       newPlanner).2 =
    [CallHostAnalyzer "policy"; CallAnalyze 0 frontendType (named "v2")].
Proof.
  split.
  - apply (component_never_calls_a_provider exampleTokens structuralEquals planAnalysed).
    reflexivity.
  - vm_compute. reflexivity.
Defined.

(** The front end [web], whose property was ["v1"], is registered with
    ["v2"], and is updated. *)
Lemma component_is_same_or_updated_witness :
  let event := registerFrontend "v2" in
  ∃ l w1 old,
    GenerateSteps exampleTokens structuralEquals planAnalysed event newPlanner =
      (if structuralEquals (if IsRefresh planAnalysed then Outputs old else Inputs old)
                           (gProperties (eventGoal event))
       then (Ok [NewSameStep event old (new l)],
             onGenerator (setSame (generateURN exampleTokens planAnalysed event)) w1)
       else (Ok [NewUpdateStep event old (new l) []],
             onGenerator (setUpdated (generateURN exampleTokens planAnalysed event)) w1)) ∧
    structuralEquals (Inputs old) (gProperties (eventGoal event)) = false.
Proof.
  intros event. eexists _, _, _. split.
  - eapply (component_is_same_or_updated exampleTokens structuralEquals planAnalysed event
              newPlanner).
    + reflexivity.
    + vm_compute. reflexivity.
    + apply not_elem_of_empty.
    + vm_compute. reflexivity.
    + reflexivity.
  - vm_compute. reflexivity.
Defined.

(** Bucket [a] of [snapshotABC], registered under a new name, is
    recorded. *)
Lemma accepted_registration_is_recorded_witness :
  let plan := planOver snapshotABC false in
  let event := register "a" "new" [] in
  ∃ (steps : list Step) w',
    steps ≠ [] ∧ recorded (generateURN exampleTokens plan event) (sg w') ∧
    dispositionsGrow newPlanner w'.
Proof.
  intros plan event. eexists _, _.
  eapply (accepted_registration_is_recorded exampleTokens structuralEquals plan event newPlanner).
  vm_compute. reflexivity.
Defined.

(** The new state of bucket [a], registered under a new name. *)
Lemma new_state_of_a_registration_witness :
  let plan := planOver snapshotABC false in
  let event := register "a" "new" [] in
  ∃ l,
    new l = NewState bucketType (urnOf "a") true false "" (inputs l) (outputs l) "" false [] [] ∧
    (if IsRefresh plan
     then inputs l = oldInputsOf (Olds plan !! generateURN exampleTokens plan event) ∧
          outputs l = gProperties (eventGoal event) ∧ props l = gProperties (eventGoal event)
     else outputs l = None ∧ props l = inputs l ∧
          (prov l = None → inputs l = gProperties (eventGoal event))).
Proof.
  intros plan event. eexists.
  eapply (new_state_of_a_registration exampleTokens plan event newPlanner).
  vm_compute. reflexivity.
Defined.

(** In a plan over [snapshotABC] where only bucket [a] is registered again,
    bucket [b] gets its Delete step. *)
Lemma GenerateDeletes_unseen_witness :
  let plan := planOver snapshotABC false in
  let registered :=
    (GenerateSteps exampleTokens structuralEquals plan (register "a" "old" []) newPlanner).2 in
  let b := bucket "b" "old" [] false in
  ∃ s1 s2 w', GenerateDeletes plan registered = (Ok (s1 ++ NewDeleteStep b :: s2), w') ∧
              ∀ res, NewDeleteStep res ∈ s1 ++ s2 → URN_ res ≠ URN_ b.
Proof.
  intros plan registered b.
  apply (GenerateDeletes_unseen plan [bucket "a" "old" [] false] b
           [bucket "c" "old" [urnOf "a"; urnOf "b"] false] registered).
  - reflexivity.
  - repeat constructor. discriminate.
  - reflexivity.
  - apply (bool_decide_unpack _). vm_compute. exact I.
  - apply (bool_decide_unpack _). vm_compute. exact I.
  - apply (bool_decide_unpack _). vm_compute. exact I.
  - apply (bool_decide_unpack _). vm_compute. exact I.
Defined.


(** Bucket [a] is registered in a plan that finds no provider for its
    package. *)
Lemma unavailable_provider_rejects_the_registration_witness :
  let plan := planWithoutProvider in
  let event := register "a" "new" [] in
  ∃ w', GenerateSteps exampleTokens structuralEquals plan event newPlanner =
          (Err "could not load resource provider for package 'aws' from $PATH", w') ∧
        sg w' = sg newPlanner ∧
        calls w' = calls newPlanner ++
                   [CallPlanProvider (typePackage exampleTokens (gType (eventGoal event)))].
Proof.
  intros plan event.
  eapply (unavailable_provider_rejects_the_registration exampleTokens structuralEquals plan
            event newPlanner).
  - reflexivity.
  - right. split; [reflexivity | vm_compute; reflexivity].
Defined.

(** A configuration of the [aws] provider with a region and a port that is
    a number. *)
Lemma validation_failures_are_characterised_witness :
  let props := Some {[ "region" := PVString "us-east-1"; "port" := PVNumber 80 ]} in
  loadProvider exampleTokens tolerantParse exampleHost (providerURN "aws") props false [] =
    (Ok (None, [stringsFailure "port"], None), []) ∧
  (stringsFailure "port" ∈ [stringsFailure "port"] ↔
   stringsFailure "port" ∈ (extractVersion tolerantParse props).1 ∨
   ∃ k v, lookupProperty props k = Some v ∧ rejected false k v (stringsFailure "port")).
Proof.
  intros props.
  assert (loadProvider exampleTokens tolerantParse exampleHost (providerURN "aws") props false []
          = (Ok (None, [stringsFailure "port"], None), [])) as Hload
    by (vm_compute; reflexivity).
  split; [exact Hload|].
  exact (validation_failures_are_characterised exampleTokens tolerantParse exampleHost
           (providerURN "aws") props false [] None [stringsFailure "port"] None []
           (stringsFailure "port") Hload).
Defined.

(** The [aws] plugin is launched with a configuration that lacks the
    region: its [Configure] fails and the plugin is closed. *)
Lemma launched_plugin_is_returned_or_closed_witness :
  let props := Some {[ "profile" := PVString "ops" ]} in
  let out := loadProvider exampleTokens tolerantParse exampleHost (providerURN "aws") props
                          false [] in
  (out.2 = [] ∨
   (out.1 = Ok (Some (pluginProvider 0), [], None) ∧
    ∃ cfg, out.2 = [] ++ [CallProvider "aws" None; CallConfigure 0 cfg]) ∨
   (((∃ info, out.1 = Ok (Some (shimProvider "aws" info), [], None)) ∨
     (∃ e, out.1 = Ok (None, [], Some e))) ∧
    ∃ made, out.2 = [] ++ CallProvider "aws" None :: made ++ [CallCloseProvider (Some 0)])) ∧
  out.1 = Ok (None, [], Some "missing required configuration key 'aws:region'").
Proof.
  intros props out. split.
  - exact (launched_plugin_is_returned_or_closed exampleTokens tolerantParse exampleHost
             (providerURN "aws") props false [] 0 eq_refl).
  - vm_compute. reflexivity.
Defined.

(** A configuration of the [aws] provider whose region is not known yet. *)
Lemma unknown_value_never_configures_a_plugin_witness :
  let props := Some {[ "region" := PVComputed; "profile" := PVString "ops" ]} in
  let out := loadProvider exampleTokens tolerantParse exampleHost (providerURN "aws") props
                          true [] in
  (∃ made, out.2 = [] ++ made ∧ Forall (λ c, isConfigureCall c = false) made) ∧
  ∀ p fs e, out.1 = Ok (Some p, fs, e) →
            ∃ info, p = shimProvider (typeName exampleTokens
                                        (urnType exampleTokens (providerURN "aws"))) info.
Proof.
  intros props.
  apply (unknown_value_never_configures_a_plugin exampleTokens tolerantParse exampleHost
           (providerURN "aws") props true [] "region").
  - vm_compute. reflexivity.
  - discriminate.
Defined.

(** The [aws] plugin is loaded in version 1.2.3 with a region and a
    profile. *)
Lemma plugin_is_configured_with_the_string_properties_witness :
  let props := Some {[ "version" := PVString "1.2.3"; "region" := PVString "us-east-1";
                       "profile" := PVString "ops" ]} in
  let pkg := typeName exampleTokens (urnType exampleTokens (providerURN "aws")) in
  let version := (extractVersion tolerantParse props).2 in
  ∃ log',
    loadProvider exampleTokens tolerantParse exampleHost (providerURN "aws") props false [] =
      (Ok (Some (pluginProvider 0), [], None), log') ∧
    ∃ cfg,
      log' = [] ++ [CallProvider pkg version; CallConfigure 0 cfg] ∧
      pluginConfigure exampleHost ([] ++ [CallProvider pkg version]) 0 cfg = None ∧
      ∀ ns k s, cfg !! (ns, k) = Some s ↔
                ns = pkg ∧ k ≠ "version" ∧ lookupProperty props k = Some (PVString s).
Proof.
  intros props pkg version. eexists. split.
  - vm_compute. reflexivity.
  - eapply (plugin_is_configured_with_the_string_properties exampleTokens tolerantParse
              exampleHost (providerURN "aws") props false [] 0 [] None).
    vm_compute. reflexivity.
Defined.

(** The [aws] provider is loaded, looked up, and then a load for [gcp]
    fails: the table holds the one record of [aws]. *)
Lemma table_holds_only_loaded_providers_witness :
  let region : gmap string PropertyValue := {[ "region" := PVString "us-east-1" ]} in
  let reqs := [loadRequest (providerURN "aws") region false; lookupRequest (providerURN "aws");
               loadRequest (providerURN "gcp") region false] in
  ∃ resps s r,
    serve exampleTokens tolerantParse exampleHost reqs newProviderLoader = (Ok resps, s) ∧
    providers s !! providerURN "aws" = Some r ∧
    is_Some (recProvider r) ∧
    ∃ req resp, (req, resp) ∈ zip reqs resps ∧ loadSucceeded (providerURN "aws") req resp ∧
                recProperties r = properties req ∧ recProvider r = provider resp.
Proof.
  intros region reqs.
  assert (∃ resps s r,
            serve exampleTokens tolerantParse exampleHost reqs newProviderLoader = (Ok resps, s) ∧
            providers s !! providerURN "aws" = Some r) as (resps & s & r & Hserve & Hr).
  { eexists _, _, _. split; vm_compute; reflexivity. }
  exists resps, s, r. split; [exact Hserve|]. split; [exact Hr|].
  exact (table_holds_only_loaded_providers exampleTokens tolerantParse exampleHost reqs resps s
           (providerURN "aws") r Hserve Hr).
Defined.

(** The same requests: after the load of [aws], the only request for [aws]
    is a lookup. *)
Lemma provider_is_loaded_at_most_once_witness :
  let region : gmap string PropertyValue := {[ "region" := PVString "us-east-1" ]} in
  let req := loadRequest (providerURN "aws") region false in
  let after := [lookupRequest (providerURN "aws"); loadRequest (providerURN "gcp") region false] in
  ∃ resps s',
    serve exampleTokens tolerantParse exampleHost ([] ++ req :: after) newProviderLoader =
      (Ok resps, s') ∧
    ∃ r1 resp r2,
      resps = r1 ++ resp :: r2 ∧ length r1 = length (@nil providerLoadRequest) ∧
      (loadSucceeded (urn req) req resp →
       Forall (λ req', urn req' = urn req → properties req' = None) after).
Proof.
  intros region req after. eexists _, _. split.
  - vm_compute. reflexivity.
  - eapply (provider_is_loaded_at_most_once exampleTokens tolerantParse exampleHost
              [] req after newProviderLoader).
    vm_compute. reflexivity.
Defined.

(** The configuration of the [aws] provider is checked by the
    meta-provider, which loads the plugin. *)
Lemma check_registers_the_provider_witness :
  let news := Some {[ "region" := PVString "us-east-1" ]} in
  ∃ checked fs e s1,
    metaProvider_Check exampleTokens tolerantParse exampleHost (providerURN "aws") None news
                       false newProviderLoader = (Ok (checked, fs, e), s1) ∧
    fs = [] ∧ e = None ∧
    checked = news ∧
    (news = None → s1 = newProviderLoader) ∧
    (news ≠ None →
     ∀ id olds' news',
       if (length fs =? 0)%nat && bool_decide (e = None) then
         metaProvider_Create exampleTokens tolerantParse exampleHost (providerURN "aws")
                             news' s1 = (Ok ("0", Some ∅, StatusOK), s1) ∧
         metaProvider_Update exampleTokens tolerantParse exampleHost (providerURN "aws")
                             id olds' news' s1 = (Ok (Some ∅, StatusOK), s1)
       else
         metaProvider_Create exampleTokens tolerantParse exampleHost (providerURN "aws")
                             news' s1 = (Err "provider not found", s1) ∧
         metaProvider_Update exampleTokens tolerantParse exampleHost (providerURN "aws")
                             id olds' news' s1 = (Err "provider not found", s1)).
Proof.
  intros news. eexists _, _, _, _. split; [vm_compute; reflexivity|].
  split; [reflexivity|]. split; [reflexivity|].
  eapply (check_registers_the_provider exampleTokens tolerantParse exampleHost
            (providerURN "aws") None news false newProviderLoader).
  vm_compute. reflexivity.
Defined.

(** Bucket [a] of [snapshotABC], registered under a new name, is accepted,
    and nothing is written to the sink. *)
Lemma accepted_registration_writes_no_diagnostic_witness :
  let plan := planOver snapshotABC false in
  let event := register "a" "new" [] in
  ∃ (steps : list Step) w',
    GenerateSteps exampleTokens structuralEquals plan event newPlanner = (Ok steps, w') ∧
    sink w' = sink newPlanner.
Proof.
  intros plan event. eexists _, _. split; [vm_compute; reflexivity|].
  eapply (accepted_registration_writes_no_diagnostic exampleTokens structuralEquals plan event
            newPlanner).
  vm_compute. reflexivity.
Defined.

(** In a plan over [snapshotABC], bucket [a] is registered with the inputs
    it had, and bucket [b] after it: the deletions at the end of the plan
    spare [a]. *)
Lemma registered_resource_is_not_deleted_witness :
  let plan := planOver snapshotABC false in
  let event := register "a" "old" [] in
  let later := [register "b" "new" []] in
  ∃ dels w3,
    GenerateDeletes plan
      (foldl (λ w e, (GenerateSteps exampleTokens structuralEquals plan e w).2)
             (GenerateSteps exampleTokens structuralEquals plan event newPlanner).2 later)
      = (Ok dels, w3) ∧
    ∀ res, NewDeleteStep res ∈ dels → URN_ res ≠ generateURN exampleTokens plan event.
Proof.
  intros plan event later.
  eapply (registered_resource_is_not_deleted exampleTokens structuralEquals plan event
            newPlanner _ _ later).
  - vm_compute. reflexivity.
  - eexists. vm_compute. reflexivity.
Defined.
